(** * go-mail: the header parser, verifier and repair engine of [header.go]

    A shallow embedding of [ReadHeader], [Verify], [Valid] and [Repair]
    together with the properties the specification states about them.

    Conventions of the embedding:
    - a Go [string] is a sequence of bytes; it is a [string] here and is read
      by index with [byte_at], which panics out of range as Go does;
    - Go [int] indices are [nat]: every index stays below [len(s) + 2], far
      from the 64-bit limit;
    - a run-time panic (index or slice out of range, nil dereference, failed
      type assertion) is the outcome [Panic]; loops that are not structural
      take fuel, and running out of it is the outcome [Timeout], which the
      termination lemmas show cannot happen for the fuel the callers give;
    - a [*Field] pointer is the record it points to together with its address
      [Field.ptr]; interface comparison ([!=]) compares addresses. *)

From Stdlib Require Import Ascii String DecimalString.
From stdpp Require Import gmap strings list.

Open Scope string_scope.
Open Scope list_scope.
Open Scope stdpp_scope.
Open Scope nat_scope.

(** ** Outcomes of Go code that may panic *)

Inductive result (A : Type) : Type :=
| Ok (a : A)
| Panic
| Timeout.
Arguments Ok {A} a.
Arguments Panic {A}.
Arguments Timeout {A}.

Definition bind {A B : Type} (r : result A) (k : A -> result B) : result B :=
  match r with
  | Ok a => k a
  | Panic => Panic
  | Timeout => Timeout
  end.

Notation "'let*' x ':=' r 'in' k" := (bind r (fun x => k))
  (at level 10, x pattern, r at level 100, k at level 200).

(** Go's short-circuit [&&] and [||] over operands that may panic: the right
    operand is evaluated only when the left one does not decide. *)
Definition andr (a b : result bool) : result bool :=
  let* x := a in if x then b else Ok false.
Definition orr (a b : result bool) : result bool :=
  let* x := a in if x then Ok true else b.
Infix "&&&" := andr (at level 40, left associativity).
Infix "|||" := orr (at level 50, left associativity).

(** [for cond(i) { i++ }]: the index the loop stops at. *)
Fixpoint scan (fuel : nat) (cond : nat -> result bool) (i : nat) : result nat :=
  match fuel with
  | 0 => Timeout
  | S fuel' => let* b := cond i in if b then scan fuel' cond (S i) else Ok i
  end.

(** ** Strings as byte sequences *)

(** [s[i]] *)
Definition byte_at (s : string) (i : nat) : result ascii :=
  match String.get i s with
  | Some c => Ok c
  | None => Panic
  end.

(** [s[i:j]] *)
Definition slice (s : string) (i j : nat) : result string :=
  if (i <=? j) && (j <=? String.length s)
  then Ok (String.substring i (j - i) s)
  else Panic.

(** [p(s[i])] for a test [p] on one byte. *)
Definition test_byte (s : string) (i : nat) (p : ascii -> bool) : result bool :=
  let* b := byte_at s i in Ok (p b).

(** [s[i] == c] and [s[i] != c] *)
Definition is_byte (s : string) (i : nat) (c : ascii) : result bool :=
  test_byte s i (fun b => Ascii.eqb b c).
Definition not_byte (s : string) (i : nat) (c : ascii) : result bool :=
  test_byte s i (fun b => negb (Ascii.eqb b c)).

Definition lower_byte (c : ascii) : ascii :=
  let n := nat_of_ascii c in
  if (65 <=? n) && (n <=? 90) then ascii_of_nat (n + 32) else c.

(** [strings.ToLower] on the bytes of [s].  [ReadHeader] compares the result
    with an ASCII literal ("from " and the prefix "x-"); Go's Unicode mapping
    leaves no non-ASCII byte equal to an ASCII one, so the byte-wise mapping
    decides both comparisons as Go does.  [Repair] lower-cases address keys
    only to compare them with each other on lines 449-454, and the outcome
    of that loop does not depend on them ([difference_loop_false]). *)
Fixpoint ToLower (s : string) : string :=
  match s with
  | EmptyString => EmptyString
  | String c s' => String (lower_byte c) (ToLower s')
  end.

(** [strings.HasPrefix(s, prefix)] *)
Definition HasPrefix (s prefix : string) : bool := String.prefix prefix s.

Definition CR : ascii := ascii_of_nat 13.
Definition LF : ascii := ascii_of_nat 10.
Definition TAB : ascii := ascii_of_nat 9.
Definition SP : ascii := ascii_of_nat 32.
Definition COLON : ascii := ascii_of_nat 58.

(** [%d] of [fmt] for a non-negative count. *)
Definition itoa (n : nat) : string := NilZero.string_of_uint (Nat.to_uint n).

(** ** Data model *)

Inductive HeaderMode : Type := Rfc5322Header | MimeHeader.

Definition HeaderMode_eqb (a b : HeaderMode) : bool :=
  match a, b with
  | Rfc5322Header, Rfc5322Header | MimeHeader, MimeHeader => true
  | _, _ => false
  end.

(** Modelled from the spec: the [Address] type is declared outside [src/];
    the spec gives it a canonical "local-part@domain" comparison key, which is
    all [Repair] reads ([lpdomain()]). *)
Record Address : Type := { lpdomain : string }.

(** Modelled from the spec: the concrete field types are declared outside
    [src/].  [header.go] reads [Addresses] of an [*AddressField] and [Type],
    [Subtype] and [Parameters] of a [*ContentType]; every other dynamic type
    (generic, content-transfer-encoding, ...) is [OtherField]. *)
Inductive FieldData : Type :=
| AddressField (Addresses : list Address)
| ContentType (Type_ Subtype : string) (Parameters : list (string * string))
| OtherField.

Module Field.
(** Modelled from the spec: the [Field] interface is declared outside [src/];
    a field answers [Name()], [Valid()], [Error()] and [rfc822(false)] from
    its own state.  [ptr] is the address of the object. *)
Record t : Type := mk {
  ptr : nat;
  Name : string;
  Valid : bool;
  Error : string;
  rfc822 : string;
  data : FieldData
}.
End Field.

Record Header : Type := mkHeader {
  mode : HeaderMode;
  Fields : list Field.t;
  err : option string;
  verified : bool
}.

(** [h.Add(f)] *)
Definition Add (h : Header) (f : Field.t) : Header :=
  mkHeader (mode h) (Fields h ++ [f]) (err h) (verified h).

(** ** The header parser: [ReadHeader] *)

Section Parser.

(** [simplify] (whitespace collapsing and trimming) and the field factory
    [NewHeaderField] are declared outside [src/]: the parser is verified for
    every such pair.  The factory's first argument is the address of the
    object it allocates. *)
Variable simplify : string -> string.
Variable NewHeaderField : nat -> string -> string -> Field.t.

(** Line 41: [j < end && rfc5322[j] >= 33 && rfc5322[j] <= 127 && rfc5322[j] != ':'] *)
Definition token_cond (rfc5322 : string) (end_ j : nat) : result bool :=
  Ok (j <? end_)
  &&& test_byte rfc5322 j (fun b => 33 <=? nat_of_ascii b)
  &&& test_byte rfc5322 j (fun b => nat_of_ascii b <=? 127)
  &&& not_byte rfc5322 j COLON.

(** Line 46: [i < end && rfc5322[i] != '\r' && rfc5322[i] != '\n'] *)
Definition line_cond (rfc5322 : string) (end_ i : nat) : result bool :=
  Ok (i <? end_) &&& not_byte rfc5322 i CR &&& not_byte rfc5322 i LF.

(** Line 59: [rfc5322[i] == ' ' || rfc5322[i] == '\t'] *)
Definition blank_cond (rfc5322 : string) (i : nat) : result bool :=
  is_byte rfc5322 i SP ||| is_byte rfc5322 i TAB.

(** Line 66: [j < end && (rfc5322[j] != '\n' ||
    (j+1 < end && (rfc5322[j+1] == ' ' || rfc5322[j+1] == '\t')))] *)
Definition value_cond (rfc5322 : string) (end_ j : nat) : result bool :=
  Ok (j <? end_)
  &&& (not_byte rfc5322 j LF
       ||| (Ok (j + 1 <? end_)
            &&& (is_byte rfc5322 (j + 1) SP ||| is_byte rfc5322 (j + 1) TAB))).

(** One turn of the [for !done] loop (lines 31-85) on the loop variables
    [i], [done] and the header under construction. *)
Definition ReadHeader_iter (rfc5322 : string) (m : HeaderMode)
    (st : nat * bool * Header) : result (nat * bool * Header) :=
  let '(i, done, h) := st in
  let end_ := String.length rfc5322 in
  let done := if end_ <=? i then true else done in
  let* bom := Ok (i + 2 <? end_)
              &&& is_byte rfc5322 i (ascii_of_nat 239)
              &&& is_byte rfc5322 (i + 1) (ascii_of_nat 187)
              &&& is_byte rfc5322 (i + 2) (ascii_of_nat 191) in
  let i := if bom then i + 3 else i in
  let* j := scan (S end_) (token_cond rfc5322 end_) i in
  let* mbox := Ok (j =? i + 4)
               &&& Ok (HeaderMode_eqb m Rfc5322Header)
               &&& (let* t := slice rfc5322 i (j + 1) in
                    Ok (String.eqb (ToLower t) "from ")) in
  if mbox then
    let* i := scan (S end_) (line_cond rfc5322 end_) i in
    let* i := scan (S end_) (fun i => is_byte rfc5322 i CR) i in
    let* lf := is_byte rfc5322 i LF in
    let i := if lf then i + 1 else i in
    Ok (i, done, h)
  else
    let* is_field := Ok (i <? j) &&& is_byte rfc5322 j COLON in
    if is_field then
      let* name := slice rfc5322 i j in
      let i := j in
      let i := i + 1 in
      let* i := scan (S end_) (blank_cond rfc5322) i in
      let j := i in
      let* j := scan (S end_) (value_cond rfc5322 end_) j in
      let* cr := Ok (0 <? j) &&& is_byte rfc5322 (j - 1) CR in
      let j := if cr then j - 1 else j in
      let* value := slice rfc5322 i j in
      let h :=
        if negb (String.eqb (simplify value) "")
           || HasPrefix (ToLower name) "x-"
        then Add h (NewHeaderField (length (Fields h)) name value)
        else h in
      let i := j in
      let* crlf := Ok (i + 1 <? end_)
                   &&& is_byte rfc5322 i CR
                   &&& is_byte rfc5322 (i + 1) LF in
      let i := if crlf then i + 1 else i in
      let i := i + 1 in
      Ok (i, done, h)
    else
      Ok (i, true, h).

(** [for !done { ... }] *)
Fixpoint ReadHeader_loop (fuel : nat) (rfc5322 : string) (m : HeaderMode)
    (st : nat * bool * Header) : result Header :=
  let '(i, done, h) := st in
  if done then Ok h
  else
    match fuel with
    | 0 => Timeout
    | S fuel' =>
        let* st' := ReadHeader_iter rfc5322 m st in
        ReadHeader_loop fuel' rfc5322 m st'
    end.

(** [ReadHeader(rfc5322, m) (h *Header, err error)]: the header and the error
    value ([None] is [nil]).  Every turn of the loop either sets [done] or
    moves [i] forward, so [len(rfc5322) + 1] turns are enough. *)
Definition ReadHeader (rfc5322 : string) (m : HeaderMode)
    : result (Header * option string) :=
  let h := mkHeader m [] None false in
  let* h := ReadHeader_loop (S (String.length rfc5322)) rfc5322 m (0, false, h) in
  Ok (h, None).

End Parser.

(** ** Field names and the condition table *)

(** Modelled from the spec: the field-name constants are declared outside
    [src/]; they are the canonical names the spec and RFC 5322 use.  Only
    their being pairwise distinct matters below. *)
Definition FromFieldName : string := "From".
Definition ResentFromFieldName : string := "Resent-From".
Definition SenderFieldName : string := "Sender".
Definition ResentSenderFieldName : string := "Resent-Sender".
Definition ReturnPathFieldName : string := "Return-Path".
Definition ReplyToFieldName : string := "Reply-To".
Definition ToFieldName : string := "To".
Definition CcFieldName : string := "Cc".
Definition BccFieldName : string := "Bcc".
Definition ResentToFieldName : string := "Resent-To".
Definition ResentCcFieldName : string := "Resent-Cc".
Definition ResentBccFieldName : string := "Resent-Bcc".
Definition MessageIdFieldName : string := "Message-Id".
Definition ContentIdFieldName : string := "Content-Id".
Definition ResentMessageIdFieldName : string := "Resent-Message-Id".
Definition ReferencesFieldName : string := "References".
Definition DateFieldName : string := "Date".
Definition SubjectFieldName : string := "Subject".
Definition MimeVersionFieldName : string := "Mime-Version".
Definition ContentTypeFieldName : string := "Content-Type".
Definition ContentTransferEncodingFieldName : string := "Content-Transfer-Encoding".

Module HeaderFieldCondition.
Record t : Type := mk {
  name : string;
  min : nat;
  max : nat;
  m : HeaderMode
}.
End HeaderFieldCondition.

Definition conditions : list HeaderFieldCondition.t :=
  [ HeaderFieldCondition.mk SenderFieldName 0 1 Rfc5322Header;
    HeaderFieldCondition.mk ReplyToFieldName 0 1 Rfc5322Header;
    HeaderFieldCondition.mk ToFieldName 0 1 Rfc5322Header;
    HeaderFieldCondition.mk CcFieldName 0 1 Rfc5322Header;
    HeaderFieldCondition.mk BccFieldName 0 1 Rfc5322Header;
    HeaderFieldCondition.mk MessageIdFieldName 0 1 Rfc5322Header;
    HeaderFieldCondition.mk ReferencesFieldName 0 1 Rfc5322Header;
    HeaderFieldCondition.mk SubjectFieldName 0 1 Rfc5322Header;
    HeaderFieldCondition.mk FromFieldName 1 1 Rfc5322Header;
    HeaderFieldCondition.mk DateFieldName 1 1 Rfc5322Header;
    HeaderFieldCondition.mk MimeVersionFieldName 0 1 Rfc5322Header;
    HeaderFieldCondition.mk MimeVersionFieldName 0 1 MimeHeader;
    HeaderFieldCondition.mk ContentTypeFieldName 0 1 Rfc5322Header;
    HeaderFieldCondition.mk ContentTypeFieldName 0 1 MimeHeader;
    HeaderFieldCondition.mk ContentTransferEncodingFieldName 0 1 Rfc5322Header;
    HeaderFieldCondition.mk ContentTransferEncodingFieldName 0 1 MimeHeader;
    HeaderFieldCondition.mk ReturnPathFieldName 0 1 Rfc5322Header ].

(** ** Queries on a header *)

Definition set_Fields (h : Header) (fs : list Field.t) : Header :=
  mkHeader (mode h) fs (err h) (verified h).

(** [h.field(fn, n)]: the [n]-th field named [fn], or nil. *)
Fixpoint field_of (fs : list Field.t) (fn : string) (n : nat) : option Field.t :=
  match fs with
  | [] => None
  | f :: fs' =>
      if String.eqb (Field.Name f) fn then
        match n with
        | S n' => field_of fs' fn n'
        | 0 => Some f
        end
      else field_of fs' fn n
  end.

Definition field (h : Header) (fn : string) (n : nat) : option Field.t :=
  field_of (Fields h) fn n.

(** The [switch] of [addressField]. *)
Definition address_field_names : list string :=
  [ FromFieldName; ResentFromFieldName; SenderFieldName; ResentSenderFieldName;
    ReturnPathFieldName; ReplyToFieldName; ToFieldName; CcFieldName; BccFieldName;
    ResentToFieldName; ResentCcFieldName; ResentBccFieldName; MessageIdFieldName;
    ContentIdFieldName; ResentMessageIdFieldName; ReferencesFieldName ].

(** [h.addressField(fn, n)]: the comma-ok assertion yields nil for a field of
    another dynamic type and for no field. *)
Definition addressField (h : Header) (fn : string) (n : nat) : option (list Address) :=
  if existsb (String.eqb fn) address_field_names then
    match field h fn n with
    | Some f =>
        match Field.data f with
        | AddressField addrs => Some addrs
        | _ => None
        end
    | None => None
    end
  else None.

(** [h.addresses(fn)]; a nil slice and an empty one are both [[]]. *)
Definition addresses (h : Header) (fn : string) : list Address :=
  match addressField h fn 0 with
  | Some addrs => addrs
  | None => []
  end.

(** [h.ContentType()]: nil without a Content-Type field; the plain type
    assertion to [*ContentType] panics on a field of another dynamic type. *)
Definition ContentType_of (h : Header) : result (option Field.t) :=
  match field h ContentTypeFieldName 0 with
  | None => Ok None
  | Some f =>
      match Field.data f with
      | ContentType _ _ _ => Ok (Some f)
      | _ => Panic
      end
  end.

(** [ct.Type], [ct.Subtype] and [ct.Parameters] of a [*ContentType]. *)
Definition ct_Type (f : Field.t) : string :=
  match Field.data f with ContentType t _ _ => t | _ => "" end.
Definition ct_Subtype (f : Field.t) : string :=
  match Field.data f with ContentType _ t _ => t | _ => "" end.
Definition ct_Parameters (f : Field.t) : list (string * string) :=
  match Field.data f with ContentType _ _ ps => ps | _ => [] end.

(** ** The verifier: [Verify] and [Valid] *)

(** [occurrences[k]] on a Go [map[string]int]: a missing key reads 0. *)
Definition count_of (occurrences : gmap string nat) (k : string) : nat :=
  default 0 (occurrences !! k).

(** [for _, f := range h.Fields { occurrences[f.Name()]++ }] *)
Definition occurrences_of (fs : list Field.t) : gmap string nat :=
  foldl (fun occ f => <[Field.Name f := S (count_of occ (Field.Name f))]> occ) ∅ fs.

(** Lines 244-249: the first field that is not valid. *)
Fixpoint first_invalid (fs : list Field.t) : option Field.t :=
  match fs with
  | [] => None
  | f :: fs' => if negb (Field.Valid f) then Some f else first_invalid fs'
  end.

(** Lines 258-268: the body of the loop over the table, for one entry.  Go
    parses [a && b || c] as [(a && b) || c]. *)
Definition check_condition (c : HeaderFieldCondition.t) (md : HeaderMode)
    (occurrences : gmap string nat) : option string :=
  let n := count_of occurrences (HeaderFieldCondition.name c) in
  if HeaderMode_eqb (HeaderFieldCondition.m c) md && (n <? HeaderFieldCondition.min c)
     || (HeaderFieldCondition.max c <? n)
  then
    if HeaderFieldCondition.max c <? n then
      Some (itoa n +:+ " " +:+ HeaderFieldCondition.name c +:+ " fields seen. At most "
            +:+ itoa (HeaderFieldCondition.max c) +:+ " may be present.")
    else
      Some (itoa n +:+ " " +:+ HeaderFieldCondition.name c +:+ " fields seen. At least "
            +:+ itoa (HeaderFieldCondition.min c) +:+ " must be present.")
  else None.

(** Lines 256-270: [for h.err == nil && i < len(conditions)] over the entries
    from index [i] on. *)
Fixpoint check_conditions (cs : list HeaderFieldCondition.t) (md : HeaderMode)
    (occurrences : gmap string nat) (e : option string) : option string :=
  match e, cs with
  | Some _, _ => e
  | None, [] => None
  | None, c :: cs' => check_conditions cs' md occurrences (check_condition c md occurrences)
  end.

Definition Verify (h : Header) : Header :=
  if verified h then h
  else
    match first_invalid (Fields h) with
    | Some f =>
        mkHeader (mode h) (Fields h)
                 (Some (Field.Name f +:+ ": " +:+ Field.Error f)) true
    | None =>
        mkHeader (mode h) (Fields h)
                 (check_conditions conditions (mode h) (occurrences_of (Fields h)) None)
                 true
    end.

(** [h.Valid()]: the verdict and the header with its cache filled. *)
Definition Valid (h : Header) : bool * Header :=
  let h := Verify h in
  (match err h with None => true | Some _ => false end, h).

(** ** The repair engine: [Repair] *)

(** Modelled from the spec: the methods of [Fields] are declared outside
    [src/].  [RemoveAt(i)] deletes the entry at index [i], [Remove(f)] the
    entry holding the object [f], [RemoveAllNamed(fn)] every entry named
    [fn]. *)
Definition RemoveAt (fs : list Field.t) (i : nat) : list Field.t := delete i fs.

Fixpoint Remove (fs : list Field.t) (f : Field.t) : list Field.t :=
  match fs with
  | [] => []
  | g :: fs' => if Field.ptr g =? Field.ptr f then fs' else g :: Remove fs' f
  end.

Definition RemoveAllNamed (fs : list Field.t) (fn : string) : list Field.t :=
  List.filter (fun f => negb (String.eqb (Field.Name f) fn)) fs.

(** Lines 304-315: the scan of [h.Fields] for one table entry, on the loop
    variables [j], [n] and the field list.  [hf.rfc822] on a nil [hf]
    panics. *)
Fixpoint collapse_loop (fuel : nat) (fn : string) (hf : option Field.t)
    (j n : nat) (fs : list Field.t) : result (list Field.t) :=
  match fuel with
  | 0 => Timeout
  | S fuel' =>
      match fs !! j with
      | None => Ok fs
      | Some fj =>
          if String.eqb (Field.Name fj) fn then
            let n := S n in
            let* same :=
              Ok (1 <? n)
              &&& match hf with
                  | Some f => Ok (String.eqb (Field.rfc822 f) (Field.rfc822 fj))
                  | None => Panic
                  end in
            if same then collapse_loop fuel' fn hf j n (RemoveAt fs j)
            else collapse_loop fuel' fn hf (S j) n fs
          else collapse_loop fuel' fn hf (S j) n fs
      end
  end.

(** Lines 297-318: exact-duplicate collapse, over the table entries from
    index [i] on.  Every turn of the inner loop removes an entry or moves
    [j] forward, so [len(h.Fields) + 1] turns are enough. *)
Fixpoint collapse_duplicates (cs : list HeaderFieldCondition.t)
    (occurrences : gmap string nat) (h : Header) : result Header :=
  match cs with
  | [] => Ok h
  | c :: cs' =>
      let fn := HeaderFieldCondition.name c in
      let* h :=
        if HeaderMode_eqb (HeaderFieldCondition.m c) (mode h)
           && (HeaderFieldCondition.max c <? count_of occurrences fn)
        then
          let hf := field h fn 0 in
          let* fs := collapse_loop (S (length (Fields h))) fn hf 0 0 (Fields h) in
          Ok (set_Fields h fs)
        else Ok h in
      collapse_duplicates cs' occurrences h
  end.

(** [i := 0; for i < len(h.Fields) { if cond(h.Fields[i]) { h.Fields.RemoveAt(i) }
    else { i++ } }] (lines 349-356 and 399-407). *)
Fixpoint remove_loop (fuel : nat) (cond : Field.t -> bool) (i : nat)
    (fs : list Field.t) : result (list Field.t) :=
  match fuel with
  | 0 => Timeout
  | S fuel' =>
      match fs !! i with
      | None => Ok fs
      | Some f =>
          if cond f then remove_loop fuel' cond i (RemoveAt fs i)
          else remove_loop fuel' cond (S i) fs
      end
  end.

(** Lines 330-347: the walk over the Content-Type fields, on the loop
    variables [other], [good], [n] and [bad]; it yields [good] and [bad]. *)
Fixpoint content_type_loop (fuel : nat) (h : Header) (ct : Field.t)
    (other good : option Field.t) (n : nat) (bad : bool)
    : result (option Field.t * bool) :=
  match other with
  | None => Ok (good, bad)
  | Some o =>
      if bad then Ok (good, bad)
      else
        match fuel with
        | 0 => Timeout
        | S fuel' =>
            let '(good, bad) :=
              if negb (String.eqb (ct_Type o) (ct_Type ct))
                 || negb (String.eqb (ct_Subtype o) (ct_Subtype ct))
              then (good, true)
              else if 0 <? length (ct_Parameters o)
              then (Some o, match good with Some _ => true | None => bad end)
              else (good, bad) in
            let n := S n in
            let* other :=
              match field h ContentTypeFieldName n with
              | Some tmp =>
                  match Field.data tmp with
                  | ContentType _ _ _ => Ok (Some tmp)
                  | _ => Panic
                  end
              | None => Ok None
              end in
            content_type_loop fuel' h ct other good n bad
        end
  end.

(** Lines 324-358: Content-Type parameter consolidation.  [n] grows in every
    turn and [h.field(ContentTypeFieldName, n)] is nil from the number of
    fields on. *)
Definition consolidate_content_type (occurrences : gmap string nat) (h : Header)
    : result Header :=
  if 1 <? count_of occurrences ContentTypeFieldName then
    let* ct := ContentType_of h in
    let* (good, bad) :=
      match ct with
      | Some c => content_type_loop (S (length (Fields h))) h c ct None 0 false
      | None => Ok (None, false)
      end in
    match good with
    | Some g =>
        if negb bad then
          let* fs :=
            remove_loop (S (length (Fields h)))
              (fun f => String.eqb (Field.Name f) ContentTypeFieldName
                        && negb (Field.ptr f =? Field.ptr g))
              0 (Fields h) in
          Ok (set_Fields h fs)
        else Ok h
    | None => Ok h
    end
  else Ok h.

(** Lines 387-393: the first field named [fn] that is valid. *)
Fixpoint first_valid (fs : list Field.t) (fn : string) : option Field.t :=
  match fs with
  | [] => None
  | f :: fs' =>
      if String.eqb (Field.Name f) fn && Field.Valid f then Some f
      else first_valid fs' fn
  end.

(** Lines 381-386: the guard of the prefer-first-valid step. *)
Definition prefers_first_valid (occurrences : gmap string nat) (fn : string) : bool :=
  (1 <? count_of occurrences fn)
  && (String.eqb fn DateFieldName
      || String.eqb fn ReturnPathFieldName
      || String.eqb fn MessageIdFieldName
      || String.eqb fn ContentTypeFieldName
      || String.eqb fn ReferencesFieldName).

(** Lines 394-408: the removal for one name, once the guard holds. *)
Definition keep_first_valid (fn : string) (h : Header) : result Header :=
  match first_valid (Fields h) fn with
  | Some firstValid =>
      let alsoValid := if String.eqb fn ContentTypeFieldName then false else true in
      let* fs :=
        remove_loop (S (length (Fields h)))
          (fun f => String.eqb (Field.Name f) fn
                    && negb (Field.ptr f =? Field.ptr firstValid)
                    && (alsoValid || negb (Field.Valid f)))
          0 (Fields h) in
      Ok (set_Fields h fs)
  | None => Ok h
  end.

(** Lines 380-410: [for _, name := range fieldNames]. *)
Fixpoint prefer_first_valid (names : list string) (occurrences : gmap string nat)
    (h : Header) : result Header :=
  match names with
  | [] => Ok h
  | fn :: names' =>
      let* h := if prefers_first_valid occurrences fn then keep_first_valid fn h
                else Ok h in
      prefer_first_valid names' occurrences h
  end.

(** The argument of [fmv.Parse] on line 417. *)
Definition mime_version_note (n : nat) : string :=
  "1.0 (Note: original message contained " +:+ itoa n +:+ " Mime-Version fields)".

(** Lines 445-454: [for i < len(sender) && difference], over the entries
    from index [i] on; it yields [difference].  A missing key of the Go
    [map[string]bool] reads [false]. *)
Fixpoint difference_loop (from : gmap string bool) (sender : list string)
    (difference : bool) : bool :=
  match sender with
  | [] => difference
  | s :: sender' =>
      if difference then
        difference_loop from sender'
          (if negb (default false (from !! s)) then true else difference)
      else difference
  end.

Section Repair.

(** The table [fieldNames] and the method [Parse] of a field are declared
    outside [src/]: [Repair] is verified for every table and every [Parse].
    [Parse f s] is the state of the object [f] after [f.Parse(s)]. *)
Variable fieldNames : list string.
Variable Parse : Field.t -> string -> Field.t.

(** Lines 414-418: Mime-Version collapse.  [fmv.Parse] updates the object in
    place: every entry of the list that holds it sees the new state. *)
Definition collapse_mime_version (occurrences : gmap string nat) (h : Header)
    : result Header :=
  match field h MimeVersionFieldName 1 with
  | Some second =>
      let h := set_Fields h (Remove (Fields h) second) in
      match field h MimeVersionFieldName 0 with
      | Some fmv =>
          let note := mime_version_note (count_of occurrences MimeVersionFieldName) in
          Ok (set_Fields h
                (map (fun f => if Field.ptr f =? Field.ptr fmv then Parse fmv note else f)
                     (Fields h)))
      | None => Panic
      end
  | None => Ok h
  end.

(** Lines 423-428: Content-Transfer-Encoding suppression.  Go parses
    [ct != nil && ct.Type == "multipart" || ct.Type == "message"] as
    [(ct != nil && ct.Type == "multipart") || ct.Type == "message"]; reading
    [ct.Type] through a nil [ct] panics. *)
Definition suppress_transfer_encoding (occurrences : gmap string nat) (h : Header)
    : result Header :=
  if 0 <? count_of occurrences ContentTransferEncodingFieldName then
    let* ct := ContentType_of h in
    let ct_Type_is (t : string) : result bool :=
      match ct with
      | Some c => Ok (String.eqb (ct_Type c) t)
      | None => Panic
      end in
    let* drop := (Ok (match ct with Some _ => true | None => false end)
                  &&& ct_Type_is "multipart")
                 ||| ct_Type_is "message" in
    if drop then
      Ok (set_Fields h (RemoveAllNamed (Fields h) ContentTransferEncodingFieldName))
    else Ok h
  else Ok h.

(** Lines 434-458: Sender mirror removal.  Both the set [from] and the list
    [sender] are filled from [h.addresses(FromFieldName)]. *)
Definition remove_sender_mirror (occurrences : gmap string nat) (h : Header) : Header :=
  let senders := addresses h SenderFieldName in
  if (0 <? count_of occurrences SenderFieldName) && negb (length senders =? 1) then
    let from : gmap string bool :=
      foldl (fun from a => <[ToLower (lpdomain a) := true]> from) ∅
            (addresses h FromFieldName) in
    let sender : list string :=
      foldl (fun sender a => sender ++ [ToLower (lpdomain a)]) []
            (addresses h FromFieldName) in
    let difference := difference_loop from sender false in
    if negb difference then
      set_Fields h (RemoveAllNamed (Fields h) SenderFieldName)
    else h
  else h.

(** [h.Repair()] *)
Definition Repair (h : Header) : result Header :=
  let '(valid, h) := Valid h in
  if valid then Ok h
  else
    let occurrences := occurrences_of (Fields h) in
    let* h := collapse_duplicates conditions occurrences h in
    let* h := consolidate_content_type occurrences h in
    let* h := prefer_first_valid fieldNames occurrences h in
    let* h := collapse_mime_version occurrences h in
    let* h := suppress_transfer_encoding occurrences h in
    Ok (remove_sender_mirror occurrences h).

End Repair.

(** ** Models of the parts outside [src/] that the examples run with *)

(** Modelled from the spec: the generic variant of a field "stores raw
    value, always valid"; it is the object the factory builds for a name
    outside its registry.  The value is what [rfc822] renders. *)
Definition unstructured (p : nat) (name value : string) : Field.t :=
  Field.mk p name true "" value OtherField.

(** Modelled from the spec: an address-bearing field "holds an ordered
    sequence of Address records"; here a valid one, given by the keys of its
    addresses. *)
Definition address_field (p : nat) (name value : string) (addrs : list string) : Field.t :=
  Field.mk p name true "" value (AddressField (map Build_Address addrs)).

(** Modelled from the spec: parsing a new value into a generic field
    replaces the stored raw value. *)
Definition reparse (f : Field.t) (value : string) : Field.t :=
  Field.mk (Field.ptr f) (Field.Name f) true "" value (Field.data f).

Definition is_space (c : ascii) : bool :=
  Ascii.eqb c SP || Ascii.eqb c TAB || Ascii.eqb c CR || Ascii.eqb c LF.

(** Modelled from the spec: [simplify] yields the "whitespace-collapsed,
    trimmed" form: no leading or trailing white space, and one space for
    every inner run of it.  [started] tells that a byte was written,
    [pending] that white space was skipped since. *)
Fixpoint simplify_from (s : string) (started pending : bool) : string :=
  match s with
  | EmptyString => EmptyString
  | String c s' =>
      if is_space c then simplify_from s' started true
      else if started && pending
      then String SP (String c (simplify_from s' true false))
      else String c (simplify_from s' true false)
  end.

Definition simplify_spec (s : string) : string := simplify_from s false false.

(** Modelled from the spec: a table of field names, the names the spec
    lists for the field variants and the cardinality rules. *)
Definition example_field_names : list string :=
  address_field_names
  ++ [ DateFieldName; SubjectFieldName; MimeVersionFieldName; ContentTypeFieldName;
       ContentTransferEncodingFieldName ].

(** ** Definitions the statements are written with *)

(** The outcome is a return or a panic: the fuel was enough. *)
Definition terminates {A : Type} (r : result A) : Prop := r <> Timeout.

(** The occurrences of the name [fn] in a field list, in order. *)
Definition named (fn : string) (fs : list Field.t) : list Field.t :=
  List.filter (fun f => String.eqb (Field.Name f) fn) fs.

(** [sub] occurs in [s]. *)
Definition contains (s sub : string) : bool :=
  match String.index 0 sub s with Some _ => true | None => false end.

(** *** The parser *)

(** The test of line 74 on a parsed pair. *)
Definition kept (simplify : string -> string) (nv : string * string) : bool :=
  negb (String.eqb (simplify nv.2) "") || HasPrefix (ToLower nv.1) "x-".

Definition pairs_of (fs : list Field.t) : list (string * string) :=
  map (fun f => (Field.Name f, Field.rfc822 f)) fs.

(** The (name, value) pairs the parser splits the input into, in order: what
    [ReadHeader] collects when no value simplifies to the empty string and
    the factory stores the pair as it is. *)
Definition parsed_pairs (rfc5322 : string) (m : HeaderMode)
    : result (list (string * string)) :=
  let* (h, _) := ReadHeader (fun _ => "x") unstructured rfc5322 m in
  Ok (pairs_of (Fields h)).

(** The objects the factory allocates for a list of pairs, one after the
    other. *)
Definition allocate (NewHeaderField : nat -> string -> string -> Field.t)
    (pairs : list (string * string)) : list Field.t :=
  imap (fun k nv => NewHeaderField k nv.1 nv.2) pairs.

(** [h] holds what line 74 keeps of the pairs [hall] holds. *)
Definition filtered (simplify : string -> string)
    (NewHeaderField : nat -> string -> string -> Field.t) (hall h : Header) : Prop :=
  Fields h = allocate NewHeaderField
               (List.filter (kept simplify) (pairs_of (Fields hall))).

(** *** Exact-duplicate collapse *)

(** [f] is named [fn] and renders as [first] does. *)
Definition copy_of (fn : string) (first f : Field.t) : bool :=
  String.eqb (Field.Name f) fn && String.eqb (Field.rfc822 first) (Field.rfc822 f).

(** What one pass of lines 304-315 leaves: below the first field named [fn],
    the fields of that name that render as it does are gone. *)
Fixpoint collapsed (fn : string) (fs : list Field.t) : list Field.t :=
  match fs with
  | [] => []
  | f :: fs' =>
      if String.eqb (Field.Name f) fn
      then f :: List.filter (fun g => negb (copy_of fn f g)) fs'
      else f :: collapsed fn fs'
  end.

(** The same on the occurrences of one name. *)
Definition without_copies (occs : list Field.t) : list Field.t :=
  match occs with
  | [] => []
  | f :: rest =>
      f :: List.filter
             (fun g => negb (String.eqb (Field.rfc822 f) (Field.rfc822 g))) rest
  end.

(** The table entry [c] makes lines 299-300 collapse the name [fn]. *)
Definition collapses (occurrences : gmap string nat) (md : HeaderMode) (fn : string)
    (c : HeaderFieldCondition.t) : bool :=
  String.eqb (HeaderFieldCondition.name c) fn
  && HeaderMode_eqb (HeaderFieldCondition.m c) md
  && (HeaderFieldCondition.max c <? count_of occurrences fn).

(** *** Prefer-first-valid collapse *)

(** No name passes the guard of lines 381-386. *)
Definition none_preferred (occurrences : gmap string nat) : bool :=
  forallb (fun fn => count_of occurrences fn <=? 1)
    [ DateFieldName; ReturnPathFieldName; MessageIdFieldName;
      ContentTypeFieldName; ReferencesFieldName ].

(** Whether lines 401-402 leave the occurrence [f] of [fn] in the list. *)
Definition survives (fn : string) (firstValid f : Field.t) : bool :=
  if String.eqb fn ContentTypeFieldName
  then (Field.ptr f =? Field.ptr firstValid) || Field.Valid f
  else Field.ptr f =? Field.ptr firstValid.

(** Lines 387-408 on the occurrences of one name. *)
Definition first_valid_kept (fn : string) (occs : list Field.t) : list Field.t :=
  match first_valid occs fn with
  | Some firstValid => List.filter (survives fn firstValid) occs
  | None => occs
  end.

(** The name [fn] is reached by the loop of line 380 and passes its guard. *)
Definition preferred (occurrences : gmap string nat) (fn : string) (names : list string)
    : bool :=
  existsb (fun fn' => String.eqb fn' fn && prefers_first_valid occurrences fn') names.

(** ** Inputs of the examples *)

(** An input that ends after the colon of a field name, one that ends inside
    a token, one that is the bare mbox token, and two mbox lines without a
    line feed. *)
Definition truncated_name : string := "a:".
Definition truncated_token : string := "Subject".
Definition truncated_mbox_token : string := "From".
Definition unterminated_mbox_line : string := "From x".
Definition mbox_line_ending_in_cr : string := "From x" +:+ String CR "".

(** An empty extension field and an empty Subject field, one per line. *)
Definition extension_example : string :=
  "X-Anything:" +:+ String LF ("Subject:" +:+ String LF "").

Definition subject_example : string := "Subject: hello" +:+ String LF "".

(** Two byte-identical Subject fields, one From and one Date. *)
Definition two_subjects : Header :=
  mkHeader Rfc5322Header
    [ unstructured 0 "Subject" "hello";
      unstructured 1 "Subject" "hello";
      address_field 2 "From" "a@example.org" ["a@example.org"];
      unstructured 3 "Date" "Mon, 1 Jan 2024 00:00:00 +0000" ]
    None false.

(** Two byte-identical Subject fields and one that differs. *)
Definition three_subjects : Header :=
  mkHeader Rfc5322Header
    [ unstructured 0 "Subject" "hello";
      address_field 1 "From" "a@example.org" ["a@example.org"];
      unstructured 2 "Subject" "hello";
      unstructured 3 "Subject" "goodbye";
      unstructured 4 "Date" "Mon, 1 Jan 2024 00:00:00 +0000" ]
    None false.

(** A broken Date field before two good ones, and a From field. *)
Definition three_dates : Header :=
  mkHeader Rfc5322Header
    [ Field.mk 0 "Date" false "no date found" "yesterday" OtherField;
      unstructured 1 "Date" "Mon, 1 Jan 2024 00:00:00 +0000";
      address_field 2 "From" "a@example.org" ["a@example.org"];
      unstructured 3 "Date" "Tue, 2 Jan 2024 00:00:00 +0000" ]
    None false.

(** Three byte-identical Mime-Version fields on an otherwise regular header. *)
Definition three_mime_versions : Header :=
  mkHeader Rfc5322Header
    [ address_field 0 "From" "a@example.org" ["a@example.org"];
      unstructured 1 "Date" "Mon, 1 Jan 2024 00:00:00 +0000";
      unstructured 2 "Mime-Version" "1.0";
      unstructured 3 "Mime-Version" "1.0";
      unstructured 4 "Mime-Version" "1.0" ]
    None false.

(** A Subject field twice on a MIME body-part header. *)
Definition mime_two_subjects : Header :=
  mkHeader MimeHeader
    [ unstructured 0 "Subject" "hello"; unstructured 1 "Subject" "hello" ]
    None false.

(** A Sender field with two addresses, neither of which is in From; the
    Date field is missing. *)
Definition sender_not_in_from : Header :=
  mkHeader Rfc5322Header
    [ address_field 0 "From" "a@example.org" ["a@example.org"];
      address_field 1 "Sender" "c@example.org, d@example.org"
                    ["c@example.org"; "d@example.org"] ]
    None false.

(** A Content-Transfer-Encoding field and no Content-Type field; the Date
    field is missing. *)
Definition encoding_without_type : Header :=
  mkHeader Rfc5322Header
    [ address_field 0 "From" "a@example.org" ["a@example.org"];
      unstructured 1 "Content-Transfer-Encoding" "7bit" ]
    None false.

(** ** Definitions for the further properties *)

(** The table entry [c] is met by the field list [fs] of a header of mode
    [md]: no more occurrences than [max], and, for an entry of that mode, no
    fewer than [min]. *)
Definition rule_met (md : HeaderMode) (fs : list Field.t)
    (c : HeaderFieldCondition.t) : Prop :=
  length (named (HeaderFieldCondition.name c) fs) <= HeaderFieldCondition.max c
  /\ (HeaderFieldCondition.m c = md ->
      HeaderFieldCondition.min c <= length (named (HeaderFieldCondition.name c) fs)).

(** One From, one Date and one Subject field. *)
Definition regular_header : Header :=
  mkHeader Rfc5322Header
    [ address_field 0 "From" "a@example.org" ["a@example.org"];
      unstructured 1 "Date" "Mon, 1 Jan 2024 00:00:00 +0000";
      unstructured 2 "Subject" "hello" ]
    None false.

(** A Received field, a broken Date field and a broken Subject field. *)
Definition two_broken_fields : Header :=
  mkHeader Rfc5322Header
    [ unstructured 0 "Received" "from mx.example.org";
      Field.mk 1 "Date" false "no date found" "yesterday" OtherField;
      Field.mk 2 "Subject" false "bad encoded-word" "=?x?=" OtherField ]
    None false.

(** A header with a Date field and no From field. *)
Definition date_only : Header :=
  mkHeader Rfc5322Header
    [ unstructured 0 "Date" "Mon, 1 Jan 2024 00:00:00 +0000" ]
    None false.

(** Two To fields; the second one holds other addresses. *)
Definition two_recipients : Header :=
  mkHeader Rfc5322Header
    [ unstructured 0 "Subject" "hello";
      address_field 1 "To" "b@example.org" ["b@example.org"];
      address_field 2 "To" "c@example.org" ["c@example.org"] ]
    None false.

(** The names some step of [Repair] after the exact-duplicate collapse may
    remove or rewrite: those of lines 382-386, Mime-Version,
    Content-Transfer-Encoding and Sender. *)
Definition later_steps_names : list string :=
  [ DateFieldName; ReturnPathFieldName; MessageIdFieldName; ContentTypeFieldName;
    ReferencesFieldName; MimeVersionFieldName; ContentTransferEncodingFieldName;
    SenderFieldName ].

(** Two Received fields, two byte-identical To fields, two Mime-Version
    fields that differ, and no From or Date field. *)
Definition relayed_header : Header :=
  mkHeader Rfc5322Header
    [ unstructured 0 "Received" "from mx1.example.org";
      unstructured 1 "Received" "from mx1.example.org";
      address_field 2 "To" "b@example.org" ["b@example.org"];
      unstructured 3 "Mime-Version" "1.0";
      address_field 4 "To" "b@example.org" ["b@example.org"];
      unstructured 5 "Mime-Version" "1.1";
      unstructured 6 "Mime-Version" "1.2" ]
    None false.

(** The dynamic type of [f] is [*ContentType]. *)
Definition is_content_type (f : Field.t) : bool :=
  match Field.data f with ContentType _ _ _ => true | _ => false end.

(** [len(other.Parameters) > 0] *)
Definition has_parameters (f : Field.t) : bool := 0 <? length (ct_Parameters f).

(** [other] has the type and the subtype of [ct]. *)
Definition same_type (ct other : Field.t) : bool :=
  String.eqb (ct_Type other) (ct_Type ct)
  && String.eqb (ct_Subtype other) (ct_Subtype ct).

(** Lines 330-347 on the list of the Content-Type fields that are still to
    be visited. *)
Fixpoint content_type_walk (ct : Field.t) (others : list Field.t)
    (good : option Field.t) (bad : bool) : option Field.t * bool :=
  match others with
  | [] => (good, bad)
  | o :: rest =>
      if bad then (good, bad)
      else if negb (same_type ct o) then content_type_walk ct rest good true
      else if has_parameters o
      then content_type_walk ct rest (Some o)
             (match good with Some _ => true | None => false end)
      else content_type_walk ct rest good false
  end.

Definition content_type_field (p : nat) (value type_ subtype : string)
    (params : list (string * string)) : Field.t :=
  Field.mk p "Content-Type" true "" value (ContentType type_ subtype params).

(** Content-Type twice without and once with a parameter. *)
Definition three_content_types : Header :=
  mkHeader MimeHeader
    [ content_type_field 0 "text/plain" "text" "plain" [];
      unstructured 1 "Content-Transfer-Encoding" "8bit";
      content_type_field 2 "text/plain; charset=utf-8" "text" "plain"
                         [("charset", "utf-8")];
      content_type_field 3 "text/plain" "text" "plain" [] ]
    None false.

(** A multipart Content-Type and a Content-Transfer-Encoding on a body-part
    header that holds the Content-Type field twice. *)
Definition multipart_with_encoding : Header :=
  mkHeader MimeHeader
    [ content_type_field 0 "multipart/mixed; boundary=x" "multipart" "mixed"
                         [("boundary", "x")];
      unstructured 1 "Content-Transfer-Encoding" "base64";
      content_type_field 2 "multipart/mixed; boundary=x" "multipart" "mixed"
                         [("boundary", "x")] ]
    None false.

(** *** What the parser hands to the factory *)

(** A byte that line 41 takes into a token. *)
Definition token_byte (c : ascii) : bool :=
  (33 <=? nat_of_ascii c) && (nat_of_ascii c <=? 127) && negb (Ascii.eqb c COLON).

(** A space or a tab. *)
Definition is_blank (c : ascii) : bool := Ascii.eqb c SP || Ascii.eqb c TAB.

(** A non-empty string of token bytes. *)
Definition is_token (s : string) : Prop :=
  s <> "" /\ forall k c, String.get k s = Some c -> token_byte c = true.

(** A value as line 59 and line 66 cut it: it does not begin with a space
    or a tab, and each of its line feeds is followed by one. *)
Definition folded (v : string) : Prop :=
  (forall c, String.get 0 v = Some c -> is_blank c = false)
  /\ (forall k, String.get k v = Some LF ->
                exists c, String.get (S k) v = Some c /\ is_blank c = true).

(** What [ReadHeader] requires of a pair before it builds a field from it. *)
Definition well_formed_pair (simplify : string -> string) (nv : string * string) : Prop :=
  is_token nv.1 /\ folded nv.2 /\ kept simplify nv = true.

(** A From field, a folded Subject field and an empty line before a body. *)
Definition folded_example : string :=
  "From: a@example.org" +:+ String CR (String LF
  ("Subject: hello" +:+ String CR (String LF
  (" world" +:+ String CR (String LF
  (String CR (String LF "body"))))))).

(** *** Rendered headers *)

(** The line break: CR LF, or a bare LF. *)
Definition eol (crlf : bool) : string :=
  if crlf then String CR (String LF "") else String LF "".

(** A field as it is written: the name, a colon, a space, the value, the
    line break. *)
Definition render_field (crlf : bool) (nv : string * string) : string :=
  nv.1 +:+ ": " +:+ nv.2 +:+ eol crlf.

Fixpoint render (crlf : bool) (pairs : list (string * string)) : string :=
  match pairs with
  | [] => ""
  | nv :: rest => render_field crlf nv +:+ render crlf rest
  end.

(** A value the line break can follow: a folded value that, before a bare
    LF, does not end in a carriage return. *)
Definition line_value (crlf : bool) (v : string) : Prop :=
  folded v
  /\ (crlf = false -> String.get (String.length v - 1) v <> Some CR).

Definition renderable (crlf : bool) (nv : string * string) : Prop :=
  is_token nv.1 /\ line_value crlf nv.2.

(** What may follow a field line: nothing, or a byte that is not a space or
    a tab. *)
Definition no_continuation (next : string) : Prop :=
  forall c, String.get 0 next = Some c -> is_blank c = false.

(** What ends the header: the end of the input, or a line that begins with
    a carriage return or a line feed. *)
Definition ends_header (tail : string) : Prop :=
  forall c, String.get 0 tail = Some c -> c = CR \/ c = LF.

(** *** Mailbox separator lines *)

(** The line an mbox file puts before a message: a word, a space, the rest
    of the line, the line break. *)
Definition separator_line (crlf : bool) (word rest : string) : string :=
  word +:+ " " +:+ rest +:+ eol crlf.

(** No carriage return and no line feed in [rest]. *)
Definition one_line (rest : string) : Prop :=
  forall k, String.get k rest <> Some CR /\ String.get k rest <> Some LF.

(** The UTF-8 byte order mark: EF BB BF. *)
Definition byte_order_mark : string :=
  String (ascii_of_nat 239) (String (ascii_of_nat 187) (String (ascii_of_nat 191) "")).

(** *** Example inputs of the parser *)

(** A From field, a folded Subject field, a Comments field without a value
    and an extension field without a value. *)
Definition written_pairs : list (string * string) :=
  [ ("From", "a@example.org");
    ("Subject", "hello" +:+ String CR (String LF " world"));
    ("Comments", "");
    ("X-Empty", "") ].

(** The empty line and the body after it. *)
Definition blank_line_and_body : string := String CR (String LF "body").

(** The rest of an mbox separator line. *)
Definition envelope : string := "a@example.org Mon Jan  1 00:00:00 2024".

(** *** What the later steps of [Repair] start from *)

(** The occurrences of [fn] after the exact-duplicate collapse of lines
    297-318 on the header [h]. *)
Definition after_collapse (h : Header) (fn : string) : list Field.t :=
  if existsb (collapses (occurrences_of (Fields h)) (mode h) fn) conditions
  then without_copies (named fn (Fields h))
  else named fn (Fields h).

(** [ct.Type == "multipart" || ct.Type == "message"] *)
Definition is_composite (ct : Field.t) : bool :=
  String.eqb (ct_Type ct) "multipart" || String.eqb (ct_Type ct) "message".

(** A multipart Content-Type and the Content-Transfer-Encoding field twice,
    with different values, on a body-part header. *)
Definition multipart_two_encodings : Header :=
  mkHeader MimeHeader
    [ content_type_field 0 "multipart/mixed; boundary=x" "multipart" "mixed"
                         [("boundary", "x")];
      unstructured 1 "Content-Transfer-Encoding" "base64";
      unstructured 2 "Content-Transfer-Encoding" "8bit" ]
    None false.

(** *** Inputs that end inside a field *)

(** Spaces and tabs only. *)
Definition all_blank (s : string) : Prop :=
  forall k c, String.get k s = Some c -> is_blank c = true.

(** The input ends inside a field name, or after the colon and the blanks
    that follow it. *)
Definition truncated_field (tail : string) : Prop :=
  is_token tail
  \/ exists name blanks,
       tail = name +:+ ":" +:+ blanks /\ is_token name /\ all_blank blanks.

(** ** Outcomes *)

Lemma bind_Ok {A B : Type} (r : result A) (k : A -> result B) (b : B) :
  bind r k = Ok b -> exists a, r = Ok a /\ k a = Ok b.
Proof. destruct r; simpl; [eauto | discriminate..]. Qed.

Tactic Notation "bind_inv" hyp(H) ident(x) ident(Hx) :=
  apply bind_Ok in H as [x [Hx H]]; cbv beta zeta in H.

Lemma terminates_bind {A B : Type} (r : result A) (k : A -> result B) :
  terminates r -> (forall a, r = Ok a -> terminates (k a)) -> terminates (bind r k).
Proof. unfold terminates. destruct r; simpl; auto. Qed.

Lemma terminates_Ok {A : Type} (a : A) : terminates (Ok a).
Proof. discriminate. Qed.

Lemma terminates_Panic {A : Type} : terminates (@Panic A).
Proof. discriminate. Qed.

Lemma terminates_andr (a b : result bool) :
  terminates a -> terminates b -> terminates (a &&& b).
Proof.
  intros Ha Hb. apply terminates_bind; [assumption|].
  intros [] _; [assumption | apply terminates_Ok].
Qed.

Lemma terminates_orr (a b : result bool) :
  terminates a -> terminates b -> terminates (a ||| b).
Proof.
  intros Ha Hb. apply terminates_bind; [assumption|].
  intros [] _; [apply terminates_Ok | assumption].
Qed.

Lemma get_ge (s : string) (k : nat) : String.length s <= k -> String.get k s = None.
Proof.
  revert k. induction s as [|c s IH]; intros k Hk; [reflexivity|].
  destruct k as [|k]; simpl in *; [lia | apply IH; lia].
Qed.

Lemma byte_at_ge (s : string) (k : nat) : String.length s <= k -> byte_at s k = Panic.
Proof. intros Hk. unfold byte_at. now rewrite get_ge. Qed.

Lemma terminates_byte_at (s : string) (k : nat) : terminates (byte_at s k).
Proof. unfold byte_at. destruct (String.get k s); discriminate. Qed.

Lemma terminates_test_byte (s : string) (k : nat) (p : ascii -> bool) :
  terminates (test_byte s k p).
Proof.
  apply terminates_bind; [apply terminates_byte_at | intros; apply terminates_Ok].
Qed.

Lemma terminates_slice (s : string) (i j : nat) : terminates (slice s i j).
Proof. unfold slice. destruct (_ && _); discriminate. Qed.

Create HintDb term.
#[local] Hint Resolve terminates_Ok terminates_Panic terminates_andr terminates_orr
  terminates_byte_at terminates_test_byte terminates_slice : term.

(** ** The scanning loops *)

Lemma scan_Ok (fuel : nat) (cond : nat -> result bool) (i j : nat) :
  scan fuel cond i = Ok j ->
  i <= j /\ cond j = Ok false /\ forall k, i <= k < j -> cond k = Ok true.
Proof.
  revert i. induction fuel as [|fuel IH]; intros i H; [discriminate|].
  simpl in H. apply bind_Ok in H as [b [Hb H]]. destruct b.
  - apply IH in H as (Hle & Hj & Hk). repeat split; [lia | assumption |].
    intros k Hik. destruct (decide (k = i)) as [->|]; [assumption | apply Hk; lia].
  - injection H as <-. repeat split; [lia | assumption | intros; lia].
Qed.

Lemma terminates_scan (fuel : nat) (cond : nat -> result bool) (i bound : nat) :
  (forall k, terminates (cond k)) ->
  (forall k, bound <= k -> cond k <> Ok true) ->
  0 < fuel -> bound < fuel + i ->
  terminates (scan fuel cond i).
Proof.
  intros Hterm Hstop. revert i.
  induction fuel as [|fuel IH]; intros i Hpos Hfuel; [lia|].
  simpl. apply terminates_bind; [apply Hterm|].
  intros [] Hb; [|apply terminates_Ok].
  assert (i < bound) by (destruct (decide (i < bound)); [assumption|];
                         exfalso; apply (Hstop i); [lia | assumption]).
  apply IH; lia.
Qed.

(** ** Termination of [ReadHeader] *)

Section ParserFacts.

Variable simplify : string -> string.
Variable NewHeaderField : nat -> string -> string -> Field.t.

Lemma terminates_token_cond (s : string) (k : nat) :
  terminates (token_cond s (String.length s) k).
Proof. unfold token_cond, not_byte. auto 10 with term. Qed.

Lemma terminates_line_cond (s : string) (k : nat) :
  terminates (line_cond s (String.length s) k).
Proof. unfold line_cond, not_byte. auto 10 with term. Qed.

Lemma terminates_blank_cond (s : string) (k : nat) : terminates (blank_cond s k).
Proof. unfold blank_cond, is_byte. auto 10 with term. Qed.

Lemma terminates_value_cond (s : string) (k : nat) :
  terminates (value_cond s (String.length s) k).
Proof. unfold value_cond, is_byte, not_byte. auto 10 with term. Qed.

Lemma guarded_stops (s : string) (k : nat) (r : result bool) :
  String.length s <= k -> Ok (k <? String.length s) &&& r <> Ok true.
Proof.
  intros Hk. replace (k <? String.length s) with false
    by (symmetry; apply Nat.ltb_ge; assumption).
  discriminate.
Qed.

Lemma token_cond_stops (s : string) (k : nat) :
  String.length s <= k -> token_cond s (String.length s) k <> Ok true.
Proof.
  intros Hk. unfold token_cond.
  replace (k <? String.length s) with false
    by (symmetry; apply Nat.ltb_ge; assumption).
  discriminate.
Qed.

Lemma line_cond_stops (s : string) (k : nat) :
  String.length s <= k -> line_cond s (String.length s) k <> Ok true.
Proof.
  intros Hk. unfold line_cond.
  replace (k <? String.length s) with false
    by (symmetry; apply Nat.ltb_ge; assumption).
  discriminate.
Qed.

Lemma value_cond_stops (s : string) (k : nat) :
  String.length s <= k -> value_cond s (String.length s) k <> Ok true.
Proof. intros Hk. unfold value_cond. now apply guarded_stops. Qed.

Lemma blank_cond_stops (s : string) (k : nat) :
  String.length s <= k -> blank_cond s k <> Ok true.
Proof.
  intros Hk. unfold blank_cond, is_byte, test_byte.
  rewrite byte_at_ge by assumption. discriminate.
Qed.

Lemma is_byte_stops (s : string) (c : ascii) (k : nat) :
  String.length s <= k -> is_byte s k c <> Ok true.
Proof.
  intros Hk. unfold is_byte, test_byte.
  rewrite byte_at_ge by assumption. discriminate.
Qed.

(** Each of the five inner loops stops within the fuel [ReadHeader_iter]
    gives it, wherever it starts. *)
Lemma terminates_scan_string (s : string) (cond : nat -> result bool) (i : nat) :
  (forall k, terminates (cond k)) ->
  (forall k, String.length s <= k -> cond k <> Ok true) ->
  terminates (scan (S (String.length s)) cond i).
Proof. intros Ht Hs. apply terminates_scan with (bound := String.length s); auto; lia. Qed.

Lemma terminates_ReadHeader_iter (s : string) (m : HeaderMode) (st : nat * bool * Header) :
  terminates (ReadHeader_iter simplify NewHeaderField s m st).
Proof.
  destruct st as [[i done] h]. unfold ReadHeader_iter.
  apply terminates_bind; [unfold is_byte; auto 10 with term|]. intros bom _.
  apply terminates_bind.
  { apply terminates_scan_string;
      [apply terminates_token_cond | apply token_cond_stops]. }
  intros j _.
  apply terminates_bind.
  { repeat apply terminates_andr; auto with term.
    apply terminates_bind; auto with term. }
  intros [] _.
  - apply terminates_bind.
    { apply terminates_scan_string;
        [apply terminates_line_cond | apply line_cond_stops]. }
    intros i1 _. apply terminates_bind.
    { apply terminates_scan_string;
        [intros; unfold is_byte; auto with term | apply is_byte_stops]. }
    intros i2 _. apply terminates_bind; [unfold is_byte; auto with term|].
    intros; apply terminates_Ok.
  - apply terminates_bind; [unfold is_byte; auto with term|].
    intros [] _; [|apply terminates_Ok].
    apply terminates_bind; [auto with term|]. intros name _.
    apply terminates_bind.
    { apply terminates_scan_string;
        [apply terminates_blank_cond | apply blank_cond_stops]. }
    intros i1 _. apply terminates_bind.
    { apply terminates_scan_string;
        [apply terminates_value_cond | apply value_cond_stops]. }
    intros j1 _. apply terminates_bind; [unfold is_byte; auto with term|].
    intros cr _. apply terminates_bind; [auto with term|]. intros value _.
    apply terminates_bind; [unfold is_byte; auto 10 with term|].
    intros; apply terminates_Ok.
Qed.

Lemma andr_true (a b : result bool) :
  a &&& b = Ok true -> a = Ok true /\ b = Ok true.
Proof.
  unfold andr. intros H. apply bind_Ok in H as [[] [Ha H]]; [auto | discriminate].
Qed.

(** A byte of a token is neither a carriage return nor a line feed. *)
Lemma token_cond_line_cond (s : string) (k : nat) :
  token_cond s (String.length s) k = Ok true ->
  line_cond s (String.length s) k = Ok true.
Proof.
  unfold token_cond, line_cond, not_byte, test_byte, byte_at.
  destruct (k <? String.length s); [|discriminate].
  destruct (String.get k s) as [c|]; [|discriminate].
  cbn [andr bind]. intros H.
  destruct (33 <=? nat_of_ascii c) eqn:Hc; [|discriminate].
  destruct (Ascii.eqb_spec c CR) as [->|]; [discriminate|].
  destruct (Ascii.eqb_spec c LF) as [->|]; [discriminate|].
  reflexivity.
Qed.

(** A turn of the loop that does not set [done] moves [i] forward, and a
    turn that starts at the end of the input sets [done]. *)
Lemma ReadHeader_iter_progress (s : string) (m : HeaderMode)
    (i i' : nat) (done done' : bool) (h h' : Header) :
  ReadHeader_iter simplify NewHeaderField s m (i, done, h) = Ok (i', done', h') ->
  (String.length s <= i -> done' = true) /\ (done' = true \/ i < i').
Proof.
  unfold ReadHeader_iter. cbv beta iota zeta. intros H.
  bind_inv H bom Hbom. bind_inv H j Hj. bind_inv H mbox Hmbox.
  apply scan_Ok in Hj as (Hij & _ & Htok).
  assert (Hi0 : i <= (if bom then i + 3 else i)) by (destruct bom; lia).
  assert (Hdone : String.length s <= i ->
                  (if String.length s <=? i then true else done) = true).
  { intros Hle. apply Nat.leb_le in Hle. now rewrite Hle. }
  destruct mbox.
  - bind_inv H i1 Hi1. bind_inv H i2 Hi2. bind_inv H lf Hlf.
    injection H as <- <- <-. split; [assumption|]. right.
    apply andr_true in Hmbox as [Hmbox _]. apply andr_true in Hmbox as [Hj4 _].
    injection Hj4 as Hj4. apply Nat.eqb_eq in Hj4.
    apply scan_Ok in Hi1 as (Hi1 & Hstop & _).
    apply scan_Ok in Hi2 as (Hi2 & _ & _).
    assert (Hline : line_cond s (String.length s) (if bom then i + 3 else i) = Ok true)
      by (apply token_cond_line_cond, Htok; lia).
    assert ((if bom then i + 3 else i) <> i1) by congruence.
    destruct lf; lia.
  - bind_inv H fld Hfld. destruct fld.
    + bind_inv H name Hname. bind_inv H i1 Hi1. bind_inv H j1 Hj1.
      bind_inv H cr Hcr. bind_inv H value Hvalue. bind_inv H crlf Hcrlf.
      injection H as <- <- _. split; [assumption|]. right.
      apply andr_true in Hfld as [Hlt _]. injection Hlt as Hlt.
      apply Nat.ltb_lt in Hlt.
      apply scan_Ok in Hi1 as (Hi1 & _ & _).
      apply scan_Ok in Hj1 as (Hj1 & _ & _).
      destruct cr, crlf; lia.
    + injection H as _ <- _. auto.
Qed.

Lemma terminates_ReadHeader_loop (fuel : nat) (s : string) (m : HeaderMode)
    (i : nat) (done : bool) (h : Header) :
  done = true \/ (0 < fuel /\ String.length s < fuel + i) ->
  terminates (ReadHeader_loop simplify NewHeaderField fuel s m (i, done, h)).
Proof.
  revert i done h. induction fuel as [|fuel IH]; intros i done h Hfuel.
  - destruct Hfuel as [->|[? _]]; [apply terminates_Ok | lia].
  - cbn [ReadHeader_loop]. destruct done; [apply terminates_Ok|].
    destruct Hfuel as [|[_ Hfuel]]; [discriminate|].
    apply terminates_bind; [apply terminates_ReadHeader_iter|].
    intros [[i' done'] h'] Hiter.
    apply ReadHeader_iter_progress in Hiter as [Hend Hstep].
    apply IH. destruct done'; [auto|]. right.
    destruct Hstep as [|Hstep]; [discriminate|].
    destruct (decide (String.length s <= i)) as [Hle|]; [|lia].
    apply Hend in Hle. discriminate.
Qed.

(** [ReadHeader] never needs more turns than it is given. *)
Lemma terminates_ReadHeader (s : string) (m : HeaderMode) :
  terminates (ReadHeader simplify NewHeaderField s m).
Proof.
  unfold ReadHeader. apply terminates_bind; [|intros; apply terminates_Ok].
  apply terminates_ReadHeader_loop. right. lia.
Qed.

(** *** The parser against the unfiltered scan *)

Lemma filtered_Add (hall h : Header) (name value : string) :
  filtered simplify NewHeaderField hall h ->
  filtered simplify NewHeaderField
           (Add hall (unstructured (length (Fields hall)) name value))
           (if kept simplify (name, value)
            then Add h (NewHeaderField (length (Fields h)) name value)
            else h).
Proof.
  unfold filtered, allocate, pairs_of. intros Hh. cbn [Add Fields].
  rewrite map_app, List.filter_app. cbn [map List.filter unstructured Field.Name Field.rfc822].
  destruct (kept simplify (name, value)).
  - cbn [Add Fields]. rewrite imap_app. cbn [imap]. rewrite Nat.add_0_r.
    rewrite Hh at 2. rewrite Hh, length_imap. reflexivity.
  - now rewrite app_nil_r.
Qed.

Lemma ReadHeader_iter_filtered (s : string) (m : HeaderMode) (i : nat) (done : bool)
    (hall h : Header) :
  filtered simplify NewHeaderField hall h ->
  match ReadHeader_iter (fun _ => "x") unstructured s m (i, done, hall) with
  | Ok (i', done', hall') =>
      exists h', ReadHeader_iter simplify NewHeaderField s m (i, done, h)
                 = Ok (i', done', h') /\ filtered simplify NewHeaderField hall' h'
  | Panic => ReadHeader_iter simplify NewHeaderField s m (i, done, h) = Panic
  | Timeout => ReadHeader_iter simplify NewHeaderField s m (i, done, h) = Timeout
  end.
Proof.
  intros Hh. unfold ReadHeader_iter. cbv beta iota zeta.
  repeat
    (match goal with
     | |- context [bind ?r _] => destruct r as [?| |]
     end; cbn [bind]; cbv beta zeta; try reflexivity;
     try match goal with
       | |- context [if ?b then bind _ _ else _] => destruct b
       end).
  - eauto.
  - eexists. split; [reflexivity|].
    change (negb (String.eqb "x" "")) with true. cbn [orb].
    match goal with
    | |- filtered _ _ (Add _ (unstructured _ ?n ?v)) (if ?b then _ else _) =>
        change b with (kept simplify (n, v))
    end.
    now apply filtered_Add.
  - eauto.
Qed.

Lemma ReadHeader_loop_filtered (fuel : nat) (s : string) (m : HeaderMode) (i : nat)
    (done : bool) (hall h : Header) :
  filtered simplify NewHeaderField hall h ->
  match ReadHeader_loop (fun _ => "x") unstructured fuel s m (i, done, hall) with
  | Ok hall' =>
      exists h', ReadHeader_loop simplify NewHeaderField fuel s m (i, done, h) = Ok h'
                 /\ filtered simplify NewHeaderField hall' h'
  | Panic => ReadHeader_loop simplify NewHeaderField fuel s m (i, done, h) = Panic
  | Timeout => ReadHeader_loop simplify NewHeaderField fuel s m (i, done, h) = Timeout
  end.
Proof.
  revert i done hall h. induction fuel as [|fuel IH]; intros i done hall h Hh.
  - cbn [ReadHeader_loop]. destruct done; eauto.
  - cbn [ReadHeader_loop]. destruct done; [eauto|].
    pose proof (ReadHeader_iter_filtered s m i false hall h Hh) as Hiter.
    destruct (ReadHeader_iter (fun _ => "x") unstructured s m (i, false, hall))
      as [[[i' done'] hall']| |].
    + destruct Hiter as (h' & -> & Hh'). cbn [bind]. now apply IH.
    + now rewrite Hiter.
    + now rewrite Hiter.
Qed.

End ParserFacts.

(** ** Properties of the parser *)

(** C1 (fails on the code): [ReadHeader] is not total.  It reads
    [rfc5322[i]] without a bound check on lines 45, 49, 55 and 59, so it
    panics on an input that ends right after the colon of a field name, on
    one that ends inside a token, on one that ends in the bare mbox token
    "From", and on an mbox line that no line feed terminates. *)
Theorem ReadHeader_panics_on_truncated_input
    (simplify : string -> string)
    (NewHeaderField : nat -> string -> string -> Field.t) :
  (forall m, ReadHeader simplify NewHeaderField truncated_name m = Panic)
  /\ (forall m, ReadHeader simplify NewHeaderField truncated_token m = Panic)
  /\ ReadHeader simplify NewHeaderField truncated_mbox_token Rfc5322Header = Panic
  /\ ReadHeader simplify NewHeaderField unterminated_mbox_line Rfc5322Header = Panic
  /\ ReadHeader simplify NewHeaderField mbox_line_ending_in_cr Rfc5322Header = Panic.
Proof.
  repeat split; try intros []; reflexivity.
Qed.

(** C9: [ReadHeader] appends a parsed (name, value) pair exactly when the
    simplified value is not empty or the lower-cased name starts with "x-":
    its fields are the objects built, in order, for the parsed pairs that
    pass that test, and it panics exactly when the scan of the pairs does.
    With a [simplify] that maps the empty string to itself, the empty field
    "X-Anything" is kept and the empty field "Subject" is dropped. *)
Theorem ReadHeader_keeps_nonempty_or_extension
    (simplify : string -> string)
    (NewHeaderField : nat -> string -> string -> Field.t) :
  (forall s m,
     match parsed_pairs s m with
     | Ok pairs =>
         exists h, ReadHeader simplify NewHeaderField s m = Ok (h, None)
                   /\ Fields h = allocate NewHeaderField
                                   (List.filter (kept simplify) pairs)
     | Panic => ReadHeader simplify NewHeaderField s m = Panic
     | Timeout => False
     end)
  /\ (simplify "" = "" ->
      forall m,
        parsed_pairs extension_example m = Ok [("X-Anything", ""); ("Subject", "")]
        /\ exists h, ReadHeader simplify NewHeaderField extension_example m = Ok (h, None)
                     /\ Fields h = [NewHeaderField 0 "X-Anything" ""]).
Proof.
  assert (Hgen : forall s m,
     match parsed_pairs s m with
     | Ok pairs =>
         exists h, ReadHeader simplify NewHeaderField s m = Ok (h, None)
                   /\ Fields h = allocate NewHeaderField
                                   (List.filter (kept simplify) pairs)
     | Panic => ReadHeader simplify NewHeaderField s m = Panic
     | Timeout => False
     end).
  { intros s m. unfold parsed_pairs.
    pose proof (terminates_ReadHeader (fun _ => "x") unstructured s m) as Hterm.
    unfold ReadHeader in *.
    pose proof (ReadHeader_loop_filtered simplify NewHeaderField
                  (S (String.length s)) s m 0 false
                  (mkHeader m [] None false) (mkHeader m [] None false) eq_refl) as Hsim.
    destruct (ReadHeader_loop (fun _ => "x") unstructured _ s m _) as [hall| |].
    - destruct Hsim as (h & -> & Hh). cbn [bind]. eauto.
    - cbn [bind]. now rewrite Hsim.
    - now apply Hterm. }
  split; [exact Hgen|].
  intros Hempty m.
  assert (Hpairs : parsed_pairs extension_example m
                   = Ok [("X-Anything", ""); ("Subject", "")])
    by (destruct m; reflexivity).
  split; [exact Hpairs|].
  specialize (Hgen extension_example m). rewrite Hpairs in Hgen.
  destruct Hgen as (h & Hh & Hfields). exists h. split; [exact Hh|].
  rewrite Hfields. unfold kept. cbn [List.filter fst snd].
  rewrite Hempty. reflexivity.
Qed.

(** C9, at the reference [simplify] and the generic field. *)
Lemma ReadHeader_keeps_nonempty_or_extension_witness :
  simplify_spec "" = ""
  /\ exists h, ReadHeader simplify_spec unstructured extension_example MimeHeader
               = Ok (h, None)
               /\ Fields h = [unstructured 0 "X-Anything" ""].
Proof.
  split; [reflexivity|].
  exact (proj2 (proj2 (ReadHeader_keeps_nonempty_or_extension simplify_spec unstructured)
                  eq_refl MimeHeader)).
Defined.

(** C10: whenever [ReadHeader] returns, its error result is nil; and it
    always comes to an end, by returning or by panicking. *)
Theorem ReadHeader_error_is_nil
    (simplify : string -> string)
    (NewHeaderField : nat -> string -> string -> Field.t)
    (s : string) (m : HeaderMode) :
  terminates (ReadHeader simplify NewHeaderField s m)
  /\ forall (h : Header) (e : option string),
       ReadHeader simplify NewHeaderField s m = Ok (h, e) -> e = None.
Proof.
  split; [apply terminates_ReadHeader|].
  unfold ReadHeader. intros h e H. bind_inv H h' Hh'. now injection H as _ <-.
Qed.

(** C10, on a header of one field. *)
Lemma ReadHeader_error_is_nil_witness :
  ReadHeader simplify_spec unstructured subject_example Rfc5322Header
  = Ok (mkHeader Rfc5322Header [unstructured 0 "Subject" "hello"] None false, None)
  /\ (None : option string) = None.
Proof.
  split; [reflexivity|].
  exact (proj2 (ReadHeader_error_is_nil simplify_spec unstructured subject_example
                  Rfc5322Header)
           (mkHeader Rfc5322Header [unstructured 0 "Subject" "hello"] None false)
           None eq_refl).
Defined.

(** ** The removal loops *)

Lemma remove_loop_filter (cond : Field.t -> bool) (suf pre : list Field.t) (fuel : nat) :
  length suf < fuel ->
  remove_loop fuel cond (length pre) (pre ++ suf)
  = Ok (pre ++ List.filter (fun f => negb (cond f)) suf).
Proof.
  revert pre fuel. induction suf as [|f suf IH]; intros pre [|fuel] Hfuel;
    try (simpl in Hfuel; lia); cbn [remove_loop].
  - rewrite lookup_ge_None_2 by (rewrite length_app; simpl; lia). reflexivity.
  - rewrite list_lookup_middle by reflexivity. cbn [List.filter].
    destruct (cond f); cbn [negb].
    + unfold RemoveAt. rewrite delete_middle. apply IH. simpl in Hfuel. lia.
    + replace (S (length pre)) with (length (pre ++ [f]))
        by (rewrite length_app; simpl; lia).
      rewrite (cons_middle f pre suf), app_assoc, IH by (simpl in Hfuel; lia).
      now rewrite <- app_assoc.
Qed.

Lemma remove_loop_all (cond : Field.t -> bool) (fs : list Field.t) :
  remove_loop (S (length fs)) cond 0 fs
  = Ok (List.filter (fun f => negb (cond f)) fs).
Proof. apply (remove_loop_filter cond fs []). lia. Qed.

Lemma collapse_loop_seen (fn : string) (f0 : Field.t) (suf pre : list Field.t)
    (fuel n : nat) :
  length suf < fuel ->
  collapse_loop fuel fn (Some f0) (length pre) (S n) (pre ++ suf)
  = Ok (pre ++ List.filter (fun g => negb (copy_of fn f0 g)) suf).
Proof.
  revert pre fuel n. induction suf as [|f suf IH]; intros pre [|fuel] n Hfuel;
    try (simpl in Hfuel; lia); cbn [collapse_loop].
  - rewrite lookup_ge_None_2 by (rewrite length_app; simpl; lia). reflexivity.
  - rewrite list_lookup_middle by reflexivity. cbn [List.filter]. unfold copy_of at 1.
    assert (Hnext : forall k,
              collapse_loop fuel fn (Some f0) (S (length pre)) (S k) (pre ++ f :: suf)
              = Ok (pre ++ f :: List.filter (fun g => negb (copy_of fn f0 g)) suf)).
    { intros k. replace (S (length pre)) with (length (pre ++ [f]))
        by (rewrite length_app; simpl; lia).
      rewrite (cons_middle f pre suf), app_assoc, IH by (simpl in Hfuel; lia).
      now rewrite <- app_assoc. }
    destruct (String.eqb (Field.Name f) fn); cbn [andb negb]; [|apply Hnext].
    change (1 <? S (S n)) with true. cbn [andr bind].
    destruct (String.eqb (Field.rfc822 f0) (Field.rfc822 f)); cbn [negb].
    + unfold RemoveAt. rewrite delete_middle. apply IH. simpl in Hfuel. lia.
    + apply Hnext.
Qed.

Lemma collapse_loop_fresh (fn : string) (suf pre : list Field.t) (fuel : nat) :
  length suf < fuel ->
  collapse_loop fuel fn (field_of suf fn 0) (length pre) 0 (pre ++ suf)
  = Ok (pre ++ collapsed fn suf).
Proof.
  revert pre fuel. induction suf as [|f suf IH]; intros pre [|fuel] Hfuel;
    try (simpl in Hfuel; lia); cbn [collapse_loop].
  - rewrite lookup_ge_None_2 by (rewrite length_app; simpl; lia). reflexivity.
  - rewrite list_lookup_middle by reflexivity. cbn [collapsed field_of].
    replace (S (length pre)) with (length (pre ++ [f]))
      by (rewrite length_app; simpl; lia).
    rewrite (cons_middle f pre suf), app_assoc.
    destruct (String.eqb (Field.Name f) fn).
    + change (1 <? 1) with false. cbn [andr bind].
      rewrite collapse_loop_seen by (simpl in Hfuel; lia).
      now rewrite <- app_assoc.
    + rewrite IH by (simpl in Hfuel; lia). now rewrite <- app_assoc.
Qed.

Lemma collapse_loop_all (fn : string) (fs : list Field.t) :
  collapse_loop (S (length fs)) fn (field_of fs fn 0) 0 0 fs = Ok (collapsed fn fs).
Proof. apply (collapse_loop_fresh fn fs []). lia. Qed.

(** ** Occurrences of a name *)

Lemma named_filter (fn : string) (p : Field.t -> bool) (fs : list Field.t) :
  named fn (List.filter p fs) = List.filter p (named fn fs).
Proof.
  unfold named. induction fs as [|f fs IH]; [reflexivity|]. cbn [List.filter].
  destruct (p f) eqn:Hp, (String.eqb (Field.Name f) fn) eqn:Hf;
    cbn [List.filter]; rewrite ?Hp, ?Hf, IH; reflexivity.
Qed.

(** A filter that only rejects fields named [fn'] keeps every other name. *)
Lemma named_filter_other (fn fn' : string) (p : Field.t -> bool) (fs : list Field.t) :
  fn <> fn' ->
  (forall f, p f = false -> Field.Name f = fn') ->
  named fn (List.filter p fs) = named fn fs.
Proof.
  intros Hne Hp. unfold named. induction fs as [|f fs IH]; [reflexivity|].
  cbn [List.filter]. destruct (p f) eqn:Hpf; cbn [List.filter]; rewrite IH; [reflexivity|].
  apply Hp in Hpf. destruct (String.eqb_spec (Field.Name f) fn); [congruence | reflexivity].
Qed.

Lemma named_RemoveAllNamed (fn fn' : string) (fs : list Field.t) :
  fn <> fn' -> named fn (RemoveAllNamed fs fn') = named fn fs.
Proof.
  intros Hne. apply named_filter_other with (fn' := fn'); [assumption|].
  intros f Hf. apply negb_false_iff in Hf. now apply String.eqb_eq.
Qed.

Lemma field_of_named (fn : string) (fs : list Field.t) (n : nat) :
  field_of fs fn n = named fn fs !! n.
Proof.
  revert n. unfold named. induction fs as [|f fs IH]; intros n; [reflexivity|].
  cbn [field_of List.filter]. destruct (String.eqb (Field.Name f) fn); [|apply IH].
  destruct n; [reflexivity | apply IH].
Qed.

Lemma count_of_insert (occ : gmap string nat) (k fn : string) (n : nat) :
  count_of (<[k := n]> occ) fn = if String.eqb k fn then n else count_of occ fn.
Proof.
  unfold count_of. destruct (String.eqb_spec k fn) as [->|Hne].
  - now rewrite lookup_insert_eq.
  - now rewrite lookup_insert_ne.
Qed.

Lemma count_of_foldl (fn : string) (fs : list Field.t) (occ : gmap string nat) :
  count_of (foldl (fun occ f => <[Field.Name f := S (count_of occ (Field.Name f))]> occ)
                  occ fs) fn
  = count_of occ fn + length (named fn fs).
Proof.
  revert occ. unfold named. induction fs as [|f fs IH]; intros occ; [simpl; lia|].
  cbn [foldl List.filter]. rewrite IH, count_of_insert.
  destruct (String.eqb_spec (Field.Name f) fn) as [->|]; simpl; lia.
Qed.

(** The tally of [Verify] and [Repair] counts the fields of each name. *)
Lemma count_of_occurrences (fn : string) (fs : list Field.t) :
  count_of (occurrences_of fs) fn = length (named fn fs).
Proof. unfold occurrences_of. now rewrite count_of_foldl. Qed.

(** ** Exact-duplicate collapse *)

Lemma filter_copy_of_named (fn : string) (f : Field.t) (fs : list Field.t) :
  List.filter (fun g => negb (copy_of fn f g)) (named fn fs)
  = List.filter (fun g => negb (String.eqb (Field.rfc822 f) (Field.rfc822 g)))
                (named fn fs).
Proof.
  unfold named. induction fs as [|g fs IH]; [reflexivity|]. cbn [List.filter].
  destruct (String.eqb (Field.Name g) fn) eqn:Hg; [|assumption].
  cbn [List.filter]. unfold copy_of at 1. rewrite Hg. cbn [andb].
  now rewrite IH.
Qed.

Lemma named_collapsed_same (fn : string) (fs : list Field.t) :
  named fn (collapsed fn fs) = without_copies (named fn fs).
Proof.
  induction fs as [|f fs IH]; [reflexivity|]. cbn [collapsed].
  destruct (String.eqb (Field.Name f) fn) eqn:Hf.
  - unfold named at 1 2. cbn [List.filter]. rewrite Hf. cbn [without_copies]. f_equal.
    fold (named fn (List.filter (fun g => negb (copy_of fn f g)) fs)).
    fold (named fn fs). rewrite named_filter. apply filter_copy_of_named.
  - unfold named at 1 2. cbn [List.filter]. rewrite Hf. apply IH.
Qed.

Lemma named_collapsed_other (fn fn' : string) (fs : list Field.t) :
  fn <> fn' -> named fn (collapsed fn' fs) = named fn fs.
Proof.
  intros Hne. induction fs as [|f fs IH]; [reflexivity|]. cbn [collapsed].
  destruct (String.eqb (Field.Name f) fn') eqn:Hf.
  - unfold named at 1 2. cbn [List.filter].
    fold (named fn (List.filter (fun g => negb (copy_of fn' f g)) fs)). fold (named fn fs).
    assert (Hrest : named fn (List.filter (fun g => negb (copy_of fn' f g)) fs)
                    = named fn fs).
    { apply named_filter_other with (fn' := fn'); [assumption|].
      intros g Hg. apply negb_false_iff, andb_true_iff in Hg as [Hg _].
      now apply String.eqb_eq. }
    now rewrite Hrest.
  - unfold named at 1 2. cbn [List.filter].
    fold (named fn (collapsed fn' fs)). fold (named fn fs). now rewrite IH.
Qed.

Lemma without_copies_idem (occs : list Field.t) :
  without_copies (without_copies occs) = without_copies occs.
Proof.
  destruct occs as [|f rest]; [reflexivity|]. cbn [without_copies]. f_equal.
  induction rest as [|g rest IH]; [reflexivity|]. cbn [List.filter].
  destruct (negb _) eqn:Hg; [|assumption]. cbn [List.filter]. now rewrite Hg, IH.
Qed.

Lemma collapse_duplicates_named (cs : list HeaderFieldCondition.t)
    (occ : gmap string nat) (h : Header) (fn : string) :
  exists h', collapse_duplicates cs occ h = Ok h'
             /\ mode h' = mode h /\ err h' = err h /\ verified h' = verified h
             /\ named fn (Fields h')
                = if existsb (collapses occ (mode h) fn) cs
                  then without_copies (named fn (Fields h))
                  else named fn (Fields h).
Proof.
  revert h. induction cs as [|c cs IH]; intros h; [exists h; auto|].
  cbn [collapse_duplicates existsb]. unfold collapses at 1.
  destruct (HeaderMode_eqb (HeaderFieldCondition.m c) (mode h)) eqn:Hm; cbn [andb].
  - destruct (HeaderFieldCondition.max c <? count_of occ (HeaderFieldCondition.name c))
      eqn:Hmax.
    + unfold field. rewrite collapse_loop_all. cbn [bind].
      destruct (IH (set_Fields h (collapsed (HeaderFieldCondition.name c) (Fields h))))
        as (h' & -> & Hmode & Herr & Hver & Hnamed).
      exists h'. repeat split; try assumption. rewrite Hnamed. cbn [set_Fields mode Fields].
      destruct (String.eqb_spec (HeaderFieldCondition.name c) fn) as [Heq|Hne].
      * subst fn. rewrite Hmax. cbn [andb orb].
        rewrite named_collapsed_same, without_copies_idem.
        now destruct (existsb _ cs).
      * cbn [andb orb]. now rewrite named_collapsed_other by congruence.
    + cbn [bind]. destruct (IH h) as (h' & -> & Hmode & Herr & Hver & Hnamed).
      exists h'. repeat split; try assumption. rewrite Hnamed.
      destruct (String.eqb_spec (HeaderFieldCondition.name c) fn) as [Heq|Hne];
        [subst fn; rewrite Hmax|]; reflexivity.
  - cbn [bind]. rewrite andb_false_r. cbn [andb orb].
    destruct (IH h) as (h' & -> & Hmode & Herr & Hver & Hnamed).
    exists h'. repeat split; assumption.
Qed.

(** ** The verifier *)

Lemma check_conditions_Some (cs : list HeaderFieldCondition.t) (md : HeaderMode)
    (occ : gmap string nat) (e : string) :
  check_conditions cs md occ (Some e) = Some e.
Proof. destruct cs; reflexivity. Qed.

Lemma check_condition_excess (c : HeaderFieldCondition.t) (md : HeaderMode)
    (occ : gmap string nat) :
  HeaderFieldCondition.max c < count_of occ (HeaderFieldCondition.name c) ->
  exists e, check_condition c md occ = Some e.
Proof.
  intros Hmax. apply Nat.ltb_lt in Hmax. unfold check_condition.
  rewrite Hmax, orb_true_r. eauto.
Qed.

Lemma check_conditions_excess (cs : list HeaderFieldCondition.t) (md : HeaderMode)
    (occ : gmap string nat) (c : HeaderFieldCondition.t) :
  In c cs ->
  HeaderFieldCondition.max c < count_of occ (HeaderFieldCondition.name c) ->
  exists e, check_conditions cs md occ None = Some e.
Proof.
  intros Hin Hmax. induction cs as [|c0 cs IH]; [destruct Hin|].
  cbn [check_conditions].
  destruct (check_condition c0 md occ) as [e|] eqn:Hc0.
  - exists e. apply check_conditions_Some.
  - destruct Hin as [->|Hin]; [|now apply IH].
    destruct (check_condition_excess c md occ Hmax) as [e He]. congruence.
Qed.

(** A header with more fields of a name than some table entry allows, and
    without a cached verdict of validity, is not valid, in either mode. *)
Lemma Valid_excess (h : Header) (c : HeaderFieldCondition.t) :
  (verified h = true -> err h <> None) ->
  In c conditions ->
  HeaderFieldCondition.max c < length (named (HeaderFieldCondition.name c) (Fields h)) ->
  exists h0, Valid h = (false, h0) /\ mode h0 = mode h /\ Fields h0 = Fields h.
Proof.
  intros Hcache Hin Hmax. unfold Valid, Verify.
  destruct (verified h).
  - destruct (err h); [eauto | now elim Hcache].
  - destruct (first_invalid (Fields h)) as [f|]; [eauto|].
    rewrite <- count_of_occurrences in Hmax.
    destruct (check_conditions_excess conditions (mode h) _ c Hin Hmax) as [e ->].
    eauto.
Qed.

(** ** Prefer-first-valid collapse *)

Lemma first_valid_named (fn : string) (fs : list Field.t) :
  first_valid (named fn fs) fn = first_valid fs fn.
Proof.
  unfold named. induction fs as [|f fs IH]; [reflexivity|]. cbn [List.filter first_valid].
  destruct (String.eqb (Field.Name f) fn) eqn:Hf; [|assumption].
  cbn [first_valid andb]. rewrite Hf. cbn [andb]. now rewrite IH.
Qed.

Lemma first_valid_survives (fn : string) (fv : Field.t) (fs : list Field.t) :
  first_valid fs fn = Some fv ->
  first_valid (List.filter (survives fn fv) fs) fn = Some fv.
Proof.
  induction fs as [|f fs IH]; [discriminate|]. cbn [first_valid List.filter].
  destruct (String.eqb (Field.Name f) fn && Field.Valid f) eqn:Hf.
  - intros [= ->]. unfold survives at 1. rewrite Nat.eqb_refl.
    destruct (String.eqb fn ContentTypeFieldName); cbn [orb first_valid]; now rewrite Hf.
  - intros Hfv. destruct (survives fn fv f); [cbn [first_valid]; rewrite Hf|]; auto.
Qed.

Lemma filter_idem (p : Field.t -> bool) (fs : list Field.t) :
  List.filter p (List.filter p fs) = List.filter p fs.
Proof.
  induction fs as [|f fs IH]; [reflexivity|]. cbn [List.filter].
  destruct (p f) eqn:Hp; [cbn [List.filter]; rewrite Hp, IH|]; auto.
Qed.

Lemma first_valid_kept_idem (fn : string) (occs : list Field.t) :
  first_valid_kept fn (first_valid_kept fn occs) = first_valid_kept fn occs.
Proof.
  unfold first_valid_kept at 2 3. destruct (first_valid occs fn) as [fv|] eqn:Hfv.
  - unfold first_valid_kept. rewrite first_valid_survives by assumption.
    apply filter_idem.
  - unfold first_valid_kept. now rewrite Hfv.
Qed.

(** One pass of lines 394-408 is a filter of the field list. *)
Lemma keep_first_valid_filter (fn : string) (h : Header) :
  keep_first_valid fn h
  = Ok (set_Fields h
          (match first_valid (Fields h) fn with
           | Some fv =>
               List.filter
                 (fun f => negb (String.eqb (Field.Name f) fn) || survives fn fv f)
                 (Fields h)
           | None => Fields h
           end)).
Proof.
  unfold keep_first_valid. destruct (first_valid (Fields h) fn) as [fv|].
  - rewrite remove_loop_all. cbn [bind]. do 2 f_equal.
    apply List.filter_ext. intros f. unfold survives.
    destruct (String.eqb (Field.Name f) fn), (Field.ptr f =? Field.ptr fv),
      (String.eqb fn ContentTypeFieldName), (Field.Valid f); reflexivity.
  - now destruct h.
Qed.

Lemma named_keep_same (fn : string) (fv : Field.t) (fs : list Field.t) :
  named fn (List.filter
              (fun f => negb (String.eqb (Field.Name f) fn) || survives fn fv f) fs)
  = List.filter (survives fn fv) (named fn fs).
Proof.
  unfold named. induction fs as [|f fs IH]; [reflexivity|]. cbn [List.filter].
  destruct (String.eqb (Field.Name f) fn) eqn:Hf; cbn [negb orb List.filter].
  - destruct (survives fn fv f); cbn [List.filter]; rewrite ?Hf, IH; reflexivity.
  - now rewrite Hf.
Qed.

Lemma named_keep_other (fn fn' : string) (fv : Field.t) (fs : list Field.t) :
  fn <> fn' ->
  named fn (List.filter
              (fun f => negb (String.eqb (Field.Name f) fn') || survives fn' fv f) fs)
  = named fn fs.
Proof.
  intros Hne. apply named_filter_other with (fn' := fn'); [assumption|].
  intros f Hf. apply orb_false_iff in Hf as [Hf _].
  apply negb_false_iff in Hf. now apply String.eqb_eq.
Qed.

Lemma prefer_first_valid_named (names : list string) (occ : gmap string nat)
    (h : Header) (fn : string) :
  exists h', prefer_first_valid names occ h = Ok h'
             /\ mode h' = mode h /\ err h' = err h /\ verified h' = verified h
             /\ named fn (Fields h')
                = if preferred occ fn names
                  then first_valid_kept fn (named fn (Fields h))
                  else named fn (Fields h).
Proof.
  revert h. induction names as [|fn' names IH]; intros h; [exists h; auto|].
  cbn [prefer_first_valid]. unfold preferred. cbn [existsb]. fold (preferred occ fn names).
  destruct (prefers_first_valid occ fn') eqn:Hguard.
  - rewrite keep_first_valid_filter. cbn [bind].
    match goal with |- context [prefer_first_valid names occ ?h0] =>
      destruct (IH h0) as (h' & -> & Hmode & Herr & Hver & Hnamed) end.
    exists h'. repeat split; try assumption. rewrite Hnamed. cbn [set_Fields Fields].
    destruct (String.eqb_spec fn' fn) as [Heq|Hne]; cbn [andb orb].
    + subst fn'. 
      assert (Hpass : named fn
                (match first_valid (Fields h) fn with
                 | Some fv =>
                     List.filter
                       (fun f => negb (String.eqb (Field.Name f) fn)
                                 || survives fn fv f) (Fields h)
                 | None => Fields h
                 end) = first_valid_kept fn (named fn (Fields h))).
      { unfold first_valid_kept. rewrite first_valid_named.
        destruct (first_valid (Fields h) fn); [apply named_keep_same | reflexivity]. }
      rewrite Hpass, first_valid_kept_idem. now destruct (preferred occ fn names).
    + destruct (first_valid (Fields h) fn');
        [rewrite named_keep_other by congruence|]; reflexivity.
  - cbn [bind]. rewrite andb_false_r. cbn [orb].
    destruct (IH h) as (h' & -> & Hmode & Herr & Hver & Hnamed).
    exists h'. repeat split; assumption.
Qed.

Lemma prefers_first_valid_names (occ : gmap string nat) (fn : string) :
  prefers_first_valid occ fn = true ->
  1 < count_of occ fn
  /\ In fn [ DateFieldName; ReturnPathFieldName; MessageIdFieldName;
             ContentTypeFieldName; ReferencesFieldName ].
Proof.
  unfold prefers_first_valid. intros H. apply andb_true_iff in H as [Hcount Hname].
  split; [now apply Nat.ltb_lt|].
  repeat (apply orb_true_iff in Hname as [Hname|Hname]);
    apply String.eqb_eq in Hname; subst; simpl; auto 10.
Qed.

Lemma none_preferred_guard (occ : gmap string nat) (fn : string) :
  none_preferred occ = true -> prefers_first_valid occ fn = false.
Proof.
  intros Hnone. destruct (prefers_first_valid occ fn) eqn:Hguard; [|reflexivity].
  apply prefers_first_valid_names in Hguard as [Hcount Hin].
  unfold none_preferred in Hnone. rewrite forallb_forall in Hnone.
  apply Hnone, Nat.leb_le in Hin. lia.
Qed.

Lemma prefer_first_valid_skip (names : list string) (occ : gmap string nat) (h : Header) :
  none_preferred occ = true -> prefer_first_valid names occ h = Ok h.
Proof.
  intros Hnone. induction names as [|fn names IH]; [reflexivity|].
  cbn [prefer_first_valid]. now rewrite none_preferred_guard.
Qed.

Lemma filter_same_object (fv : Field.t) (fs : list Field.t) :
  NoDup (map Field.ptr fs) -> In fv fs ->
  List.filter (fun f => Field.ptr f =? Field.ptr fv) fs = [fv].
Proof.
  induction fs as [|f fs IH]; intros Hnd Hin; [destruct Hin|].
  cbn [map] in Hnd. apply NoDup_cons in Hnd as [Hf Hnd]. cbn [List.filter].
  assert (Hnone : forall gs, (forall g, In g gs -> Field.ptr g <> Field.ptr fv) ->
                  List.filter (fun f => Field.ptr f =? Field.ptr fv) gs = []).
  { induction gs as [|g gs IHgs]; intros Hgs; [reflexivity|]. cbn [List.filter].
    destruct (Nat.eqb_spec (Field.ptr g) (Field.ptr fv)) as [Heq|_].
    - exfalso. apply (Hgs g); [left; reflexivity | assumption].
    - apply IHgs. intros g' Hg'. apply Hgs. now right. }
  destruct Hin as [->|Hin].
  - rewrite Nat.eqb_refl. f_equal. apply Hnone. intros g Hg Heq.
    apply Hf. rewrite <- Heq. apply list_elem_of_In, in_map, Hg.
  - destruct (Nat.eqb_spec (Field.ptr f) (Field.ptr fv)) as [Heq|_]; [|now apply IH].
    exfalso. apply Hf. rewrite Heq. apply list_elem_of_In, in_map, Hin.
Qed.

Lemma first_valid_In (fn : string) (fv : Field.t) (fs : list Field.t) :
  first_valid fs fn = Some fv -> In fv fs /\ Field.Name fv = fn /\ Field.Valid fv = true.
Proof.
  induction fs as [|f fs IH]; [discriminate|]. cbn [first_valid].
  destruct (String.eqb (Field.Name f) fn && Field.Valid f) eqn:Hf.
  - intros [= ->]. apply andb_true_iff in Hf as [Hname Hvalid].
    apply String.eqb_eq in Hname. repeat split; [now left | assumption..].
  - intros Hfv. apply IH in Hfv as (Hin & Hname & Hvalid). repeat split; [now right | assumption..].
Qed.

(** *** The step as a whole *)

(** C8: prefer-first-valid collapse.  For a duplicated name [fn] among Date,
    Return-Path, Message-Id, Content-Type and References that the table
    [fieldNames] lists, the step returns, and with a first valid occurrence
    [firstValid] it leaves of the occurrences of [fn] exactly the object
    [firstValid] (for Content-Type: [firstValid] and every valid occurrence),
    in their order; for the other four names that is the single field
    [firstValid] when the fields are distinct objects.  Without a valid
    occurrence, the occurrences of [fn] stay as they are. *)
Theorem prefer_first_valid_collapse (fieldNames : list string)
    (occurrences : gmap string nat) (h : Header) (fn : string) :
  In fn fieldNames ->
  1 < count_of occurrences fn ->
  In fn [ DateFieldName; ReturnPathFieldName; MessageIdFieldName;
          ContentTypeFieldName; ReferencesFieldName ] ->
  exists h', prefer_first_valid fieldNames occurrences h = Ok h'
    /\ match first_valid (Fields h) fn with
       | Some firstValid =>
           named fn (Fields h')
           = List.filter
               (fun f => if String.eqb fn ContentTypeFieldName
                         then (Field.ptr f =? Field.ptr firstValid) || Field.Valid f
                         else Field.ptr f =? Field.ptr firstValid)
               (named fn (Fields h))
           /\ (fn <> ContentTypeFieldName ->
               NoDup (map Field.ptr (Fields h)) ->
               named fn (Fields h') = [firstValid])
       | None => named fn (Fields h') = named fn (Fields h)
       end.
Proof.
  intros Hlisted Hcount Hname.
  destruct (prefer_first_valid_named fieldNames occurrences h fn)
    as (h' & Hrun & _ & _ & _ & Hnamed).
  exists h'. split; [assumption|].
  assert (Hguard : prefers_first_valid occurrences fn = true).
  { unfold prefers_first_valid. apply andb_true_iff. split; [now apply Nat.ltb_lt|].
    cbn [In] in Hname.
    destruct Hname as [<-|[<-|[<-|[<-|[<-|[]]]]]]; reflexivity. }
  assert (Hpref : preferred occurrences fn fieldNames = true).
  { unfold preferred. apply existsb_exists. exists fn.
    split; [assumption|]. now rewrite String.eqb_refl, Hguard. }
  rewrite Hpref in Hnamed. unfold first_valid_kept in Hnamed.
  rewrite first_valid_named in Hnamed.
  destruct (first_valid (Fields h) fn) as [fv|] eqn:Hfv; [|assumption].
  assert (Hfilter : named fn (Fields h')
            = List.filter
                (fun f => if String.eqb fn ContentTypeFieldName
                          then (Field.ptr f =? Field.ptr fv) || Field.Valid f
                          else Field.ptr f =? Field.ptr fv)
                (named fn (Fields h))).
  { rewrite Hnamed. apply List.filter_ext. intros f. unfold survives.
    now destruct (String.eqb fn ContentTypeFieldName). }
  split; [assumption|].
  intros Hct Hnd. rewrite Hfilter.
  apply String.eqb_neq in Hct. rewrite Hct.
  rewrite <- named_filter.
  apply first_valid_In in Hfv as (Hin & Hfn & _).
  rewrite filter_same_object by assumption.
  unfold named. cbn [List.filter]. apply String.eqb_eq in Hfn. now rewrite Hfn.
Qed.

(** C8, on three Date fields of which the first is broken: the first valid
    one alone is left. *)
Lemma prefer_first_valid_collapse_witness :
  exists h',
    prefer_first_valid example_field_names (occurrences_of (Fields three_dates))
                       three_dates = Ok h'
    /\ named DateFieldName (Fields h')
       = [unstructured 1 "Date" "Mon, 1 Jan 2024 00:00:00 +0000"].
Proof.
  destruct (prefer_first_valid_collapse example_field_names
              (occurrences_of (Fields three_dates)) three_dates DateFieldName)
    as (h' & Hrun & _ & Hone).
  - simpl. tauto.
  - vm_compute. lia.
  - simpl. tauto.
  - exists h'. split; [exact Hrun|]. apply Hone; [discriminate|].
    vm_compute.
    repeat (apply NoDup_cons_2;
            [intros Hin;
             repeat (apply elem_of_cons in Hin as [Hin|Hin]; [discriminate|]);
             now apply elem_of_nil in Hin|]).
    apply NoDup_nil_2.
Defined.

(** ** The other steps of [Repair] *)

Lemma named_length_le (fn : string) (fs : list Field.t) :
  length (named fn fs) <= length fs.
Proof. apply List.filter_length_le. Qed.

Lemma field_Some_lt (h : Header) (fn : string) (n : nat) (f : Field.t) :
  field h fn n = Some f -> n < length (Fields h).
Proof.
  unfold field. rewrite field_of_named. intros Hf. apply lookup_lt_Some in Hf.
  pose proof (named_length_le fn (Fields h)). lia.
Qed.

Lemma terminates_content_type_loop (fuel : nat) (h : Header) (ct : Field.t)
    (other good : option Field.t) (n : nat) (bad : bool) :
  (forall o, other = Some o -> n < length (Fields h)) ->
  length (Fields h) < fuel + n ->
  terminates (content_type_loop fuel h ct other good n bad).
Proof.
  revert other good n bad.
  induction fuel as [|fuel IH]; intros other good n bad Hother Hfuel.
  - destruct other as [o|]; [|apply terminates_Ok].
    specialize (Hother o eq_refl). lia.
  - cbn [content_type_loop]. destruct other as [o|]; [|apply terminates_Ok].
    destruct bad; [apply terminates_Ok|].
    destruct (if negb (String.eqb (ct_Type o) (ct_Type ct))
                 || negb (String.eqb (ct_Subtype o) (ct_Subtype ct))
              then (good, true)
              else if 0 <? length (ct_Parameters o)
              then (Some o, match good with Some _ => true | None => false end)
              else (good, false)) as [good' bad'].
    apply terminates_bind.
    + destruct (field h ContentTypeFieldName (S n)) as [tmp|]; [|apply terminates_Ok].
      destruct (Field.data tmp); auto with term.
    + intros other' Hother'. apply IH; [|lia].
      intros o' ->.
      destruct (field h ContentTypeFieldName (S n)) as [tmp|] eqn:Htmp; [|discriminate].
      now apply field_Some_lt in Htmp.
Qed.

Lemma terminates_ContentType_of (h : Header) : terminates (ContentType_of h).
Proof.
  unfold ContentType_of. destruct (field h ContentTypeFieldName 0) as [f|];
    [destruct (Field.data f)|]; auto with term.
Qed.

(** Step 2 comes to an end and touches Content-Type fields only. *)
Lemma consolidate_content_type_named (occ : gmap string nat) (h : Header) (fn : string) :
  terminates (consolidate_content_type occ h)
  /\ forall h', consolidate_content_type occ h = Ok h' ->
       mode h' = mode h /\ err h' = err h /\ verified h' = verified h
       /\ (fn <> ContentTypeFieldName -> named fn (Fields h') = named fn (Fields h)).
Proof.
  unfold consolidate_content_type.
  destruct (1 <? count_of occ ContentTypeFieldName);
    [|split; [apply terminates_Ok | intros h' [= <-]; auto]].
  split.
  - apply terminates_bind; [apply terminates_ContentType_of|]. intros ct Hct.
    apply terminates_bind.
    + destruct ct as [c|]; [|apply terminates_Ok].
      apply terminates_content_type_loop; [|lia].
      intros o [= <-]. unfold ContentType_of in Hct.
      destruct (field h ContentTypeFieldName 0) as [f|] eqn:Hf; [|discriminate].
      destruct (Field.data f); try discriminate. injection Hct as <-.
      now apply field_Some_lt in Hf.
    + intros [good bad] _. destruct good as [g|]; [|apply terminates_Ok].
      destruct (negb bad); [|apply terminates_Ok].
      rewrite remove_loop_all. cbn [bind]. apply terminates_Ok.
  - intros h' H. bind_inv H ct Hct. bind_inv H gb Hgb. destruct gb as [good bad].
    destruct good as [g|]; [|injection H as <-; auto].
    destruct (negb bad); [|injection H as <-; auto].
    rewrite remove_loop_all in H. cbn [bind] in H. injection H as <-.
    cbn [set_Fields mode err verified Fields]. repeat split.
    intros Hne. apply named_filter_other with (fn' := ContentTypeFieldName); [assumption|].
    intros f Hf. apply negb_false_iff, andb_true_iff in Hf as [Hf _].
    now apply String.eqb_eq.
Qed.

Section RepairFacts.

Variable fieldNames : list string.
Variable Parse : Field.t -> string -> Field.t.

(** Step 4 does nothing to a header with at most one Mime-Version field. *)
Lemma collapse_mime_version_single (occ : gmap string nat) (h : Header) :
  length (named MimeVersionFieldName (Fields h)) <= 1 ->
  collapse_mime_version Parse occ h = Ok h.
Proof.
  intros Hone. unfold collapse_mime_version, field. rewrite field_of_named.
  now rewrite lookup_ge_None_2 by lia.
Qed.

(** Step 5 comes to an end and touches Content-Transfer-Encoding fields
    only. *)
Lemma suppress_transfer_encoding_named (occ : gmap string nat) (h : Header) (fn : string) :
  terminates (suppress_transfer_encoding occ h)
  /\ forall h', suppress_transfer_encoding occ h = Ok h' ->
       mode h' = mode h /\ err h' = err h /\ verified h' = verified h
       /\ (fn <> ContentTransferEncodingFieldName ->
           named fn (Fields h') = named fn (Fields h)).
Proof.
  unfold suppress_transfer_encoding.
  destruct (0 <? count_of occ ContentTransferEncodingFieldName);
    [|split; [apply terminates_Ok | intros h' [= <-]; auto]].
  split.
  - apply terminates_bind; [apply terminates_ContentType_of|]. intros ct _.
    apply terminates_bind.
    + destruct ct; auto 10 with term.
    + intros []; intros; apply terminates_Ok.
  - intros h' H. bind_inv H ct Hct. bind_inv H drop Hdrop.
    destruct drop; injection H as <-; [|auto].
    cbn [set_Fields mode err verified Fields]. repeat split.
    intros Hne. now apply named_RemoveAllNamed.
Qed.

(** Step 6 touches Sender fields only. *)
Lemma remove_sender_mirror_named (occ : gmap string nat) (h : Header) (fn : string) :
  mode (remove_sender_mirror occ h) = mode h
  /\ err (remove_sender_mirror occ h) = err h
  /\ verified (remove_sender_mirror occ h) = verified h
  /\ (fn <> SenderFieldName ->
      named fn (Fields (remove_sender_mirror occ h)) = named fn (Fields h)).
Proof.
  unfold remove_sender_mirror.
  destruct ((0 <? count_of occ SenderFieldName)
            && negb (length (addresses h SenderFieldName) =? 1)); [|auto].
  destruct (negb _); [|auto].
  cbn [set_Fields mode err verified Fields]. repeat split.
  intros Hne. now apply named_RemoveAllNamed.
Qed.

(** The loop of lines 449-454 entered with [difference] false leaves at
    once, whatever the keys are. *)
Lemma difference_loop_false (from : gmap string bool) (sender : list string) :
  difference_loop from sender false = false.
Proof. now destruct sender. Qed.

(** So step 6 removes the Sender fields whenever Sender occurs and has not
    exactly one address. *)
Lemma remove_sender_mirror_unconditional (occ : gmap string nat) (h : Header) :
  0 < count_of occ SenderFieldName ->
  length (addresses h SenderFieldName) <> 1 ->
  remove_sender_mirror occ h
  = set_Fields h (RemoveAllNamed (Fields h) SenderFieldName).
Proof.
  intros Hocc Hlen. unfold remove_sender_mirror.
  apply Nat.ltb_lt in Hocc. apply Nat.eqb_neq in Hlen.
  now rewrite Hocc, Hlen, difference_loop_false.
Qed.

(** Step 5 panics whenever Content-Transfer-Encoding occurs and no
    Content-Type field is there. *)
Lemma suppress_transfer_encoding_nil (occ : gmap string nat) (h : Header) :
  0 < count_of occ ContentTransferEncodingFieldName ->
  field h ContentTypeFieldName 0 = None ->
  suppress_transfer_encoding occ h = Panic.
Proof.
  intros Hocc Hct. unfold suppress_transfer_encoding, ContentType_of.
  apply Nat.ltb_lt in Hocc. now rewrite Hocc, Hct.
Qed.

(** X20: [Repair] comes to an end on every header, for every table of
    names and every [Parse]: none of its loops (the scans of lines 304-315,
    the walk of lines 330-347 and the removal loops of lines 349-357 and
    399-407, whose index stays where it is after a removal) runs out of the
    turns the length of the field list allows.  The outcome is a header or
    a panic. *)
Lemma terminates_Repair (h : Header) : terminates (Repair fieldNames Parse h).
Proof.
  unfold Repair. destruct (Valid h) as [[] h0]; [apply terminates_Ok|].
  destruct (collapse_duplicates_named conditions (occurrences_of (Fields h0)) h0 "")
    as (h1 & -> & _). cbn [bind].
  apply terminates_bind;
    [apply (consolidate_content_type_named _ h1 "")|]. intros h2 _.
  destruct (prefer_first_valid_named fieldNames (occurrences_of (Fields h0)) h2 "")
    as (h3 & -> & _). cbn [bind].
  apply terminates_bind.
  { unfold collapse_mime_version.
    destruct (field h3 MimeVersionFieldName 1); [|apply terminates_Ok].
    destruct (field _ MimeVersionFieldName 0); auto with term. }
  intros h4 _. apply terminates_bind;
    [apply (suppress_transfer_encoding_named _ h4 "")|].
  intros; apply terminates_Ok.
Qed.

Lemma collapse_mime_version_cache (occ : gmap string nat) (h h' : Header) :
  collapse_mime_version Parse occ h = Ok h' ->
  err h' = err h /\ verified h' = verified h.
Proof.
  unfold collapse_mime_version.
  destruct (field h MimeVersionFieldName 1); [|intros [= <-]; auto].
  destruct (field _ MimeVersionFieldName 0); [|discriminate].
  intros [= <-]. auto.
Qed.

Lemma Verify_verified (h : Header) : verified (Verify h) = true.
Proof.
  unfold Verify. destruct (verified h) eqn:Hver; [assumption|].
  now destruct (first_invalid (Fields h)).
Qed.

(** No step of [Repair] writes the cache of [Verify]: the header it returns
    carries the verdict that [Valid] gave on line 285. *)
Lemma Repair_keeps_cache (h h' : Header) :
  Repair fieldNames Parse h = Ok h' ->
  verified h' = true /\ err h' = err (Verify h).
Proof.
  unfold Repair, Valid. pose proof (Verify_verified h) as Hver.
  destruct (err (Verify h)) as [e|] eqn:Herr; [|intros [= <-]; auto].
  destruct (collapse_duplicates_named conditions (occurrences_of (Fields (Verify h)))
              (Verify h) "") as (h1 & -> & _ & Herr1 & Hver1 & _).
  cbn [bind]. intros H. bind_inv H h2 H2. bind_inv H h3 H3. bind_inv H h4 H4.
  bind_inv H h5 H5. injection H as <-.
  apply (consolidate_content_type_named _ h1 "") in H2 as (_ & Herr2 & Hver2 & _).
  destruct (prefer_first_valid_named fieldNames (occurrences_of (Fields (Verify h))) h2 "")
    as (h3' & H3' & _ & Herr3 & Hver3 & _).
  rewrite H3 in H3'. injection H3' as <-.
  apply collapse_mime_version_cache in H4 as [Herr4 Hver4].
  apply (suppress_transfer_encoding_named _ h4 "") in H5 as (_ & Herr5 & Hver5 & _).
  destruct (remove_sender_mirror_named (occurrences_of (Fields (Verify h))) h5 "")
    as (_ & Herr6 & Hver6 & _).
  split; congruence.
Qed.

(** So [Valid] answers after [Repair] what it answered before. *)
Lemma Repair_keeps_verdict (h h' : Header) :
  Repair fieldNames Parse h = Ok h' -> fst (Valid h') = fst (Valid h).
Proof.
  intros Hrun. apply Repair_keeps_cache in Hrun as [Hver Herr].
  unfold Valid at 1. unfold Verify. rewrite Hver. cbn [fst]. now rewrite Herr.
Qed.

(** [Repair] step by step, on a header that is not valid. *)
Lemma Repair_steps (h h0 h1 h2 h3 h4 h5 : Header) :
  Valid h = (false, h0) ->
  collapse_duplicates conditions (occurrences_of (Fields h0)) h0 = Ok h1 ->
  consolidate_content_type (occurrences_of (Fields h0)) h1 = Ok h2 ->
  prefer_first_valid fieldNames (occurrences_of (Fields h0)) h2 = Ok h3 ->
  collapse_mime_version Parse (occurrences_of (Fields h0)) h3 = Ok h4 ->
  suppress_transfer_encoding (occurrences_of (Fields h0)) h4 = Ok h5 ->
  Repair fieldNames Parse h
  = Ok (remove_sender_mirror (occurrences_of (Fields h0)) h5).
Proof.
  intros Hvalid H1 H2 H3 H4 H5. unfold Repair.
  rewrite Hvalid, H1. cbn [bind]. rewrite H2. cbn [bind]. rewrite H3. cbn [bind].
  rewrite H4. cbn [bind]. rewrite H5. reflexivity.
Qed.

End RepairFacts.

(** ** Properties of the verifier and of the repair engine *)

Lemma HeaderMode_eqb_refl (md : HeaderMode) : HeaderMode_eqb md md = true.
Proof. now destruct md. Qed.

(** C7: exact-duplicate collapse.  For a table entry [c] of the header's
    mode with at most one occurrence allowed, whose name occurs more than
    once ([first] and then [rest]), the step returns and leaves of that name
    [first] followed by the fields of [rest] that do not render as [first]
    does, in their order.  The header [two_subjects] is reported invalid with
    the error "2 Subject fields seen. At most 1 may be present." and has one
    Subject field after [Repair], whatever [fieldNames] and [Parse] are. *)
Theorem collapse_duplicates_keeps_first :
  (forall (h : Header) (c : HeaderFieldCondition.t) (first : Field.t)
          (rest : list Field.t),
     In c conditions ->
     HeaderFieldCondition.m c = mode h ->
     HeaderFieldCondition.max c = 1 ->
     named (HeaderFieldCondition.name c) (Fields h) = first :: rest ->
     rest <> [] ->
     exists h', collapse_duplicates conditions (occurrences_of (Fields h)) h = Ok h'
       /\ named (HeaderFieldCondition.name c) (Fields h')
          = first :: List.filter
                       (fun f => negb (String.eqb (Field.rfc822 first) (Field.rfc822 f)))
                       rest)
  /\ Valid two_subjects
     = (false,
        mkHeader Rfc5322Header (Fields two_subjects)
                 (Some "2 Subject fields seen. At most 1 may be present.") true)
  /\ (forall (fieldNames : list string) (Parse : Field.t -> string -> Field.t),
       exists h', Repair fieldNames Parse two_subjects = Ok h'
                  /\ named SubjectFieldName (Fields h')
                     = [unstructured 0 "Subject" "hello"]).
Proof.
  split; [|split].
  - intros h c first rest Hin Hmode Hmax Hnamed Hrest.
    destruct (collapse_duplicates_named conditions (occurrences_of (Fields h)) h
                (HeaderFieldCondition.name c)) as (h' & Hrun & _ & _ & _ & Hh').
    exists h'. split; [assumption|].
    assert (Hcollapses : existsb (collapses (occurrences_of (Fields h)) (mode h)
                                    (HeaderFieldCondition.name c)) conditions = true).
    { apply existsb_exists. exists c. split; [assumption|]. unfold collapses.
      rewrite String.eqb_refl, Hmode, HeaderMode_eqb_refl, count_of_occurrences, Hnamed, Hmax.
      destruct rest; [contradiction | reflexivity]. }
    now rewrite Hh', Hcollapses, Hnamed.
  - reflexivity.
  - intros fieldNames Parse. eexists. split.
    + eapply Repair_steps.
      * reflexivity.
      * reflexivity.
      * reflexivity.
      * apply prefer_first_valid_skip. reflexivity.
      * reflexivity.
      * reflexivity.
    + reflexivity.
Qed.

(** C7, on [three_subjects]: the copy of the first Subject field goes, the
    Subject field that differs stays. *)
Lemma collapse_duplicates_keeps_first_witness :
  exists h',
    collapse_duplicates conditions (occurrences_of (Fields three_subjects))
                        three_subjects = Ok h'
    /\ named SubjectFieldName (Fields h')
       = [unstructured 0 "Subject" "hello"; unstructured 3 "Subject" "goodbye"].
Proof.
  apply (proj1 collapse_duplicates_keeps_first three_subjects
           (HeaderFieldCondition.mk SubjectFieldName 0 1 Rfc5322Header)
           (unstructured 0 "Subject" "hello")
           [unstructured 2 "Subject" "hello"; unstructured 3 "Subject" "goodbye"]).
  - simpl. tauto.
  - reflexivity.
  - reflexivity.
  - reflexivity.
  - discriminate.
Defined.

Section RepairRuns.

Variable fieldNames : list string.
Variable Parse : Field.t -> string -> Field.t.

Lemma Repair_panics_at_suppress (h h0 h1 h2 h3 h4 : Header) :
  Valid h = (false, h0) ->
  collapse_duplicates conditions (occurrences_of (Fields h0)) h0 = Ok h1 ->
  consolidate_content_type (occurrences_of (Fields h0)) h1 = Ok h2 ->
  prefer_first_valid fieldNames (occurrences_of (Fields h0)) h2 = Ok h3 ->
  collapse_mime_version Parse (occurrences_of (Fields h0)) h3 = Ok h4 ->
  suppress_transfer_encoding (occurrences_of (Fields h0)) h4 = Panic ->
  Repair fieldNames Parse h = Panic.
Proof.
  intros Hvalid H1 H2 H3 H4 H5. unfold Repair.
  rewrite Hvalid, H1. cbn [bind]. rewrite H2. cbn [bind]. rewrite H3. cbn [bind].
  rewrite H4. cbn [bind]. rewrite H5. reflexivity.
Qed.

Lemma preferred_names (occ : gmap string nat) (fn : string) (names : list string) :
  preferred occ fn names = true ->
  In fn [ DateFieldName; ReturnPathFieldName; MessageIdFieldName;
          ContentTypeFieldName; ReferencesFieldName ].
Proof.
  unfold preferred. intros H. apply existsb_exists in H as (fn' & _ & H).
  apply andb_true_iff in H as [Heq Hguard]. apply String.eqb_eq in Heq. subst fn'.
  now apply prefers_first_valid_names in Hguard.
Qed.

(** Steps 2 to 6 on a header with one Mime-Version field: they come to an
    end and leave that field as it is. *)
Lemma Repair_tail_single_mime_version (occ : gmap string nat) (h1 : Header)
    (f1 : Field.t) :
  named MimeVersionFieldName (Fields h1) = [f1] ->
  let run :=
    let* h := consolidate_content_type occ h1 in
    let* h := prefer_first_valid fieldNames occ h in
    let* h := collapse_mime_version Parse occ h in
    let* h := suppress_transfer_encoding occ h in
    Ok (remove_sender_mirror occ h) in
  terminates run
  /\ forall h', run = Ok h' -> named MimeVersionFieldName (Fields h') = [f1].
Proof.
  intros Hone run. subst run.
  destruct (consolidate_content_type_named occ h1 MimeVersionFieldName) as [Hterm2 Hkeep2].
  destruct (consolidate_content_type occ h1) as [h2| |]; [|split; discriminate|now elim Hterm2].
  cbn [bind]. destruct (Hkeep2 h2 eq_refl) as (_ & _ & _ & Hh2).
  rewrite Hone in Hh2. specialize (Hh2 ltac:(discriminate)).
  destruct (prefer_first_valid_named fieldNames occ h2 MimeVersionFieldName)
    as (h3 & -> & _ & _ & _ & Hh3). cbn [bind].
  destruct (preferred occ MimeVersionFieldName fieldNames) eqn:Hpref.
  { apply preferred_names in Hpref. cbn [In] in Hpref.
    repeat (destruct Hpref as [Hpref|Hpref]; [discriminate|]). destruct Hpref. }
  rewrite Hh2 in Hh3.
  rewrite collapse_mime_version_single by (rewrite Hh3; simpl; lia). cbn [bind].
  destruct (suppress_transfer_encoding_named occ h3 MimeVersionFieldName) as [Hterm5 Hkeep5].
  destruct (suppress_transfer_encoding occ h3) as [h5| |];
    [|split; discriminate|now elim Hterm5].
  cbn [bind]. destruct (Hkeep5 h5 eq_refl) as (_ & _ & _ & Hh5).
  specialize (Hh5 ltac:(discriminate)).
  destruct (remove_sender_mirror_named occ h5 MimeVersionFieldName) as (_ & _ & _ & Hh6).
  specialize (Hh6 ltac:(discriminate)).
  split; [apply terminates_Ok|]. intros h' [= <-]. congruence.
Qed.

End RepairRuns.

(** C6 (amended): on a header with three byte-identical Mime-Version fields
    that holds no cached verdict of validity (it is fresh from the parser, or
    was found invalid), in either mode, [Repair] comes to an end, and when it
    returns, exactly one Mime-Version field remains: the first of the three,
    as it was.  The exact-duplicate collapse removes the two copies, so the
    Mime-Version step finds no second occurrence and writes no note. *)
Theorem Repair_three_identical_mime_versions
    (fieldNames : list string) (Parse : Field.t -> string -> Field.t)
    (h : Header) (f1 f2 f3 : Field.t) :
  (verified h = true -> err h <> None) ->
  named MimeVersionFieldName (Fields h) = [f1; f2; f3] ->
  Field.rfc822 f2 = Field.rfc822 f1 ->
  Field.rfc822 f3 = Field.rfc822 f1 ->
  terminates (Repair fieldNames Parse h)
  /\ forall h', Repair fieldNames Parse h = Ok h' ->
       named MimeVersionFieldName (Fields h') = [f1].
Proof.
  intros Hcache Hthree Hf2 Hf3.
  destruct (Valid_excess h (HeaderFieldCondition.mk MimeVersionFieldName 0 1 Rfc5322Header))
    as (h0 & Hvalid & Hmode & Hfields);
    [assumption | simpl; tauto | cbn; rewrite Hthree; simpl; lia |].
  unfold Repair. rewrite Hvalid.
  destruct (collapse_duplicates_named conditions (occurrences_of (Fields h0)) h0
              MimeVersionFieldName) as (h1 & -> & _ & _ & _ & Hh1).
  cbn [bind].
  assert (Hcollapses : existsb (collapses (occurrences_of (Fields h0)) (mode h0)
                                  MimeVersionFieldName) conditions = true).
  { apply existsb_exists.
    exists (HeaderFieldCondition.mk MimeVersionFieldName 0 1 (mode h0)).
    split; [destruct (mode h0); simpl; tauto|]. unfold collapses.
    cbn [HeaderFieldCondition.name HeaderFieldCondition.m HeaderFieldCondition.max].
    now rewrite HeaderMode_eqb_refl, count_of_occurrences, Hfields, Hthree. }
  rewrite Hcollapses, Hfields, Hthree in Hh1.
  cbn [without_copies List.filter] in Hh1.
  rewrite Hf2, Hf3, String.eqb_refl in Hh1. cbn [negb] in Hh1.
  exact (Repair_tail_single_mime_version fieldNames Parse
           (occurrences_of (Fields h0)) h1 f1 Hh1).
Qed.

(** C6, on [three_mime_versions]. *)
Lemma Repair_three_identical_mime_versions_witness :
  terminates (Repair example_field_names reparse three_mime_versions)
  /\ forall h', Repair example_field_names reparse three_mime_versions = Ok h' ->
       named MimeVersionFieldName (Fields h') = [unstructured 2 "Mime-Version" "1.0"].
Proof.
  exact (Repair_three_identical_mime_versions example_field_names reparse
           three_mime_versions
           (unstructured 2 "Mime-Version" "1.0")
           (unstructured 3 "Mime-Version" "1.0")
           (unstructured 4 "Mime-Version" "1.0")
           ltac:(discriminate) eq_refl eq_refl eq_refl).
Defined.

(** C6 as stated fails: after [Repair] of [three_mime_versions] the one
    Mime-Version field left holds "1.0", which does not contain the note
    "1.0 (Note: original message contained 3 Mime-Version fields)". *)
Lemma three_mime_versions_keep_no_note :
  (exists h', Repair example_field_names reparse three_mime_versions = Ok h'
              /\ named MimeVersionFieldName (Fields h')
                 = [unstructured 2 "Mime-Version" "1.0"])
  /\ ~ (exists h' f,
          Repair example_field_names reparse three_mime_versions = Ok h'
          /\ named MimeVersionFieldName (Fields h') = [f]
          /\ contains (Field.rfc822 f) (mime_version_note 3) = true).
Proof.
  split.
  - eexists. split; reflexivity.
  - intros (h' & f & Hrun & Hone & Hnote).
    vm_compute in Hrun. injection Hrun as <-.
    vm_compute in Hone. injection Hone as <-.
    vm_compute in Hnote. discriminate.
Qed.

(** C2 (fails on the code): the verdict [Verify] caches is not refreshed by
    [Repair].  [Repair] fills the cache through [Valid] on line 285 and then
    changes the fields without clearing [verified]: after the repair of
    [two_subjects] every rule holds for the fields that are left (a fresh
    header with these fields is valid), and [Valid] still answers false. *)
Theorem Valid_after_Repair_is_stale
    (fieldNames : list string) (Parse : Field.t -> string -> Field.t) :
  exists h', Repair fieldNames Parse two_subjects = Ok h'
    /\ fst (Valid h') = false
    /\ fst (Valid (mkHeader (mode h') (Fields h') None false)) = true.
Proof.
  eexists. split; [|split].
  - eapply Repair_steps.
    + reflexivity.
    + reflexivity.
    + reflexivity.
    + apply prefer_first_valid_skip. reflexivity.
    + reflexivity.
    + reflexivity.
  - reflexivity.
  - reflexivity.
Qed.

(** C3 (fails on the code): the too-many check of [Verify] is not gated by
    the mode.  The only table entry for Subject is scoped to
    [Rfc5322Header], and the [MimeHeader] header [mime_two_subjects], whose
    fields are all valid, is reported invalid for its two Subject fields. *)
Theorem Verify_max_check_ignores_mode :
  (forall c, In c conditions ->
             HeaderFieldCondition.name c = SubjectFieldName ->
             HeaderFieldCondition.m c = Rfc5322Header)
  /\ first_invalid (Fields mime_two_subjects) = None
  /\ Valid mime_two_subjects
     = (false,
        mkHeader MimeHeader (Fields mime_two_subjects)
                 (Some "2 Subject fields seen. At most 1 may be present.") true).
Proof.
  split; [|split; reflexivity].
  intros c Hin Hname. cbn [conditions In] in Hin.
  repeat (destruct Hin as [<-|Hin]; [try reflexivity; discriminate Hname|]).
  destruct Hin.
Qed.

(** C4 (fails on the code): the Sender fields go although no Sender address
    is among the From addresses.  The loop of lines 449-454 is guarded by
    [difference], which is false on entry, and the list [sender] is filled
    from the From field: [difference] stays false and line 456 removes the
    Sender fields whenever Sender has not exactly one address. *)
Theorem Repair_removes_sender_not_in_from
    (fieldNames : list string) (Parse : Field.t -> string -> Field.t) :
  addresses sender_not_in_from SenderFieldName
  = [Build_Address "c@example.org"; Build_Address "d@example.org"]
  /\ addresses sender_not_in_from FromFieldName = [Build_Address "a@example.org"]
  /\ exists h', Repair fieldNames Parse sender_not_in_from = Ok h'
                /\ named SenderFieldName (Fields h') = [].
Proof.
  split; [reflexivity|]. split; [reflexivity|].
  eexists. split.
  - eapply Repair_steps.
    + reflexivity.
    + reflexivity.
    + reflexivity.
    + apply prefer_first_valid_skip. reflexivity.
    + reflexivity.
    + reflexivity.
  - reflexivity.
Qed.

(** C5 (fails on the code): [Repair] panics on a header that is not valid
    and holds a Content-Transfer-Encoding field and no Content-Type field:
    line 425 reads [ct.Type] through the nil [ct]. *)
Theorem Repair_panics_without_content_type
    (fieldNames : list string) (Parse : Field.t -> string -> Field.t) :
  named ContentTypeFieldName (Fields encoding_without_type) = []
  /\ Repair fieldNames Parse encoding_without_type = Panic.
Proof.
  split; [reflexivity|].
  eapply Repair_panics_at_suppress.
  - reflexivity.
  - reflexivity.
  - reflexivity.
  - apply prefer_first_valid_skip. reflexivity.
  - reflexivity.
  - reflexivity.
Qed.

(** ** Further properties of the verifier *)

Lemma HeaderMode_eqb_eq (a b : HeaderMode) : HeaderMode_eqb a b = true <-> a = b.
Proof. destruct a, b; simpl; split; congruence. Qed.

Lemma first_invalid_None (fs : list Field.t) :
  first_invalid fs = None <-> Forall (fun f => Field.Valid f = true) fs.
Proof.
  induction fs as [|f fs IH]; cbn [first_invalid]; [split; auto|].
  destruct (Field.Valid f) eqn:Hf; cbn [negb].
  - rewrite IH. split; [now constructor | now inversion 1].
  - split; [discriminate | inversion 1; congruence].
Qed.

Lemma first_invalid_split (pre post : list Field.t) (f : Field.t) :
  Forall (fun g => Field.Valid g = true) pre ->
  Field.Valid f = false ->
  first_invalid (pre ++ f :: post) = Some f.
Proof.
  intros Hpre Hf. induction Hpre as [|g pre Hg _ IH]; cbn [app first_invalid].
  - now rewrite Hf.
  - now rewrite Hg.
Qed.

Lemma check_condition_None (c : HeaderFieldCondition.t) (md : HeaderMode)
    (fs : list Field.t) :
  check_condition c md (occurrences_of fs) = None <-> rule_met md fs c.
Proof.
  unfold check_condition, rule_met. rewrite count_of_occurrences.
  set (n := length (named (HeaderFieldCondition.name c) fs)).
  destruct (HeaderFieldCondition.max c <? n) eqn:Hmax.
  - rewrite orb_true_r. apply Nat.ltb_lt in Hmax. split; [discriminate | lia].
  - rewrite orb_false_r. apply Nat.ltb_ge in Hmax.
    destruct (HeaderMode_eqb (HeaderFieldCondition.m c) md) eqn:Hm; cbn [andb].
    + apply HeaderMode_eqb_eq in Hm.
      destruct (n <? HeaderFieldCondition.min c) eqn:Hmin.
      * apply Nat.ltb_lt in Hmin. split; [discriminate|]. intros [_ H].
        specialize (H Hm). lia.
      * apply Nat.ltb_ge in Hmin. split; auto.
    + split; [|reflexivity]. intros _. split; [assumption|].
      intros Heq. apply HeaderMode_eqb_eq in Heq. congruence.
Qed.

Lemma check_conditions_None (cs : list HeaderFieldCondition.t) (md : HeaderMode)
    (occ : gmap string nat) :
  check_conditions cs md occ None = None
  <-> Forall (fun c => check_condition c md occ = None) cs.
Proof.
  induction cs as [|c cs IH]; cbn [check_conditions]; [split; auto|].
  destruct (check_condition c md occ) as [e|] eqn:Hc.
  - rewrite check_conditions_Some. split; [discriminate | inversion 1; congruence].
  - rewrite IH. split; [now constructor | now inversion 1].
Qed.

(** The first violated entry decides. *)
Lemma check_conditions_first (pre post : list HeaderFieldCondition.t)
    (c : HeaderFieldCondition.t) (md : HeaderMode) (occ : gmap string nat) (e : string) :
  Forall (fun c' => check_condition c' md occ = None) pre ->
  check_condition c md occ = Some e ->
  check_conditions (pre ++ c :: post) md occ None = Some e.
Proof.
  intros Hpre Hc. induction Hpre as [|c' pre Hc' _ IH]; cbn [app check_conditions].
  - rewrite Hc. apply check_conditions_Some.
  - now rewrite Hc'.
Qed.

(** X1: a header without a cached verdict is valid exactly when each of its
    fields is valid and every entry of the table is met: no name of the
    table occurs more often than its [max], whatever the mode of the entry,
    and the names of the entries of the header's mode occur at least [min]
    times. *)
Theorem Valid_fresh_iff (h : Header) :
  verified h = false ->
  (fst (Valid h) = true
   <-> Forall (fun f => Field.Valid f = true) (Fields h)
       /\ Forall (rule_met (mode h) (Fields h)) conditions).
Proof.
  intros Hfresh. unfold Valid, Verify. rewrite Hfresh.
  destruct (first_invalid (Fields h)) as [f|] eqn:Hinv; cbn [err fst].
  - split; [discriminate|]. intros [Hall _].
    apply first_invalid_None in Hall. congruence.
  - apply first_invalid_None in Hinv.
    destruct (check_conditions conditions (mode h) (occurrences_of (Fields h)) None)
      as [e|] eqn:Hcheck.
    + split; [discriminate|]. intros [_ Hrules].
      assert (Hnone : check_conditions conditions (mode h)
                        (occurrences_of (Fields h)) None = None).
      { apply check_conditions_None. eapply Forall_impl; [exact Hrules|].
        intros c Hc. now apply check_condition_None. }
      congruence.
    + split; [|reflexivity]. intros _. split; [assumption|].
      apply check_conditions_None in Hcheck.
      eapply Forall_impl; [exact Hcheck|].
      intros c Hc. now apply check_condition_None.
Qed.

(** X1, on [regular_header]. *)
Lemma Valid_fresh_iff_witness :
  fst (Valid regular_header) = true
  <-> Forall (fun f => Field.Valid f = true) (Fields regular_header)
      /\ Forall (rule_met (mode regular_header) (Fields regular_header)) conditions.
Proof. exact (Valid_fresh_iff regular_header eq_refl). Defined.

(** X2: on a header without a cached verdict, the first field that is not
    valid decides the error, "<name>: <error>", whatever the fields after it
    and the cardinalities are. *)
Theorem Verify_reports_first_invalid (h : Header) (pre post : list Field.t)
    (f : Field.t) :
  verified h = false ->
  Fields h = pre ++ f :: post ->
  Forall (fun g => Field.Valid g = true) pre ->
  Field.Valid f = false ->
  Verify h
  = mkHeader (mode h) (Fields h) (Some (Field.Name f +:+ ": " +:+ Field.Error f)) true.
Proof.
  intros Hfresh Hfields Hpre Hf. unfold Verify. rewrite Hfresh, Hfields.
  now rewrite first_invalid_split.
Qed.

(** X2, on [two_broken_fields]: the Date field is reported, the Subject
    field is not. *)
Lemma Verify_reports_first_invalid_witness :
  Verify two_broken_fields
  = mkHeader Rfc5322Header (Fields two_broken_fields)
             (Some "Date: no date found") true.
Proof.
  exact (Verify_reports_first_invalid two_broken_fields
           [unstructured 0 "Received" "from mx.example.org"]
           [Field.mk 2 "Subject" false "bad encoded-word" "=?x?=" OtherField]
           (Field.mk 1 "Date" false "no date found" "yesterday" OtherField)
           eq_refl eq_refl
           ltac:(repeat constructor) eq_refl).
Defined.

(** X3: when every field is valid, the first entry of the table, in its
    order, that is not met decides the error: "At most" when the name occurs
    more often than [max], "At least" otherwise. *)
Theorem Verify_reports_first_rule (h : Header) (pre post : list HeaderFieldCondition.t)
    (c : HeaderFieldCondition.t) :
  verified h = false ->
  Forall (fun f => Field.Valid f = true) (Fields h) ->
  conditions = pre ++ c :: post ->
  Forall (rule_met (mode h) (Fields h)) pre ->
  ~ rule_met (mode h) (Fields h) c ->
  let n := length (named (HeaderFieldCondition.name c) (Fields h)) in
  err (Verify h)
  = Some (if HeaderFieldCondition.max c <? n
          then itoa n +:+ " " +:+ HeaderFieldCondition.name c
               +:+ " fields seen. At most " +:+ itoa (HeaderFieldCondition.max c)
               +:+ " may be present."
          else itoa n +:+ " " +:+ HeaderFieldCondition.name c
               +:+ " fields seen. At least " +:+ itoa (HeaderFieldCondition.min c)
               +:+ " must be present.").
Proof.
  intros Hfresh Hvalid Htable Hpre Hc n. unfold Verify. rewrite Hfresh.
  apply first_invalid_None in Hvalid. rewrite Hvalid. cbn [err]. rewrite Htable.
  apply check_conditions_first.
  - eapply Forall_impl; [exact Hpre|]. intros c' Hc'. now apply check_condition_None.
  - destruct (check_condition c (mode h) (occurrences_of (Fields h))) as [e|] eqn:He.
    + unfold check_condition in He. rewrite count_of_occurrences in He. fold n in He.
      destruct (_ || _); [|discriminate].
      now destruct (HeaderFieldCondition.max c <? n).
    + apply check_condition_None in He. contradiction.
Qed.

(** X3, on [date_only]: the From entry is the first one that is not met. *)
Lemma Verify_reports_first_rule_witness :
  err (Verify date_only) = Some "0 From fields seen. At least 1 must be present.".
Proof.
  refine (Verify_reports_first_rule date_only
            (firstn 8 conditions) (skipn 9 conditions)
            (HeaderFieldCondition.mk FromFieldName 1 1 Rfc5322Header)
            eq_refl _ eq_refl _ _).
  - repeat constructor.
  - repeat constructor; simpl; try lia; discriminate.
  - intros [_ H]. specialize (H eq_refl). simpl in H. lia.
Defined.

(** X4: [Verify] computes once.  A second call changes nothing, and a field
    added after the first call, valid or not, does not change what [Valid]
    answers. *)
Theorem Verify_cached (h : Header) :
  Verify (Verify h) = Verify h
  /\ forall f, fst (Valid (Add (Verify h) f)) = fst (Valid h).
Proof.
  assert (Hidem : forall h0, verified h0 = true -> Verify h0 = h0)
    by (intros h0 H0; unfold Verify; now rewrite H0).
  pose proof (Verify_verified h) as Hver.
  split; [now apply Hidem|].
  intros f. unfold Valid. rewrite (Hidem (Add (Verify h) f)) by exact Hver.
  reflexivity.
Qed.

(** ** Properties of the queries *)

Lemma named_app (fn : string) (fs gs : list Field.t) :
  named fn (fs ++ gs) = named fn fs ++ named fn gs.
Proof. apply List.filter_app. Qed.

(** X5: [h.field(fn, n)] is the [n]-th occurrence of the name [fn], counted
    from 0, and nil exactly when there are not that many; after [h.Add(f)]
    every earlier answer stands and [f] is the next occurrence of its
    name. *)
Theorem field_is_nth_occurrence (h : Header) (fn : string) (n : nat) (f : Field.t) :
  field h fn n = named fn (Fields h) !! n
  /\ (field h fn n = None <-> length (named fn (Fields h)) <= n)
  /\ field (Add h f) fn n
     = match field h fn n with
       | Some g => Some g
       | None =>
           if String.eqb (Field.Name f) fn && (n =? length (named fn (Fields h)))
           then Some f
           else None
       end.
Proof.
  unfold field. rewrite !field_of_named. split; [reflexivity|].
  split; [apply lookup_ge_None|].
  cbn [Add Fields]. rewrite named_app.
  destruct (named fn (Fields h) !! n) as [g|] eqn:Hn.
  - now rewrite lookup_app_l_Some with (x := g).
  - apply lookup_ge_None in Hn. rewrite lookup_app_r by assumption.
    assert (Hone : named fn [f] = if String.eqb (Field.Name f) fn then [f] else [])
      by (unfold named; cbn [List.filter]; now destruct (String.eqb (Field.Name f) fn)).
    rewrite Hone.
    destruct (String.eqb (Field.Name f) fn); cbn [andb].
    + destruct (Nat.eqb_spec n (length (named fn (Fields h)))) as [->|Hne].
      * now rewrite Nat.sub_diag.
      * destruct (n - length (named fn (Fields h))) eqn:Hd; [lia | reflexivity].
    + apply lookup_nil.
Qed.

(** X6: [h.addresses(fn)] reads the first occurrence of [fn] only: whatever
    comes after it, the answer is the address list of that field when [fn]
    is one of the sixteen address-field names and the field is an
    [*AddressField], and empty otherwise. *)
Theorem addresses_of_first_occurrence (md : HeaderMode) (pre post : list Field.t)
    (f : Field.t) (e : option string) (v : bool) :
  Forall (fun g => Field.Name g <> Field.Name f) pre ->
  addresses (mkHeader md (pre ++ f :: post) e v) (Field.Name f)
  = if existsb (String.eqb (Field.Name f)) address_field_names
    then match Field.data f with
         | AddressField addrs => addrs
         | _ => []
         end
    else [].
Proof.
  intros Hpre. unfold addresses, addressField, field. cbn [Fields].
  destruct (existsb _ address_field_names); [|reflexivity].
  assert (Hfirst : field_of (pre ++ f :: post) (Field.Name f) 0 = Some f).
  { induction Hpre as [|g pre Hg _ IH]; cbn [app field_of].
    - now rewrite String.eqb_refl.
    - apply String.eqb_neq in Hg. now rewrite Hg. }
  rewrite Hfirst. now destruct (Field.data f).
Qed.

(** X6, on [two_recipients]: the addresses of the second To field are not
    returned. *)
Lemma addresses_of_first_occurrence_witness :
  addresses two_recipients ToFieldName = [Build_Address "b@example.org"].
Proof.
  refine (addresses_of_first_occurrence Rfc5322Header
            [unstructured 0 "Subject" "hello"]
            [address_field 2 "To" "c@example.org" ["c@example.org"]]
            (address_field 1 "To" "b@example.org" ["b@example.org"])
            None false _).
  repeat constructor. discriminate.
Defined.

(** ** [Repair] only removes fields *)

Lemma filter_sublist (p : Field.t -> bool) (fs : list Field.t) :
  List.filter p fs `sublist_of` fs.
Proof.
  induction fs as [|f fs IH]; [constructor|]. cbn [List.filter].
  destruct (p f); now constructor.
Qed.

Lemma collapsed_sublist (fn : string) (fs : list Field.t) :
  collapsed fn fs `sublist_of` fs.
Proof.
  induction fs as [|f fs IH]; [constructor|]. cbn [collapsed].
  destruct (String.eqb (Field.Name f) fn); constructor;
    [apply filter_sublist | assumption].
Qed.

Lemma Remove_sublist (fs : list Field.t) (f : Field.t) : Remove fs f `sublist_of` fs.
Proof.
  induction fs as [|g fs IH]; [constructor|]. cbn [Remove].
  destruct (Field.ptr g =? Field.ptr f); now constructor.
Qed.

Lemma collapse_duplicates_sublist (cs : list HeaderFieldCondition.t)
    (occ : gmap string nat) (h h' : Header) :
  collapse_duplicates cs occ h = Ok h' -> Fields h' `sublist_of` Fields h.
Proof.
  revert h. induction cs as [|c cs IH]; intros h; cbn [collapse_duplicates].
  - now intros [= <-].
  - destruct (_ && _).
    + unfold field. rewrite collapse_loop_all. cbn [bind]. intros H.
      apply IH in H. cbn [set_Fields Fields] in H.
      etrans; [exact H | apply collapsed_sublist].
    + cbn [bind]. apply IH.
Qed.

Lemma consolidate_content_type_sublist (occ : gmap string nat) (h h' : Header) :
  consolidate_content_type occ h = Ok h' -> Fields h' `sublist_of` Fields h.
Proof.
  unfold consolidate_content_type.
  destruct (1 <? count_of occ ContentTypeFieldName); [|now intros [= <-]].
  intros H. bind_inv H ct Hct. bind_inv H gb Hgb. destruct gb as [[g|] bad];
    [|now injection H as <-].
  destruct (negb bad); [|now injection H as <-].
  rewrite remove_loop_all in H. cbn [bind] in H. injection H as <-.
  apply filter_sublist.
Qed.

Lemma prefer_first_valid_sublist (names : list string) (occ : gmap string nat)
    (h h' : Header) :
  prefer_first_valid names occ h = Ok h' -> Fields h' `sublist_of` Fields h.
Proof.
  revert h. induction names as [|fn names IH]; intros h; cbn [prefer_first_valid].
  - now intros [= <-].
  - destruct (prefers_first_valid occ fn); [|cbn [bind]; apply IH].
    rewrite keep_first_valid_filter. cbn [bind]. intros H. apply IH in H.
    cbn [set_Fields Fields] in H. etrans; [exact H|].
    destruct (first_valid (Fields h) fn); [apply filter_sublist | reflexivity].
Qed.

Lemma suppress_transfer_encoding_sublist (occ : gmap string nat) (h h' : Header) :
  suppress_transfer_encoding occ h = Ok h' -> Fields h' `sublist_of` Fields h.
Proof.
  unfold suppress_transfer_encoding.
  destruct (0 <? count_of occ ContentTransferEncodingFieldName); [|now intros [= <-]].
  intros H. bind_inv H ct Hct. bind_inv H drop Hdrop.
  destruct drop; injection H as <-; [apply filter_sublist | reflexivity].
Qed.

Lemma remove_sender_mirror_sublist (occ : gmap string nat) (h : Header) :
  Fields (remove_sender_mirror occ h) `sublist_of` Fields h.
Proof.
  unfold remove_sender_mirror. destruct (_ && _); [|reflexivity].
  destruct (negb _); [apply filter_sublist | reflexivity].
Qed.

(** Distinct objects: equal addresses, equal fields. *)
Lemma NoDup_ptr_eq (fs : list Field.t) (e e' : Field.t) :
  NoDup (map Field.ptr fs) -> In e fs -> In e' fs ->
  Field.ptr e = Field.ptr e' -> e = e'.
Proof.
  induction fs as [|f fs IH]; intros Hnd He He' Hptr; [destruct He|].
  cbn [map] in Hnd. apply NoDup_cons in Hnd as [Hf Hnd].
  destruct He as [->|He], He' as [->|He']; [reflexivity| | |now apply IH].
  - exfalso. apply Hf. rewrite Hptr. apply list_elem_of_In, in_map, He'.
  - exfalso. apply Hf. rewrite <- Hptr. apply list_elem_of_In, in_map, He.
Qed.

Lemma NoDup_ptr_sublist (fs gs : list Field.t) :
  gs `sublist_of` fs -> NoDup (map Field.ptr fs) -> NoDup (map Field.ptr gs).
Proof.
  intros Hsub Hnd. eapply sublist_NoDup; [exact Hnd|].
  now apply (fmap_sublist Field.ptr).
Qed.

Lemma field_of_In (fs : list Field.t) (fn : string) (n : nat) (f : Field.t) :
  field_of fs fn n = Some f -> In f fs /\ Field.Name f = fn.
Proof.
  rewrite field_of_named. intros Hf. apply list_elem_of_lookup_2, list_elem_of_In in Hf.
  unfold named in Hf. apply filter_In in Hf as [Hin Hname].
  split; [assumption | now apply String.eqb_eq].
Qed.

(** Among distinct objects, [Remove] takes out the object itself. *)
Lemma Remove_filter (fs : list Field.t) (f : Field.t) :
  NoDup (map Field.ptr fs) -> In f fs ->
  Remove fs f = List.filter (fun g => negb (Field.ptr g =? Field.ptr f)) fs.
Proof.
  induction fs as [|g fs IH]; intros Hnd Hin; [destruct Hin|].
  cbn [map] in Hnd. apply NoDup_cons in Hnd as [Hg Hnd]. cbn [Remove List.filter].
  destruct (Nat.eqb_spec (Field.ptr g) (Field.ptr f)) as [Heq|Hne]; cbn [negb].
  - symmetry. clear IH Hin. induction fs as [|e fs IH]; [reflexivity|].
    cbn [List.filter]. cbn [map] in Hg, Hnd.
    apply NoDup_cons in Hnd as [_ Hnd].
    destruct (Nat.eqb_spec (Field.ptr e) (Field.ptr f)) as [Heq'|_]; cbn [negb].
    + exfalso. apply Hg. rewrite Heq, <- Heq'. left.
    + f_equal. apply IH; [|assumption]. intros Hin. apply Hg. now right.
  - f_equal. destruct Hin as [->|Hin]; [congruence | now apply IH].
Qed.

(** ** Content-Type parameter consolidation *)

Lemma content_type_walk_bad (ct : Field.t) (others : list Field.t)
    (good : option Field.t) :
  content_type_walk ct others good true = (good, true).
Proof. now destruct others. Qed.

Lemma content_type_loop_walk (h : Header) (ct : Field.t) (fuel n : nat)
    (good : option Field.t) (bad : bool) :
  Forall (fun f => is_content_type f = true) (named ContentTypeFieldName (Fields h)) ->
  length (Fields h) < fuel + n ->
  content_type_loop fuel h ct (named ContentTypeFieldName (Fields h) !! n) good n bad
  = Ok (content_type_walk ct (drop n (named ContentTypeFieldName (Fields h))) good bad).
Proof.
  intros Hct. pose proof (named_length_le ContentTypeFieldName (Fields h)) as Hlen.
  set (L := named ContentTypeFieldName (Fields h)) in *.
  revert n good bad. induction fuel as [|fuel IH]; intros n good bad Hfuel.
  - rewrite lookup_ge_None_2, drop_ge by lia. reflexivity.
  - destruct (L !! n) as [o|] eqn:Hn.
    + rewrite (drop_S _ _ _ Hn). cbn [content_type_loop content_type_walk].
      destruct bad; [reflexivity|].
      assert (Hnext : forall good' bad',
                bind (match field h ContentTypeFieldName (S n) with
                      | Some tmp =>
                          match Field.data tmp with
                          | ContentType _ _ _ => Ok (Some tmp)
                          | _ => Panic
                          end
                      | None => Ok None
                      end)
                     (fun other => content_type_loop fuel h ct other good' (S n) bad')
                = Ok (content_type_walk ct (drop (S n) L) good' bad')).
      { intros good' bad'. unfold field. rewrite field_of_named. fold L.
        rewrite <- IH by lia.
        destruct (L !! S n) as [tmp|] eqn:Htmp; [|reflexivity].
        assert (Htmp' : is_content_type tmp = true).
        { rewrite Forall_forall in Hct. apply Hct. now apply list_elem_of_lookup_2 in Htmp. }
        unfold is_content_type in Htmp'. now destruct (Field.data tmp). }
      unfold same_type. rewrite negb_andb.
      destruct (negb (String.eqb (ct_Type o) (ct_Type ct))
                || negb (String.eqb (ct_Subtype o) (ct_Subtype ct))); [apply Hnext|].
      unfold has_parameters. destruct (0 <? length (ct_Parameters o)); apply Hnext.
    + rewrite drop_ge by now apply lookup_ge_None. now destruct fuel.
Qed.

Lemma content_type_walk_plain (ct : Field.t) (others : list Field.t)
    (good : option Field.t) :
  forallb (same_type ct) others = true ->
  List.filter has_parameters others = [] ->
  content_type_walk ct others good false = (good, false).
Proof.
  induction others as [|o rest IH]; [reflexivity|]. cbn [forallb List.filter content_type_walk].
  intros Hsame Hparams. apply andb_true_iff in Hsame as [Ho Hsame]. rewrite Ho. cbn [negb].
  destruct (has_parameters o); [discriminate | now apply IH].
Qed.

Lemma content_type_walk_one (ct g : Field.t) (others : list Field.t) :
  forallb (same_type ct) others = true ->
  List.filter has_parameters others = [g] ->
  content_type_walk ct others None false = (Some g, false).
Proof.
  induction others as [|o rest IH]; [discriminate|]. cbn [forallb List.filter content_type_walk].
  intros Hsame Hparams. apply andb_true_iff in Hsame as [Ho Hsame]. rewrite Ho. cbn [negb].
  destruct (has_parameters o); [|now apply IH].
  injection Hparams as -> Hparams. now apply content_type_walk_plain.
Qed.

Lemma content_type_walk_good (ct : Field.t) (others : list Field.t)
    (good good' : option Field.t) :
  content_type_walk ct others good false = (good', false) ->
  forallb (same_type ct) others = true
  /\ match good with
     | Some _ => List.filter has_parameters others = []
     | None => length (List.filter has_parameters others) <= 1
     end.
Proof.
  revert good. induction others as [|o rest IH]; intros good.
  - intros _. split; [reflexivity|]. destruct good; simpl; auto.
  - cbn [forallb List.filter content_type_walk].
    destruct (same_type ct o); cbn [negb andb];
      [|rewrite content_type_walk_bad; discriminate].
    destruct (has_parameters o).
    + destruct good; [rewrite content_type_walk_bad; discriminate|].
      intros H. apply IH in H as [Hsame Hnone]. split; [assumption|].
      rewrite Hnone. simpl. lia.
    + apply IH.
Qed.

(** X10: Content-Type parameter consolidation.  When the tally counts more
    than one Content-Type and the fields of that name are [*ContentType]
    objects, step 2 returns.  If all of them have the type and subtype of the
    first and exactly one, [g], carries parameters, it removes every
    Content-Type field that is not the object [g] and no other field; in
    every other case (types that differ, parameters on none or on more than
    one) it changes nothing. *)
Theorem consolidate_content_type_spec (occ : gmap string nat) (h : Header) :
  1 < count_of occ ContentTypeFieldName ->
  Forall (fun f => is_content_type f = true) (named ContentTypeFieldName (Fields h)) ->
  exists h', consolidate_content_type occ h = Ok h'
    /\ mode h' = mode h
    /\ Fields h'
       = match named ContentTypeFieldName (Fields h),
               List.filter has_parameters (named ContentTypeFieldName (Fields h)) with
         | ct :: _, [g] =>
             if forallb (same_type ct) (named ContentTypeFieldName (Fields h))
             then List.filter
                    (fun f => negb (String.eqb (Field.Name f) ContentTypeFieldName)
                              || (Field.ptr f =? Field.ptr g))
                    (Fields h)
             else Fields h
         | _, _ => Fields h
         end.
Proof.
  intros Hocc Hct. unfold consolidate_content_type, ContentType_of, field.
  apply Nat.ltb_lt in Hocc. rewrite Hocc, field_of_named.
  pose proof (content_type_loop_walk h) as Hloop.
  set (L := named ContentTypeFieldName (Fields h)) in *.
  destruct L as [|ct L'] eqn:HL; [exists h; auto|].
  change ((ct :: L') !! 0) with (Some ct).
  assert (Hct0 : is_content_type ct = true) by now inversion Hct.
  unfold is_content_type in Hct0.
  destruct (Field.data ct) eqn:Hdata; try discriminate. rewrite ?Hdata. cbn [bind].
  specialize (Hloop ct (S (length (Fields h))) 0 None false Hct ltac:(lia)).
  change ((ct :: L') !! 0) with (Some ct) in Hloop. rewrite Hloop. cbn [bind drop].
  rewrite <- HL. 
  destruct (content_type_walk ct L None false) as [good bad] eqn:Hwalk.
  destruct bad.
  - exists h. split; [now destruct good|]. split; [reflexivity|].
    destruct (List.filter has_parameters L) as [|g [|g' ps]] eqn:Hps; try reflexivity.
    destruct (forallb (same_type ct) L) eqn:Hsame; [|reflexivity].
    rewrite (content_type_walk_one ct g L Hsame Hps) in Hwalk. discriminate.
  - apply content_type_walk_good in Hwalk as Hgood. destruct Hgood as [Hsame Hlen].
    rewrite Hsame.
    destruct (List.filter has_parameters L) as [|g [|g' ps]] eqn:Hps;
      [|clear Hlen|simpl in Hlen; lia].
    + rewrite (content_type_walk_plain ct L None Hsame Hps) in Hwalk.
      injection Hwalk as <-. exists h. auto.
    + rewrite (content_type_walk_one ct g L Hsame Hps) in Hwalk.
      injection Hwalk as <-. cbn [negb]. rewrite remove_loop_all. cbn [bind].
      eexists. split; [reflexivity|]. split; [reflexivity|].
      cbn [set_Fields Fields]. apply List.filter_ext. intros f.
      now destruct (String.eqb (Field.Name f) ContentTypeFieldName),
                   (Field.ptr f =? Field.ptr g).
Qed.

(** X10, on [three_content_types]: the field with the charset parameter is
    the one Content-Type field left. *)
Lemma consolidate_content_type_spec_witness :
  exists h',
    consolidate_content_type (occurrences_of (Fields three_content_types))
                             three_content_types = Ok h'
    /\ mode h' = MimeHeader
    /\ Fields h'
       = [ unstructured 1 "Content-Transfer-Encoding" "8bit";
           content_type_field 2 "text/plain; charset=utf-8" "text" "plain"
                              [("charset", "utf-8")] ].
Proof.
  refine (consolidate_content_type_spec (occurrences_of (Fields three_content_types))
            three_content_types _ _).
  - vm_compute. lia.
  - repeat constructor.
Defined.

Section RepairShape.

Variable fieldNames : list string.
Variable Parse : Field.t -> string -> Field.t.

(** [Parse] keeps the name of the object, as a field that parses a new value
    does. *)
Hypothesis Parse_Name : forall f s, Field.Name (Parse f s) = Field.Name f.

(** What step 4 does to a list of distinct objects: nothing, or it takes out
    the second Mime-Version field and rewrites the first. *)
Lemma collapse_mime_version_fields (occ : gmap string nat) (h h' : Header) :
  NoDup (map Field.ptr (Fields h)) ->
  collapse_mime_version Parse occ h = Ok h' ->
  Fields h' = Fields h
  \/ exists f1 f2,
       named MimeVersionFieldName (Fields h) !! 0 = Some f1
       /\ named MimeVersionFieldName (Fields h) !! 1 = Some f2
       /\ In f1 (List.filter (fun g => negb (Field.ptr g =? Field.ptr f2)) (Fields h))
       /\ Fields h'
          = map (fun e =>
                   if Field.ptr e =? Field.ptr f1
                   then Parse f1 (mime_version_note (count_of occ MimeVersionFieldName))
                   else e)
                (List.filter (fun g => negb (Field.ptr g =? Field.ptr f2)) (Fields h)).
Proof.
  intros Hnd. unfold collapse_mime_version.
  destruct (field h MimeVersionFieldName 1) as [f2|] eqn:Hf2; [|intros [= <-]; now left].
  change (field (set_Fields h (Remove (Fields h) f2)) MimeVersionFieldName 0)
    with (field_of (Remove (Fields h) f2) MimeVersionFieldName 0).
  destruct (field_of (Remove (Fields h) f2) MimeVersionFieldName 0) as [f1|] eqn:Hf1;
    [|discriminate].
  intros [= <-]. right. cbn [set_Fields Fields].
  unfold field in Hf2. pose proof Hf2 as Hin2. apply field_of_In in Hin2 as [Hin2 _].
  rewrite (Remove_filter _ _ Hnd Hin2) in Hf1 |- *.
  assert (HL : NoDup (map Field.ptr (named MimeVersionFieldName (Fields h))))
    by (eapply NoDup_ptr_sublist; [apply filter_sublist | exact Hnd]).
  rewrite field_of_named in Hf2. exists f1, f2.
  split; [|split; [assumption | split; [apply (field_of_In _ _ _ _ Hf1) | reflexivity]]].
  rewrite field_of_named, named_filter in Hf1.
  destruct (named MimeVersionFieldName (Fields h)) as [|a [|b rest]]; [discriminate..|].
  cbn in Hf2. injection Hf2 as ->.
  cbn [map] in HL. apply NoDup_cons in HL as [Ha _].
  cbn [List.filter] in Hf1.
  destruct (Nat.eqb_spec (Field.ptr a) (Field.ptr f2)) as [Heq|_]; cbn [negb] in Hf1.
  - exfalso. apply Ha. rewrite Heq. left.
  - cbn in Hf1. now injection Hf1 as ->.
Qed.

(** Rewriting one of a list of distinct objects by [Parse] keeps every
    name. *)
Lemma rewrite_keeps_names (gs : list Field.t) (f1 : Field.t) (s : string) (e : Field.t) :
  NoDup (map Field.ptr gs) -> In f1 gs -> In e gs ->
  Field.Name (if Field.ptr e =? Field.ptr f1 then Parse f1 s else e) = Field.Name e.
Proof.
  intros Hnd Hf1 He.
  destruct (Nat.eqb_spec (Field.ptr e) (Field.ptr f1)) as [Heq|_]; [|reflexivity].
  rewrite Parse_Name. f_equal. symmetry. now apply (NoDup_ptr_eq gs).
Qed.

Lemma named_map_names (fn : string) (g : Field.t -> Field.t) (fs : list Field.t) :
  (forall e, In e fs -> Field.Name (g e) = Field.Name e) ->
  named fn (map g fs) = map g (named fn fs).
Proof.
  unfold named. induction fs as [|f fs IH]; intros Hg; [reflexivity|].
  cbn [map List.filter]. rewrite (Hg f) by now left.
  rewrite IH by (intros e He; apply Hg; now right).
  now destruct (String.eqb (Field.Name f) fn).
Qed.

Lemma filter_all (p : Field.t -> bool) (fs : list Field.t) :
  (forall e, In e fs -> p e = true) -> List.filter p fs = fs.
Proof.
  induction fs as [|f fs IH]; intros Hp; [reflexivity|]. cbn [List.filter].
  rewrite (Hp f) by now left. f_equal. apply IH. intros e He. apply Hp. now right.
Qed.

Lemma named_In (fn : string) (fs : list Field.t) (e : Field.t) :
  In e (named fn fs) <-> In e fs /\ Field.Name e = fn.
Proof. unfold named. rewrite filter_In, String.eqb_eq. reflexivity. Qed.

(** Step 4 keeps the names of the fields it leaves. *)
Lemma collapse_mime_version_names (occ : gmap string nat) (h h' : Header) :
  NoDup (map Field.ptr (Fields h)) ->
  collapse_mime_version Parse occ h = Ok h' ->
  map Field.Name (Fields h') `sublist_of` map Field.Name (Fields h).
Proof.
  intros Hnd Hrun.
  destruct (collapse_mime_version_fields occ h h' Hnd Hrun)
    as [->|(f1 & f2 & _ & _ & Hin1 & ->)]; [reflexivity|].
  set (gs := List.filter (fun g => negb (Field.ptr g =? Field.ptr f2)) (Fields h)) in *.
  assert (Hgs : NoDup (map Field.ptr gs))
    by (eapply NoDup_ptr_sublist; [apply filter_sublist | exact Hnd]).
  rewrite map_map.
  rewrite (map_ext_in _ Field.Name gs)
    by (intros e He; now apply (rewrite_keeps_names gs)).
  apply (fmap_sublist Field.Name), filter_sublist.
Qed.

(** Step 4 touches Mime-Version fields only. *)
Lemma collapse_mime_version_other (occ : gmap string nat) (h h' : Header) (fn : string) :
  NoDup (map Field.ptr (Fields h)) ->
  fn <> MimeVersionFieldName ->
  collapse_mime_version Parse occ h = Ok h' ->
  named fn (Fields h') = named fn (Fields h).
Proof.
  intros Hnd Hfn Hrun.
  destruct (collapse_mime_version_fields occ h h' Hnd Hrun)
    as [->|(f1 & f2 & Hf1 & Hf2 & Hin1 & ->)]; [reflexivity|].
  set (gs := List.filter (fun g => negb (Field.ptr g =? Field.ptr f2)) (Fields h)) in *.
  assert (Hgs : NoDup (map Field.ptr gs))
    by (eapply NoDup_ptr_sublist; [apply filter_sublist | exact Hnd]).
  apply list_elem_of_lookup_2, list_elem_of_In, named_In in Hf1 as [Hf1 Hname1].
  apply list_elem_of_lookup_2, list_elem_of_In, named_In in Hf2 as [Hf2 Hname2].
  rewrite named_map_names by (intros e He; now apply (rewrite_keeps_names gs)).
  rewrite <- (map_id (named fn (Fields h))).
  assert (Hsame : named fn gs = named fn (Fields h)).
  { subst gs. rewrite named_filter. apply filter_all. intros e He.
    apply named_In in He as [He Hname].
    destruct (Nat.eqb_spec (Field.ptr e) (Field.ptr f2)) as [Heq|_]; [|reflexivity].
    apply (NoDup_ptr_eq (Fields h)) in Heq; [congruence | assumption..]. }
  rewrite Hsame. apply map_ext_in. intros e He.
  apply named_In in He as [He Hname].
  destruct (Nat.eqb_spec (Field.ptr e) (Field.ptr f1)) as [Heq|_]; [|reflexivity].
  apply (NoDup_ptr_eq (Fields h)) in Heq; [congruence | assumption..].
Qed.

(** X7: Mime-Version collapse.  On distinct objects of which at least two
    are Mime-Version fields, step 4 returns: it takes out the second
    Mime-Version field, leaves the third and later ones, puts in place of the
    first one what [Parse] makes of it with the note that tells the count of
    the tally, and changes no field of another name. *)
Theorem collapse_mime_version_rewrites_first (occ : gmap string nat) (h : Header)
    (f1 f2 : Field.t) (rest : list Field.t) :
  NoDup (map Field.ptr (Fields h)) ->
  named MimeVersionFieldName (Fields h) = f1 :: f2 :: rest ->
  exists h', collapse_mime_version Parse occ h = Ok h'
    /\ named MimeVersionFieldName (Fields h')
       = Parse f1 (mime_version_note (count_of occ MimeVersionFieldName)) :: rest
    /\ forall fn, fn <> MimeVersionFieldName ->
                  named fn (Fields h') = named fn (Fields h).
Proof.
  intros Hnd HL.
  assert (HndL : NoDup (map Field.ptr (named MimeVersionFieldName (Fields h))))
    by (eapply NoDup_ptr_sublist; [apply filter_sublist | exact Hnd]).
  rewrite HL in HndL. cbn [map] in HndL.
  apply NoDup_cons in HndL as [H1 HndL]. apply NoDup_cons in HndL as [H2 _].
  assert (Hkept : List.filter (fun g => negb (Field.ptr g =? Field.ptr f2))
                    (f1 :: f2 :: rest) = f1 :: rest).
  { cbn [List.filter]. rewrite Nat.eqb_refl. cbn [negb].
    destruct (Nat.eqb_spec (Field.ptr f1) (Field.ptr f2)) as [Heq|_].
    - exfalso. apply H1. rewrite Heq. left.
    - cbn [negb]. f_equal. apply filter_all. intros e He.
      destruct (Nat.eqb_spec (Field.ptr e) (Field.ptr f2)) as [Heq|_]; [|reflexivity].
      exfalso. apply H2. rewrite <- Heq. apply list_elem_of_In, in_map, He. }
  assert (Hin2 : In f2 (Fields h)).
  { apply (named_In MimeVersionFieldName). rewrite HL. right. now left. }
  set (gs := List.filter (fun g => negb (Field.ptr g =? Field.ptr f2)) (Fields h)).
  set (g := fun e : Field.t =>
              if Field.ptr e =? Field.ptr f1
              then Parse f1 (mime_version_note (count_of occ MimeVersionFieldName))
              else e).
  assert (Hrun : collapse_mime_version Parse occ h
                 = Ok (set_Fields (set_Fields h gs) (map g gs))).
  { unfold collapse_mime_version, field. rewrite field_of_named, HL.
    change ((f1 :: f2 :: rest) !! 1) with (Some f2). cbv beta iota zeta.
    change (Fields (set_Fields h (Remove (Fields h) f2))) with (Remove (Fields h) f2).
    rewrite (Remove_filter _ _ Hnd Hin2). fold gs.
    assert (Hfirst : field_of gs MimeVersionFieldName 0 = Some f1)
      by (subst gs; now rewrite field_of_named, named_filter, HL, Hkept).
    now rewrite Hfirst. }
  eexists. split; [exact Hrun|]. split;
    [|intros fn Hfn; now apply (collapse_mime_version_other occ h _ fn)].
  cbn [set_Fields Fields].
  assert (Hgs : NoDup (map Field.ptr gs))
    by (eapply NoDup_ptr_sublist; [apply filter_sublist | exact Hnd]).
  assert (Hin1 : In f1 gs).
  { apply (named_In MimeVersionFieldName). subst gs.
    rewrite named_filter, HL, Hkept. now left. }
  rewrite named_map_names by (intros e He; now apply (rewrite_keeps_names gs)).
  subst gs. rewrite named_filter, HL, Hkept. subst g. cbn [map]. rewrite Nat.eqb_refl.
  f_equal. rewrite <- (map_id rest) at 2. apply map_ext_in. intros e He.
  destruct (Nat.eqb_spec (Field.ptr e) (Field.ptr f1)) as [Heq|_]; [|reflexivity].
  exfalso. apply H1. rewrite <- Heq. right. apply list_elem_of_In, in_map, He.
Qed.

Lemma Verify_Fields (h : Header) :
  Fields (Verify h) = Fields h /\ mode (Verify h) = mode h.
Proof.
  unfold Verify. destruct (verified h); [auto|].
  now destruct (first_invalid (Fields h)).
Qed.

(** X8: [Repair] only removes.  On distinct objects, the header it returns
    has the mode it had, and the names of its fields are, in their order,
    names of the fields it had: no field is added, moved or renamed. *)
Theorem Repair_only_removes (h h' : Header) :
  NoDup (map Field.ptr (Fields h)) ->
  Repair fieldNames Parse h = Ok h' ->
  mode h' = mode h
  /\ map Field.Name (Fields h') `sublist_of` map Field.Name (Fields h).
Proof.
  intros Hnd. unfold Repair, Valid.
  destruct (Verify_Fields h) as [Hfields Hmode].
  destruct (err (Verify h)); [|intros [= <-]; rewrite Hfields; auto].
  set (occ := occurrences_of (Fields (Verify h))).
  intros H. bind_inv H h1 H1. bind_inv H h2 H2. bind_inv H h3 H3. bind_inv H h4 H4.
  bind_inv H h5 H5. injection H as <-.
  destruct (collapse_duplicates_named conditions occ (Verify h) "")
    as (h1' & H1' & Hm1 & _). rewrite H1 in H1'. injection H1' as <-.
  apply collapse_duplicates_sublist in H1.
  pose proof (consolidate_content_type_named occ h1 "") as [_ Hm2].
  destruct (Hm2 h2 H2) as (Hm2' & _). clear Hm2.
  apply consolidate_content_type_sublist in H2.
  destruct (prefer_first_valid_named fieldNames occ h2 "") as (h3' & H3' & Hm3 & _).
  rewrite H3 in H3'. injection H3' as <-.
  apply prefer_first_valid_sublist in H3.
  assert (Hsub3 : Fields h3 `sublist_of` Fields h)
    by (rewrite <- Hfields; etrans; [exact H3|]; etrans; [exact H2 | exact H1]).
  assert (Hnd3 : NoDup (map Field.ptr (Fields h3)))
    by (eapply NoDup_ptr_sublist; [exact Hsub3 | exact Hnd]).
  assert (Hm4 : mode h4 = mode h3).
  { unfold collapse_mime_version in H4.
    destruct (field h3 MimeVersionFieldName 1); [|now injection H4 as <-].
    destruct (field _ MimeVersionFieldName 0); [|discriminate]. now injection H4 as <-. }
  apply (collapse_mime_version_names occ h3 h4 Hnd3) in H4.
  pose proof (suppress_transfer_encoding_named occ h4 "") as [_ Hm5].
  destruct (Hm5 h5 H5) as (Hm5' & _). clear Hm5.
  apply suppress_transfer_encoding_sublist in H5.
  destruct (remove_sender_mirror_named occ h5 "") as (Hm6 & _).
  split; [congruence|].
  etrans; [apply (fmap_sublist Field.Name), remove_sender_mirror_sublist|].
  etrans; [apply (fmap_sublist Field.Name), H5|].
  etrans; [exact H4|]. now apply (fmap_sublist Field.Name).
Qed.

(** X9: what [Repair] does to a name that no step after the first handles
    (any name but Date, Return-Path, Message-Id, Content-Type, References,
    Mime-Version, Content-Transfer-Encoding and Sender).  A header that
    [Valid] accepts keeps its fields of that name; otherwise they go through
    the exact-duplicate collapse when the table has an entry of the header's
    mode for the name and the name occurs more often than the entry allows,
    and stay as they are when it has not.  In particular the fields of a
    name outside the table are never touched. *)
Theorem Repair_keeps_other_names (h h' : Header) (fn : string) :
  NoDup (map Field.ptr (Fields h)) ->
  ~ In fn later_steps_names ->
  Repair fieldNames Parse h = Ok h' ->
  named fn (Fields h')
  = (if fst (Valid h) then named fn (Fields h)
     else if existsb (collapses (occurrences_of (Fields h)) (mode h) fn) conditions
          then without_copies (named fn (Fields h))
          else named fn (Fields h))
  /\ ((forall c, In c conditions -> HeaderFieldCondition.name c <> fn) ->
      named fn (Fields h') = named fn (Fields h)).
Proof.
  intros Hnd Hfn Hrun.
  assert (Hne : forall fn', In fn' later_steps_names -> fn <> fn')
    by (intros fn' Hin ->; contradiction).
  assert (Hmain : named fn (Fields h')
            = if fst (Valid h) then named fn (Fields h)
              else if existsb (collapses (occurrences_of (Fields h)) (mode h) fn)
                              conditions
                   then without_copies (named fn (Fields h))
                   else named fn (Fields h)).
  { revert Hrun. unfold Repair, Valid. cbn [fst].
    destruct (Verify_Fields h) as [Hfields Hmode].
    destruct (err (Verify h)); [|intros [= <-]; now rewrite Hfields].
    rewrite <- Hfields, <- Hmode.
    set (occ := occurrences_of (Fields (Verify h))).
    intros H. bind_inv H h1 H1. bind_inv H h2 H2. bind_inv H h3 H3. bind_inv H h4 H4.
    bind_inv H h5 H5. injection H as <-.
    destruct (collapse_duplicates_named conditions occ (Verify h) fn)
      as (h1' & H1' & _ & _ & _ & Hn1). rewrite H1 in H1'. injection H1' as <-.
    rewrite <- Hn1.
    apply collapse_duplicates_sublist in H1.
    pose proof (consolidate_content_type_named occ h1 fn) as [_ Hn2].
    destruct (Hn2 h2 H2) as (_ & _ & _ & Hn2'). clear Hn2.
    rewrite <- Hn2' by (apply Hne; simpl; tauto).
    apply consolidate_content_type_sublist in H2.
    destruct (prefer_first_valid_named fieldNames occ h2 fn)
      as (h3' & H3' & _ & _ & _ & Hn3). rewrite H3 in H3'. injection H3' as <-.
    destruct (preferred occ fn fieldNames) eqn:Hpref.
    { apply preferred_names in Hpref. exfalso. apply Hfn.
      unfold later_steps_names. cbn [In] in Hpref |- *. tauto. }
    rewrite <- Hn3.
    apply prefer_first_valid_sublist in H3.
    assert (Hnd3 : NoDup (map Field.ptr (Fields h3))).
    { eapply NoDup_ptr_sublist; [|exact Hnd]. rewrite <- Hfields.
      etrans; [exact H3|]. etrans; [exact H2 | exact H1]. }
    rewrite <- (collapse_mime_version_other occ h3 h4 fn Hnd3)
      by first [apply Hne; simpl; tauto | assumption].
    pose proof (suppress_transfer_encoding_named occ h4 fn) as [_ Hn5].
    destruct (Hn5 h5 H5) as (_ & _ & _ & Hn5'). clear Hn5.
    rewrite <- Hn5' by (apply Hne; simpl; tauto).
    destruct (remove_sender_mirror_named occ h5 fn) as (_ & _ & _ & Hn6).
    apply Hn6. apply Hne. simpl. tauto. }
  split; [exact Hmain|].
  intros Htable. rewrite Hmain. destruct (fst (Valid h)); [reflexivity|].
  destruct (existsb _ conditions) eqn:Hex; [|reflexivity].
  apply existsb_exists in Hex as (c & Hin & Hc). unfold collapses in Hc.
  apply andb_true_iff in Hc as [Hc _]. apply andb_true_iff in Hc as [Hc _].
  apply String.eqb_eq in Hc. now elim (Htable c Hin).
Qed.

(** *** When [Repair] returns *)

Lemma sublist_In (gs fs : list Field.t) (e : Field.t) :
  gs `sublist_of` fs -> In e gs -> In e fs.
Proof.
  intros Hsub He. apply list_elem_of_In. eapply elem_of_sublist; [|exact Hsub].
  now apply list_elem_of_In.
Qed.

Lemma named_content_types_sublist (gs fs : list Field.t) :
  gs `sublist_of` fs ->
  Forall (fun f => is_content_type f = true) (named ContentTypeFieldName fs) ->
  Forall (fun f => is_content_type f = true) (named ContentTypeFieldName gs).
Proof.
  intros Hsub Hfs. rewrite Forall_forall in Hfs |- *. intros e He.
  apply Hfs. apply list_elem_of_In, named_In. apply list_elem_of_In, named_In in He as [He Hn].
  split; [now apply (sublist_In gs) | assumption].
Qed.

Lemma without_copies_nonempty (occs : list Field.t) :
  occs <> [] -> without_copies occs <> [].
Proof. now destruct occs. Qed.

Lemma first_valid_kept_nonempty (fn : string) (occs : list Field.t) :
  occs <> [] -> first_valid_kept fn occs <> [].
Proof.
  intros Hne. unfold first_valid_kept.
  destruct (first_valid occs fn) as [fv|] eqn:Hfv; [|assumption].
  apply first_valid_In in Hfv as (Hin & _ & _).
  assert (Hkept : In fv (List.filter (survives fn fv) occs)).
  { apply filter_In. split; [assumption|]. unfold survives. rewrite Nat.eqb_refl.
    now destruct (String.eqb fn ContentTypeFieldName). }
  intros Hnil. rewrite Hnil in Hkept. destruct Hkept.
Qed.

(** Step 4 returns on distinct objects. *)
Lemma collapse_mime_version_returns (occ : gmap string nat) (h : Header) :
  NoDup (map Field.ptr (Fields h)) ->
  exists h', collapse_mime_version Parse occ h = Ok h'.
Proof.
  intros Hnd.
  destruct (named MimeVersionFieldName (Fields h)) as [|f1 [|f2 rest]] eqn:HL.
  - exists h. apply collapse_mime_version_single. rewrite HL. simpl. lia.
  - exists h. apply collapse_mime_version_single. rewrite HL. simpl. lia.
  - destruct (collapse_mime_version_rewrites_first occ h f1 f2 rest Hnd HL)
      as (h' & Hrun & _). eauto.
Qed.

(** X11: [Repair] returns, without a panic, on every header of distinct
    objects whose Content-Type fields are [*ContentType] objects and which
    holds a Content-Type field if it holds a Content-Transfer-Encoding
    field. *)
Theorem Repair_returns (h : Header) :
  NoDup (map Field.ptr (Fields h)) ->
  Forall (fun f => is_content_type f = true) (named ContentTypeFieldName (Fields h)) ->
  (named ContentTransferEncodingFieldName (Fields h) <> [] ->
   named ContentTypeFieldName (Fields h) <> []) ->
  exists h', Repair fieldNames Parse h = Ok h'.
Proof.
  intros Hnd Hct Henc. unfold Repair, Valid.
  destruct (Verify_Fields h) as [Hfields Hmode].
  destruct (err (Verify h)); [|eauto].
  rewrite <- Hfields in Hnd, Hct, Henc.
  set (occ := occurrences_of (Fields (Verify h))).
  set (CT := ContentTypeFieldName) in *.
  (* step 1 *)
  destruct (collapse_duplicates_named conditions occ (Verify h) CT)
    as (h1 & H1 & _ & _ & _ & Hn1). rewrite H1. cbn [bind].
  pose proof (collapse_duplicates_sublist _ _ _ _ H1) as Hs1.
  assert (Hct1 : Forall (fun f => is_content_type f = true) (named CT (Fields h1)))
    by now apply (named_content_types_sublist _ (Fields (Verify h))).
  assert (Hne1 : named CT (Fields (Verify h)) <> [] -> named CT (Fields h1) <> []).
  { intros Hne. rewrite Hn1. destruct (existsb _ conditions);
      [now apply without_copies_nonempty | assumption]. }
  (* step 2 *)
  assert (H2 : exists h2, consolidate_content_type occ h1 = Ok h2
                 /\ Fields h2 `sublist_of` Fields h1
                 /\ (named CT (Fields h1) <> [] -> named CT (Fields h2) <> [])).
  { destruct (1 <? count_of occ ContentTypeFieldName) eqn:Hocc.
    - apply Nat.ltb_lt in Hocc.
      destruct (consolidate_content_type_spec occ h1 Hocc Hct1) as (h2 & H2 & _ & Hf2).
      exists h2. split; [assumption|].
      split; [now apply consolidate_content_type_sublist in H2|].
      intros Hne. rewrite Hf2. fold CT.
      destruct (named CT (Fields h1)) as [|ct L'] eqn:HL; [contradiction|].
      destruct (List.filter has_parameters (ct :: L')) as [|g [|g' ps]] eqn:Hps;
        try (rewrite HL; discriminate).
      destruct (forallb (same_type ct) (ct :: L')); [|rewrite HL; discriminate].
      assert (Hg : In g (ct :: L')).
      { assert (Hin : In g (List.filter has_parameters (ct :: L')))
          by (rewrite Hps; now left).
        now apply filter_In in Hin as [Hin _]. }
      rewrite <- HL in Hg. apply named_In in Hg as [Hg Hname].
      assert (Hkept : In g (named CT (List.filter
                (fun f => negb (String.eqb (Field.Name f) ContentTypeFieldName)
                          || (Field.ptr f =? Field.ptr g)) (Fields h1)))).
      { apply named_In. split; [|assumption]. apply filter_In. split; [assumption|].
        now rewrite Nat.eqb_refl, orb_true_r. }
      intros Hnil. apply (in_nil (a := g)). rewrite <- Hnil. exact Hkept.
    - exists h1. unfold consolidate_content_type. rewrite Hocc. auto. }
  destruct H2 as (h2 & H2 & Hs2 & Hne2). rewrite H2. cbn [bind].
  (* step 3 *)
  destruct (prefer_first_valid_named fieldNames occ h2 CT)
    as (h3 & H3 & _ & _ & _ & Hn3). rewrite H3. cbn [bind].
  pose proof (prefer_first_valid_sublist _ _ _ _ H3) as Hs3.
  assert (Hne3 : named CT (Fields h2) <> [] -> named CT (Fields h3) <> []).
  { intros Hne. rewrite Hn3. destruct (preferred occ CT fieldNames);
      [now apply first_valid_kept_nonempty | assumption]. }
  assert (Hsub3 : Fields h3 `sublist_of` Fields (Verify h))
    by (etrans; [exact Hs3|]; etrans; [exact Hs2 | exact Hs1]).
  assert (Hnd3 : NoDup (map Field.ptr (Fields h3)))
    by (eapply NoDup_ptr_sublist; [exact Hsub3 | exact Hnd]).
  (* step 4 *)
  destruct (collapse_mime_version_returns occ h3 Hnd3) as (h4 & H4).
  rewrite H4. cbn [bind].
  pose proof (collapse_mime_version_other occ h3 h4 CT Hnd3 ltac:(discriminate) H4) as Hn4.
  (* step 5 *)
  assert (H5 : exists h5, suppress_transfer_encoding occ h4 = Ok h5).
  { unfold suppress_transfer_encoding.
    destruct (0 <? count_of occ ContentTransferEncodingFieldName) eqn:Hocc; [|eauto].
    apply Nat.ltb_lt in Hocc. unfold occ in Hocc. rewrite count_of_occurrences in Hocc.
    assert (Hne : named CT (Fields h4) <> []).
    { rewrite Hn4. apply Hne3, Hne2, Hne1, Henc. intros Hnil. rewrite Hnil in Hocc.
      simpl in Hocc. lia. }
    assert (Hct4 : Forall (fun f => is_content_type f = true) (named CT (Fields h4))).
    { rewrite Hn4. now apply (named_content_types_sublist _ (Fields (Verify h))). }
    unfold ContentType_of, field. rewrite field_of_named. fold CT.
    destruct (named CT (Fields h4)) as [|c L'] eqn:HL; [contradiction|].
    change ((c :: L') !! 0) with (Some c).
    assert (Hc : is_content_type c = true) by now inversion Hct4.
    unfold is_content_type in Hc.
    destruct (Field.data c) eqn:Hdata; try discriminate. rewrite ?Hdata.
    unfold andr, orr. cbn [bind].
    destruct (String.eqb (ct_Type c) "multipart"); cbn [bind]; [eauto|].
    destruct (String.eqb (ct_Type c) "message"); eauto. }
  destruct H5 as (h5 & ->). cbn [bind]. eauto.
Qed.

End RepairShape.

Ltac distinct_addresses :=
  vm_compute;
  repeat (apply NoDup_cons_2;
          [let Hin := fresh "Hin" in
           intros Hin;
           repeat (apply elem_of_cons in Hin as [Hin|Hin]; [discriminate|]);
           now apply elem_of_nil in Hin|]);
  apply NoDup_nil_2.

(** X7, on [relayed_header]: of the Mime-Version fields "1.0", "1.1" and
    "1.2" the second goes, the third stays and the first holds the note. *)
Lemma collapse_mime_version_rewrites_first_witness :
  exists h',
    collapse_mime_version reparse (occurrences_of (Fields relayed_header)) relayed_header
    = Ok h'
    /\ named MimeVersionFieldName (Fields h')
       = [ unstructured 3 "Mime-Version"
             "1.0 (Note: original message contained 3 Mime-Version fields)";
           unstructured 6 "Mime-Version" "1.2" ]
    /\ forall fn, fn <> MimeVersionFieldName ->
                  named fn (Fields h') = named fn (Fields relayed_header).
Proof.
  refine (collapse_mime_version_rewrites_first reparse (fun _ _ => eq_refl)
            (occurrences_of (Fields relayed_header)) relayed_header
            (unstructured 3 "Mime-Version" "1.0")
            (unstructured 5 "Mime-Version" "1.1")
            [unstructured 6 "Mime-Version" "1.2"] _ eq_refl).
  distinct_addresses.
Defined.

(** X8, on [relayed_header]. *)
Lemma Repair_only_removes_witness :
  exists h',
    Repair example_field_names reparse relayed_header = Ok h'
    /\ mode h' = Rfc5322Header
    /\ map Field.Name (Fields h') = ["Received"; "Received"; "To"; "Mime-Version"; "Mime-Version"]
    /\ map Field.Name (Fields h') `sublist_of` map Field.Name (Fields relayed_header).
Proof.
  eexists. split; [vm_compute; reflexivity|]. split; [reflexivity|].
  split; [reflexivity|].
  refine (proj2 (Repair_only_removes example_field_names reparse (fun _ _ => eq_refl)
                   relayed_header _ _ eq_refl)).
  distinct_addresses.
Defined.

(** X9, on [relayed_header]: the two byte-identical Received fields stay,
    of the two byte-identical To fields one goes. *)
Lemma Repair_keeps_other_names_witness :
  exists h',
    Repair example_field_names reparse relayed_header = Ok h'
    /\ named "Received" (Fields h') = named "Received" (Fields relayed_header)
    /\ named ToFieldName (Fields h')
       = [address_field 2 "To" "b@example.org" ["b@example.org"]].
Proof.
  eexists. split; [vm_compute; reflexivity|]. split.
  - refine (proj2 (Repair_keeps_other_names example_field_names reparse
                     (fun _ _ => eq_refl) relayed_header _ "Received" _ _ eq_refl) _).
    + distinct_addresses.
    + simpl. intuition discriminate.
    + intros c Hc. cbn [conditions In] in Hc.
      repeat (destruct Hc as [<-|Hc]; [discriminate|]). destruct Hc.
  - refine (proj1 (Repair_keeps_other_names example_field_names reparse
                     (fun _ _ => eq_refl) relayed_header _ ToFieldName _ _ eq_refl)).
    + distinct_addresses.
    + simpl. intuition discriminate.
Defined.

(** X11, on [multipart_with_encoding]. *)
Lemma Repair_returns_witness :
  exists h', Repair example_field_names reparse multipart_with_encoding = Ok h'.
Proof.
  refine (Repair_returns example_field_names reparse (fun _ _ => eq_refl)
            multipart_with_encoding _ _ _).
  - distinct_addresses.
  - repeat constructor.
  - discriminate.
Defined.

(** ** The last two steps of [Repair] *)

Lemma named_RemoveAllNamed_same (fn : string) (fs : list Field.t) :
  named fn (RemoveAllNamed fs fn) = [].
Proof.
  unfold named, RemoveAllNamed. induction fs as [|f fs IH]; [reflexivity|].
  cbn [List.filter]. destruct (String.eqb (Field.Name f) fn) eqn:Hf; cbn [negb List.filter];
    [exact IH | now rewrite Hf].
Qed.

Lemma after_collapse_head (h : Header) (fn : string) :
  after_collapse h fn !! 0 = named fn (Fields h) !! 0.
Proof.
  unfold after_collapse. destruct (existsb _ conditions); [|reflexivity].
  now destruct (named fn (Fields h)).
Qed.

Lemma after_collapse_single (h : Header) (fn : string) :
  length (named fn (Fields h)) <= 1 -> after_collapse h fn = named fn (Fields h).
Proof.
  unfold after_collapse. destruct (existsb _ conditions); [|reflexivity].
  destruct (named fn (Fields h)) as [|f [|g l]]; cbn; intros; first [reflexivity | lia].
Qed.

(** [h.addresses(fn)] reads the first occurrence of [fn] only. *)
Lemma addresses_head (h h' : Header) (fn : string) :
  named fn (Fields h') !! 0 = named fn (Fields h) !! 0 ->
  addresses h' fn = addresses h fn.
Proof.
  intros Hhead. unfold addresses, addressField, field.
  now rewrite !field_of_named, Hhead.
Qed.

Lemma preferred_single (occ : gmap string nat) (fn : string) (names : list string) :
  count_of occ fn <= 1 -> preferred occ fn names = false.
Proof.
  intros Hone. destruct (preferred occ fn names) eqn:Hpref; [|reflexivity].
  unfold preferred in Hpref. apply existsb_exists in Hpref as (fn' & _ & H).
  apply andb_true_iff in H as [Heq Hguard]. apply String.eqb_eq in Heq. subst fn'.
  apply prefers_first_valid_names in Hguard as [Hcount _]. lia.
Qed.

Section RepairTail.

Variable fieldNames : list string.
Variable Parse : Field.t -> string -> Field.t.
Hypothesis Parse_Name : forall f s, Field.Name (Parse f s) = Field.Name f.

(** [Repair] on a header that [Valid] rejects, up to step 5: a name that is
    not Mime-Version and that step 3 does not handle, or that occurs once
    at most, comes out of the first four steps as it comes out of the
    first. *)
Lemma Repair_first_steps (h h' : Header) :
  NoDup (map Field.ptr (Fields h)) ->
  fst (Valid h) = false ->
  Repair fieldNames Parse h = Ok h' ->
  exists h4 h5,
    suppress_transfer_encoding (occurrences_of (Fields h)) h4 = Ok h5
    /\ h' = remove_sender_mirror (occurrences_of (Fields h)) h5
    /\ forall fn,
         fn <> MimeVersionFieldName ->
         ~ In fn [ DateFieldName; ReturnPathFieldName; MessageIdFieldName;
                   ContentTypeFieldName; ReferencesFieldName ]
         \/ length (named fn (Fields h)) <= 1 ->
         named fn (Fields h4) = after_collapse h fn.
Proof.
  intros Hnd. unfold Repair, Valid, after_collapse. cbn [fst].
  destruct (Verify_Fields h) as [Hfields Hmode].
  destruct (err (Verify h)); [|discriminate]. intros _.
  rewrite <- Hfields, <- Hmode.
  set (occ := occurrences_of (Fields (Verify h))).
  intros H. bind_inv H h1 H1. bind_inv H h2 H2. bind_inv H h3 H3. bind_inv H h4 H4.
  bind_inv H h5 H5. injection H as <-.
  exists h4, h5. split; [exact H5|]. split; [reflexivity|].
  intros fn Hmime Hfn.
  assert (Hpref : preferred occ fn fieldNames = false).
  { destruct Hfn as [Hfn|Hone].
    - destruct (preferred occ fn fieldNames) eqn:Hpref; [|reflexivity].
      apply preferred_names in Hpref. contradiction.
    - apply preferred_single. subst occ. now rewrite count_of_occurrences. }
  destruct (collapse_duplicates_named conditions occ (Verify h) fn)
    as (h1' & H1' & _ & _ & _ & Hn1). rewrite H1 in H1'. injection H1' as <-.
  rewrite <- Hn1.
  apply collapse_duplicates_sublist in H1.
  assert (Hn2 : named fn (Fields h2) = named fn (Fields h1)).
  { destruct (String.eqb_spec fn ContentTypeFieldName) as [->|Hne].
    - destruct Hfn as [Hfn|Hone]; [exfalso; apply Hfn; simpl; tauto|].
      unfold consolidate_content_type in H2.
      replace (1 <? count_of occ ContentTypeFieldName) with false in H2.
      + now injection H2 as <-.
      + symmetry. apply Nat.ltb_ge. subst occ. now rewrite count_of_occurrences.
    - pose proof (consolidate_content_type_named occ h1 fn) as [_ Hn2].
      destruct (Hn2 h2 H2) as (_ & _ & _ & Hn2'). now apply Hn2'. }
  rewrite <- Hn2.
  apply consolidate_content_type_sublist in H2.
  destruct (prefer_first_valid_named fieldNames occ h2 fn)
    as (h3' & H3' & _ & _ & _ & Hn3). rewrite H3 in H3'. injection H3' as <-.
  rewrite Hpref in Hn3. rewrite <- Hn3.
  apply prefer_first_valid_sublist in H3.
  assert (Hnd3 : NoDup (map Field.ptr (Fields h3))).
  { eapply NoDup_ptr_sublist; [|exact Hnd]. rewrite <- Hfields.
    etrans; [exact H3|]. etrans; [exact H2 | exact H1]. }
  now apply (collapse_mime_version_other Parse Parse_Name occ h3 h4 fn Hnd3).
Qed.

(** X18: what [Repair] does to the Sender fields of a header that [Valid]
    rejects does not depend on the From field.  When the first Sender field
    is an address field with exactly one address, the Sender fields come
    out as the exact-duplicate collapse leaves them; in every other case,
    whether or not its addresses are among the From addresses, no Sender
    field is left. *)
Theorem Repair_sender (h h' : Header) :
  NoDup (map Field.ptr (Fields h)) ->
  fst (Valid h) = false ->
  Repair fieldNames Parse h = Ok h' ->
  named SenderFieldName (Fields h')
  = if length (addresses h SenderFieldName) =? 1
    then after_collapse h SenderFieldName
    else [].
Proof.
  intros Hnd Hvalid Hrun.
  destruct (Repair_first_steps h h' Hnd Hvalid Hrun) as (h4 & h5 & H5 & -> & Hn4).
  set (occ := occurrences_of (Fields h)) in *.
  pose proof (suppress_transfer_encoding_named occ h4 SenderFieldName) as [_ Hn5].
  destruct (Hn5 h5 H5) as (_ & _ & _ & Hn5'). clear Hn5.
  assert (Hs5 : named SenderFieldName (Fields h5) = after_collapse h SenderFieldName).
  { rewrite Hn5' by discriminate. apply Hn4; [discriminate|].
    left. simpl. intros [H|[H|[H|[H|[H|[]]]]]]; discriminate. }
  assert (Haddr : addresses h5 SenderFieldName = addresses h SenderFieldName).
  { apply addresses_head. rewrite Hs5. apply after_collapse_head. }
  unfold remove_sender_mirror. rewrite Haddr.
  destruct (length (addresses h SenderFieldName) =? 1) eqn:Hone.
  - rewrite andb_false_r. exact Hs5.
  - rewrite andb_true_r, difference_loop_false. cbn [negb].
    destruct (0 <? count_of occ SenderFieldName) eqn:Hcount.
    + cbn [set_Fields Fields]. apply named_RemoveAllNamed_same.
    + rewrite Hs5. apply Nat.ltb_ge in Hcount. subst occ.
      rewrite count_of_occurrences in Hcount.
      rewrite after_collapse_single by lia.
      destruct (named SenderFieldName (Fields h)); [reflexivity | cbn in Hcount; lia].
Qed.

(** X19: what [Repair] does to the Content-Transfer-Encoding fields of a
    header that [Valid] rejects and that holds one Content-Type field, a
    [*ContentType] object.  When its type is [multipart] or [message] no
    Content-Transfer-Encoding field is left; otherwise they come out as the
    exact-duplicate collapse leaves them. *)
Theorem Repair_transfer_encoding (h h' : Header) (c : Field.t) :
  NoDup (map Field.ptr (Fields h)) ->
  fst (Valid h) = false ->
  named ContentTypeFieldName (Fields h) = [c] ->
  is_content_type c = true ->
  Repair fieldNames Parse h = Ok h' ->
  named ContentTransferEncodingFieldName (Fields h')
  = if is_composite c
    then []
    else after_collapse h ContentTransferEncodingFieldName.
Proof.
  intros Hnd Hvalid Hct Hdata Hrun.
  destruct (Repair_first_steps h h' Hnd Hvalid Hrun) as (h4 & h5 & H5 & -> & Hn4).
  set (occ := occurrences_of (Fields h)) in *.
  destruct (remove_sender_mirror_named occ h5 ContentTransferEncodingFieldName)
    as (_ & _ & _ & Hn6).
  rewrite Hn6 by discriminate. clear Hn6.
  assert (Hct4 : named ContentTypeFieldName (Fields h4) = [c]).
  { rewrite Hn4; [|discriminate | right; rewrite Hct; cbn; lia].
    rewrite after_collapse_single by (rewrite Hct; cbn; lia). exact Hct. }
  assert (He4 : named ContentTransferEncodingFieldName (Fields h4)
                = after_collapse h ContentTransferEncodingFieldName).
  { apply Hn4; [discriminate|].
    left. simpl. intros [H|[H|[H|[H|[H|[]]]]]]; discriminate. }
  unfold suppress_transfer_encoding in H5.
  destruct (0 <? count_of occ ContentTransferEncodingFieldName) eqn:Hcount.
  - unfold ContentType_of, field in H5. rewrite field_of_named, Hct4 in H5.
    cbn [lookup list_lookup] in H5. unfold is_content_type in Hdata.
    destruct (Field.data c) as [| t s ps |] eqn:Hd; try discriminate.
    cbn [bind andr orr] in H5. unfold is_composite.
    destruct (String.eqb (ct_Type c) "multipart"); cbn [bind orb] in H5 |- *.
    + injection H5 as <-. cbn [set_Fields Fields]. apply named_RemoveAllNamed_same.
    + destruct (String.eqb (ct_Type c) "message"); injection H5 as <-.
      * cbn [set_Fields Fields]. apply named_RemoveAllNamed_same.
      * exact He4.
  - injection H5 as <-. rewrite He4.
    apply Nat.ltb_ge in Hcount. subst occ. rewrite count_of_occurrences in Hcount.
    rewrite after_collapse_single by lia.
    destruct (named ContentTransferEncodingFieldName (Fields h));
      [now destruct (is_composite c) | cbn in Hcount; lia].
Qed.

End RepairTail.

(** X18, on [sender_not_in_from]: the first Sender field has two
    addresses. *)
Lemma Repair_sender_witness :
  exists h',
    Repair example_field_names reparse sender_not_in_from = Ok h'
    /\ named SenderFieldName (Fields h') = [].
Proof.
  eexists. split; [vm_compute; reflexivity|].
  refine (Repair_sender example_field_names reparse (fun _ _ => eq_refl)
            sender_not_in_from _ _ eq_refl eq_refl).
  distinct_addresses.
Defined.

(** X19, on [multipart_two_encodings]. *)
Lemma Repair_transfer_encoding_witness :
  exists h',
    Repair example_field_names reparse multipart_two_encodings = Ok h'
    /\ named ContentTransferEncodingFieldName (Fields h') = [].
Proof.
  eexists. split; [vm_compute; reflexivity|].
  refine (Repair_transfer_encoding example_field_names reparse (fun _ _ => eq_refl)
            multipart_two_encodings _ _ _ eq_refl eq_refl eq_refl eq_refl).
  distinct_addresses.
Defined.

(** ** Further properties of the parser *)

Lemma test_byte_Ok (s : string) (k : nat) (p : ascii -> bool) (b : bool) :
  test_byte s k p = Ok b -> exists c, String.get k s = Some c /\ p c = b.
Proof.
  unfold test_byte, byte_at. destruct (String.get k s) as [c|]; [|discriminate].
  cbn [bind]. intros [= <-]. eauto.
Qed.

Lemma get_Some_lt (s : string) (k : nat) (c : ascii) :
  String.get k s = Some c -> k < String.length s.
Proof.
  intros Hk. destruct (decide (k < String.length s)) as [|Hge]; [assumption|].
  rewrite get_ge in Hk by lia. discriminate.
Qed.

Lemma slice_Ok (s t : string) (i j : nat) :
  slice s i j = Ok t ->
  i <= j /\ j <= String.length s /\ t = String.substring i (j - i) s.
Proof.
  unfold slice. destruct (i <=? j) eqn:Hij; [|discriminate].
  destruct (j <=? String.length s) eqn:Hj; [|discriminate].
  intros [= <-]. apply Nat.leb_le in Hij, Hj. auto.
Qed.

(** The bytes of [s[i:j]] are the bytes of [s] from [i] on. *)
Lemma get_slice (s t : string) (i j k : nat) :
  slice s i j = Ok t ->
  String.get k t = if k <? j - i then String.get (i + k) s else None.
Proof.
  intros Ht. apply slice_Ok in Ht as (Hij & Hj & ->).
  destruct (k <? j - i) eqn:Hk.
  - apply Nat.ltb_lt in Hk. rewrite substring_correct1 by assumption.
    f_equal. lia.
  - apply Nat.ltb_ge in Hk. now apply substring_correct2.
Qed.

Lemma token_cond_true (s : string) (k : nat) :
  token_cond s (String.length s) k = Ok true ->
  exists c, String.get k s = Some c /\ token_byte c = true.
Proof.
  unfold token_cond, not_byte. intros H.
  apply andr_true in H as [H H3]. apply andr_true in H as [H H2].
  apply andr_true in H as [_ H1].
  apply test_byte_Ok in H1 as (c & Hc & H1).
  apply test_byte_Ok in H2 as (c2 & Hc2 & H2).
  apply test_byte_Ok in H3 as (c3 & Hc3 & H3).
  rewrite Hc in Hc2, Hc3. injection Hc2 as <-. injection Hc3 as <-.
  exists c. split; [assumption|]. unfold token_byte. now rewrite H1, H2, H3.
Qed.

Lemma blank_cond_false (s : string) (k : nat) :
  blank_cond s k = Ok false ->
  exists c, String.get k s = Some c /\ is_blank c = false.
Proof.
  unfold blank_cond, orr, is_byte. intros H.
  apply bind_Ok in H as (b & Hb & H). destruct b; [discriminate|].
  apply test_byte_Ok in Hb as (c & Hc & Hb).
  apply test_byte_Ok in H as (c' & Hc' & H).
  rewrite Hc in Hc'. injection Hc' as <-.
  exists c. split; [assumption|]. unfold is_blank. now rewrite Hb, H.
Qed.

(** Where line 66 goes on: not at the end, and at a line feed only when a
    space or a tab follows. *)
Lemma value_cond_true (s : string) (k : nat) :
  value_cond s (String.length s) k = Ok true ->
  exists c, String.get k s = Some c
    /\ (c = LF -> exists c', String.get (S k) s = Some c' /\ is_blank c' = true).
Proof.
  unfold value_cond, not_byte, is_byte. intros H.
  apply andr_true in H as [_ H]. unfold orr at 1 in H.
  apply bind_Ok in H as (b & Hb & H).
  apply test_byte_Ok in Hb as (c & Hc & Hb). exists c. split; [assumption|].
  intros ->. rewrite Ascii.eqb_refl in Hb. cbn [negb] in Hb. subst b.
  apply andr_true in H as [_ H]. unfold orr in H.
  apply bind_Ok in H as (b & Hb & H). rewrite Nat.add_1_r in *.
  apply test_byte_Ok in Hb as (c' & Hc' & Hb). exists c'. split; [assumption|].
  unfold is_blank. destruct b; [now rewrite Hb|].
  apply test_byte_Ok in H as (c'' & Hc'' & H). rewrite Hc' in Hc''.
  injection Hc'' as <-. now rewrite H, orb_true_r.
Qed.

(** Where line 66 stops: at the end, or at a line feed that no space or tab
    follows. *)
Lemma value_cond_false (s : string) (k : nat) :
  value_cond s (String.length s) k = Ok false ->
  String.length s <= k
  \/ String.get k s = Some LF.
Proof.
  unfold value_cond, not_byte, is_byte, andr at 1. intros H.
  apply bind_Ok in H as (b & Hb & H). injection Hb as <-.
  destruct (k <? String.length s) eqn:Hk; [|left; now apply Nat.ltb_ge].
  right. unfold orr at 1 in H. apply bind_Ok in H as (b & Hb & H).
  apply test_byte_Ok in Hb as (c & Hc & Hb). destruct b; [discriminate|].
  apply negb_false_iff, Ascii.eqb_eq in Hb. now subst c.
Qed.

Section ParserShape.

Variable simplify : string -> string.
Variable NewHeaderField : nat -> string -> string -> Field.t.

(** A turn of the loop leaves the header as it is or adds one field, built
    from a token and a folded value that pass the test of line 74. *)
Lemma ReadHeader_iter_adds (s : string) (m : HeaderMode) (i i' : nat)
    (done done' : bool) (h h' : Header) :
  ReadHeader_iter simplify NewHeaderField s m (i, done, h) = Ok (i', done', h') ->
  h' = h
  \/ exists name value,
       is_token name /\ folded value /\ kept simplify (name, value) = true
       /\ h' = Add h (NewHeaderField (length (Fields h)) name value).
Proof.
  unfold ReadHeader_iter. cbv beta iota zeta. intros H.
  bind_inv H bom Hbom. bind_inv H j Hj. bind_inv H mbox Hmbox.
  set (i0 := if bom then i + 3 else i) in *.
  apply scan_Ok in Hj as (Hij & _ & Htok).
  destruct mbox.
  { bind_inv H i1 Hi1. bind_inv H i2 Hi2. bind_inv H lf Hlf.
    injection H as _ _ <-. now left. }
  bind_inv H fld Hfld. destruct fld; [|injection H as _ _ <-; now left].
  bind_inv H name Hname. bind_inv H iv Hiv. bind_inv H jv Hjv.
  bind_inv H cr Hcr. bind_inv H value Hvalue. bind_inv H crlf Hcrlf.
  injection H as _ _ <-.
  match goal with
  | |- context [if ?b then Add _ _ else _] =>
      change b with (kept simplify (name, value))
  end.
  destruct (kept simplify (name, value)) eqn:Hkept; [right | now left].
  exists name, value. split; [|split; [|auto]].
  - (* the name is a token *)
    apply andr_true in Hfld as [Hlt _]. injection Hlt as Hlt. apply Nat.ltb_lt in Hlt.
    split.
    + intros ->. pose proof (get_slice _ _ _ _ 0 Hname) as Hget.
      replace (0 <? j - i0) with true in Hget by (symmetry; apply Nat.ltb_lt; lia).
      rewrite Nat.add_0_r in Hget.
      destruct (token_cond_true s i0 (Htok i0 ltac:(lia))) as (c & Hc & _).
      rewrite Hc in Hget. discriminate.
    + intros k c Hk. rewrite (get_slice _ _ _ _ k Hname) in Hk.
      destruct (k <? j - i0) eqn:Hkj; [|discriminate]. apply Nat.ltb_lt in Hkj.
      destruct (token_cond_true s (i0 + k) (Htok (i0 + k) ltac:(lia))) as (c' & Hc' & Ht).
      congruence.
  - (* the value is folded *)
    apply scan_Ok in Hiv as (_ & Hblank & _).
    apply scan_Ok in Hjv as (Hle & Hstop & Hvalue_cond).
    set (jv' := if cr then jv - 1 else jv) in *.
    assert (Hjv' : jv' <= jv) by (subst jv'; destruct cr; lia).
    split.
    + intros c Hc. rewrite (get_slice _ _ _ _ 0 Hvalue) in Hc.
      destruct (0 <? jv' - iv); [|discriminate]. rewrite Nat.add_0_r in Hc.
      apply blank_cond_false in Hblank as (c' & Hc' & Hb). congruence.
    + intros k Hk. rewrite (get_slice _ _ _ _ k Hvalue) in Hk.
      destruct (k <? jv' - iv) eqn:Hkj; [|discriminate]. apply Nat.ltb_lt in Hkj.
      destruct (value_cond_true s (iv + k) (Hvalue_cond (iv + k) ltac:(lia)))
        as (c & Hc & Hfold).
      rewrite Hk in Hc. injection Hc as <-.
      destruct (Hfold eq_refl) as (c' & Hc' & Hblank').
      exists c'. split; [|assumption].
      rewrite (get_slice _ _ _ _ (S k) Hvalue).
      replace (iv + S k) with (S (iv + k)) by lia. rewrite Hc'.
      replace (S k <? jv' - iv) with true; [reflexivity|].
      symmetry. apply Nat.ltb_lt.
      (* the blank after the line feed lies inside the value *)
      assert (Hin : S (iv + k) <> jv').
      { intros Heq. subst jv'. destruct cr.
        - apply andr_true in Hcr as [_ Hcr]. unfold is_byte in Hcr.
          apply test_byte_Ok in Hcr as (x & Hx & Hcr). apply Ascii.eqb_eq in Hcr.
          subst x. rewrite <- Heq, Hc' in Hx. injection Hx as ->. discriminate.
        - apply value_cond_false in Hstop as [Hend|Hlf].
          + apply get_Some_lt in Hc'. lia.
          + rewrite <- Heq, Hc' in Hlf. injection Hlf as ->. discriminate. }
      lia.
Qed.

End ParserShape.

Section ParserResult.

Variable simplify : string -> string.
Variable NewHeaderField : nat -> string -> string -> Field.t.

Lemma ReadHeader_loop_pairs (fuel : nat) (s : string) (m : HeaderMode) (i : nat)
    (done : bool) (h h' : Header) :
  ReadHeader_loop simplify NewHeaderField fuel s m (i, done, h) = Ok h' ->
  mode h' = mode h /\ err h' = err h /\ verified h' = verified h
  /\ exists pairs,
       Forall (well_formed_pair simplify) pairs
       /\ Fields h'
          = Fields h
            ++ imap (fun k nv => NewHeaderField (length (Fields h) + k) nv.1 nv.2) pairs.
Proof.
  revert i done h. induction fuel as [|fuel IH]; intros i done h; cbn [ReadHeader_loop].
  - destruct done; [|discriminate]. intros [= <-]. repeat split.
    exists []. split; [constructor | now rewrite app_nil_r].
  - destruct done.
    { intros [= <-]. repeat split. exists []. split; [constructor | now rewrite app_nil_r]. }
    intros H. bind_inv H st Hiter. destruct st as [[i1 done1] h1].
    apply ReadHeader_iter_adds in Hiter.
    apply IH in H as (Hmode & Herr & Hver & pairs & Hwf & Hfields).
    destruct Hiter as [->|(name & value & Hname & Hvalue & Hkept & ->)].
    + repeat split; try assumption. eauto.
    + cbn [Add mode err verified Fields] in *. repeat split; try assumption.
      exists ((name, value) :: pairs).
      split; [constructor; [unfold well_formed_pair; auto | assumption]|].
      rewrite Hfields, <- app_assoc. cbn [imap app fst snd]. rewrite Nat.add_0_r.
      do 2 f_equal. apply imap_ext. intros k nv _. cbn.
      f_equal. rewrite length_app. simpl. lia.
Qed.

(** X12: the header [ReadHeader] returns has the mode it was called with and
    no cached verdict, and its fields are the objects the factory builds, one
    after the other, from pairs that pass line 74 and whose name is a
    non-empty token (bytes 33 to 127 without the colon) and whose value is
    cut as lines 59 and 66 cut it: it does not begin with a space or a tab,
    and each of its line feeds is followed by one. *)
Theorem ReadHeader_builds_from_tokens (s : string) (m : HeaderMode) (h : Header)
    (e : option string) :
  ReadHeader simplify NewHeaderField s m = Ok (h, e) ->
  mode h = m /\ err h = None /\ verified h = false
  /\ exists pairs,
       Forall (well_formed_pair simplify) pairs
       /\ Fields h = allocate NewHeaderField pairs.
Proof.
  unfold ReadHeader. intros H. bind_inv H h0 Hloop. injection H as <- _.
  apply ReadHeader_loop_pairs in Hloop as (Hmode & Herr & Hver & pairs & Hwf & Hfields).
  cbn [mode err verified Fields length app Nat.add] in *. repeat split; try assumption.
  exists pairs. split; [assumption|]. exact Hfields.
Qed.

Lemma allocated_addresses (pairs : list (string * string)) (n : nat) :
  (forall p name value, Field.ptr (NewHeaderField p name value) = p) ->
  map Field.ptr (imap (fun k nv => NewHeaderField (n + k) nv.1 nv.2) pairs)
  = seq n (length pairs).
Proof.
  intros Hptr. revert n. induction pairs as [|nv pairs IH]; intros n; [reflexivity|].
  cbn [imap map length seq]. rewrite Hptr, Nat.add_0_r. f_equal.
  rewrite <- IH. f_equal. apply imap_ext. intros k x _. cbn. f_equal. lia.
Qed.

(** X13: the fields [ReadHeader] returns are distinct objects: with a
    factory that allocates at the address it is given, the address of the
    field at index [k] is [k]. *)
Theorem ReadHeader_fields_distinct (s : string) (m : HeaderMode) (h : Header)
    (e : option string) :
  (forall p name value, Field.ptr (NewHeaderField p name value) = p) ->
  ReadHeader simplify NewHeaderField s m = Ok (h, e) ->
  map Field.ptr (Fields h) = seq 0 (length (Fields h))
  /\ NoDup (map Field.ptr (Fields h)).
Proof.
  intros Hptr Hrun.
  apply ReadHeader_builds_from_tokens in Hrun as (_ & _ & _ & pairs & _ & Hfields).
  assert (Hseq : map Field.ptr (Fields h) = seq 0 (length (Fields h))).
  { rewrite Hfields. unfold allocate. rewrite length_imap.
    exact (allocated_addresses pairs 0 Hptr). }
  split; [assumption|]. rewrite Hseq. apply NoDup_ListNoDup, List.seq_NoDup.
Qed.

End ParserResult.

(** ** Reading a rendered header *)

Lemma append_cons (c : ascii) (a b : string) :
  String c a +:+ b = String c (a +:+ b).
Proof. reflexivity. Qed.

Lemma length_append (a b : string) :
  String.length (a +:+ b) = String.length a + String.length b.
Proof.
  induction a as [|c a IH]; [reflexivity|].
  rewrite append_cons. cbn. f_equal. exact IH.
Qed.

Lemma get_append_l (a b : string) (k : nat) :
  k < String.length a -> String.get k (a +:+ b) = String.get k a.
Proof. intros Hk. symmetry. now apply append_correct1. Qed.

Lemma get_append_r (a b : string) (k : nat) :
  String.get (String.length a + k) (a +:+ b) = String.get k b.
Proof. rewrite Nat.add_comm. symmetry. apply append_correct2. Qed.

Lemma substring_append_r (a b : string) (i n : nat) :
  String.substring (String.length a + i) n (a +:+ b) = String.substring i n b.
Proof.
  induction a as [|c a IH]; [reflexivity | rewrite append_cons; exact IH].
Qed.

Lemma substring_append_l (a b : string) :
  String.substring 0 (String.length a) (a +:+ b) = a.
Proof.
  induction a as [|c a IH]; [now destruct b|].
  rewrite append_cons. cbn. f_equal. exact IH.
Qed.

Lemma append_assoc (a b c : string) : (a +:+ b) +:+ c = a +:+ b +:+ c.
Proof.
  induction a as [|x a IH]; [reflexivity|].
  rewrite !append_cons. f_equal. exact IH.
Qed.

Lemma byte_at_get (s : string) (k : nat) (c : ascii) :
  String.get k s = Some c -> byte_at s k = Ok c.
Proof. unfold byte_at. now intros ->. Qed.

Lemma is_byte_eval (s : string) (k : nat) (c x : ascii) :
  String.get k s = Some c -> is_byte s k x = Ok (Ascii.eqb c x).
Proof. intros Hc. unfold is_byte, test_byte. now rewrite (byte_at_get _ _ _ Hc). Qed.

Lemma token_cond_eval (s : string) (k : nat) (c : ascii) :
  String.get k s = Some c -> token_cond s (String.length s) k = Ok (token_byte c).
Proof.
  intros Hc. unfold token_cond, not_byte, test_byte, token_byte.
  rewrite (byte_at_get _ _ _ Hc). apply get_Some_lt, Nat.ltb_lt in Hc. rewrite Hc.
  cbn [andr bind].
  destruct (33 <=? nat_of_ascii c); cbn [andb]; [|reflexivity].
  now destruct (nat_of_ascii c <=? 127).
Qed.

Lemma token_cond_end (s : string) (k : nat) :
  String.length s <= k -> token_cond s (String.length s) k = Ok false.
Proof.
  intros Hk. unfold token_cond. apply Nat.ltb_ge in Hk. now rewrite Hk.
Qed.

Lemma blank_cond_eval (s : string) (k : nat) (c : ascii) :
  String.get k s = Some c -> blank_cond s k = Ok (is_blank c).
Proof.
  intros Hc. unfold blank_cond, is_blank. rewrite !(is_byte_eval _ _ _ _ Hc).
  cbn [orr bind]. now destruct (Ascii.eqb c SP).
Qed.

Lemma get_None_ge (s : string) (k : nat) :
  String.get k s = None -> String.length s <= k.
Proof.
  revert k. induction s as [|x s IH]; intros k Hk; cbn; [lia|].
  destruct k as [|k]; [discriminate|]. cbn in Hk. apply IH in Hk. lia.
Qed.

Lemma value_cond_eval (s : string) (k : nat) (c : ascii) :
  String.get k s = Some c ->
  value_cond s (String.length s) k
  = Ok (negb (Ascii.eqb c LF)
        || match String.get (S k) s with
           | Some c' => is_blank c'
           | None => false
           end).
Proof.
  intros Hc. unfold value_cond. unfold not_byte, test_byte at 1.
  rewrite (byte_at_get _ _ _ Hc).
  pose proof (get_Some_lt _ _ _ Hc) as Hlt. apply Nat.ltb_lt in Hlt. rewrite Hlt.
  rewrite Nat.add_1_r.
  destruct (String.get (S k) s) as [c'|] eqn:Hc'.
  - rewrite !(is_byte_eval _ _ _ _ Hc'). apply get_Some_lt, Nat.ltb_lt in Hc'.
    rewrite Hc'. unfold is_blank. cbn [andr orr bind].
    destruct (Ascii.eqb c LF), (Ascii.eqb c' SP), (Ascii.eqb c' TAB); reflexivity.
  - apply get_None_ge, Nat.ltb_ge in Hc'. rewrite Hc'. cbn [andr orr bind].
    destruct (Ascii.eqb c LF); reflexivity.
Qed.

(** A loop that finds its condition true from [i] up to [j] and false at [j]
    stops at [j]. *)
Lemma scan_to (fuel : nat) (cond : nat -> result bool) (i j : nat) :
  i <= j ->
  (forall k, i <= k < j -> cond k = Ok true) ->
  cond j = Ok false ->
  j - i < fuel ->
  scan fuel cond i = Ok j.
Proof.
  revert i. induction fuel as [|fuel IH]; intros i Hij Htrue Hfalse Hfuel; [lia|].
  cbn [scan]. destruct (decide (i = j)) as [->|Hne].
  - now rewrite Hfalse.
  - rewrite Htrue by lia. cbn [bind]. apply IH; [lia | | assumption | lia].
    intros k Hk. apply Htrue. lia.
Qed.

Lemma get_lt_Some (s : string) (k : nat) :
  k < String.length s -> exists c, String.get k s = Some c.
Proof.
  intros Hk. destruct (String.get k s) as [c|] eqn:Hc; [eauto|].
  apply get_None_ge in Hc. lia.
Qed.

Lemma get_ToLower (s : string) (k : nat) :
  String.get k (ToLower s) = option_map lower_byte (String.get k s).
Proof.
  revert k. induction s as [|c s IH]; intros [|k]; cbn; try reflexivity. apply IH.
Qed.

Lemma token_byte_not_bom (c : ascii) :
  token_byte c = true -> Ascii.eqb c (ascii_of_nat 239) = false.
Proof.
  intros Hc. destruct (Ascii.eqb_spec c (ascii_of_nat 239)) as [->|]; [|reflexivity].
  discriminate.
Qed.

(** The bytes of a field line that follows [pre] and is followed by [next]. *)
Lemma line_bytes (pre name value brk next s : string) :
  s = pre +:+ name +:+ ": " +:+ value +:+ brk +:+ next ->
  String.length s
  = String.length pre + String.length name + 2 + String.length value
    + String.length brk + String.length next
  /\ (forall k, k < String.length name ->
        String.get (String.length pre + k) s = String.get k name)
  /\ String.get (String.length pre + String.length name) s = Some COLON
  /\ String.get (String.length pre + String.length name + 1) s = Some SP
  /\ (forall k, k < String.length value ->
        String.get (String.length pre + String.length name + 2 + k) s
        = String.get k value)
  /\ (forall k,
        String.get (String.length pre + String.length name + 2
                    + String.length value + k) s
        = String.get k (brk +:+ next))
  /\ String.substring (String.length pre) (String.length name) s = name
  /\ String.substring (String.length pre + String.length name + 2)
       (String.length value) s = value.
Proof.
  intros ->. repeat split.
  - rewrite !length_append. cbn. lia.
  - intros k Hk. rewrite get_append_r. now apply get_append_l.
  - rewrite <- Nat.add_0_r at 1. rewrite <- Nat.add_assoc, !get_append_r. reflexivity.
  - rewrite <- !Nat.add_assoc, !get_append_r. reflexivity.
  - intros k Hk. rewrite <- !Nat.add_assoc, !get_append_r.
    change (String.get k (value +:+ brk +:+ next) = String.get k value).
    now apply get_append_l.
  - intros k. rewrite <- !Nat.add_assoc, !get_append_r.
    change (String.get (String.length value + k) (value +:+ brk +:+ next)
            = String.get k (brk +:+ next)).
    apply get_append_r.
  - rewrite <- (Nat.add_0_r (String.length pre)), substring_append_r.
    apply substring_append_l.
  - rewrite <- !Nat.add_assoc, !substring_append_r.
    change (String.substring 0 (String.length value) (value +:+ brk +:+ next) = value).
    apply substring_append_l.
Qed.
Lemma eol_bytes (crlf : bool) (next s : string) (p : nat) :
  (forall k, String.get (p + k) s = String.get k (eol crlf +:+ next)) ->
  let e := if crlf then 1 else 0 in
  String.length (eol crlf) = e + 1
  /\ String.get (p + e) s = Some LF
  /\ (crlf = true -> String.get p s = Some CR)
  /\ String.get (S (p + e)) s = String.get 0 next.
Proof.
  intros H. destruct crlf; cbn zeta.
  - repeat split.
    + apply (H 1).
    + intros _. rewrite <- (Nat.add_0_r p). apply (H 0).
    + replace (S (p + 1)) with (p + 2) by lia. apply (H 2).
  - repeat split.
    + apply (H 0).
    + discriminate.
    + replace (S (p + 0)) with (p + 1) by lia. apply (H 1).
Qed.

Section Rendered.

Variable simplify : string -> string.
Variable NewHeaderField : nat -> string -> string -> Field.t.

(** A turn of the loop on a field line that begins at [length pre], from
    the index [i0] that line 36 moves there. *)
Lemma ReadHeader_iter_field_line_at (crlf : bool) (pre next : string)
    (nv : string * string) (m : HeaderMode) (h : Header) (i0 : nat) (b : bool) :
  renderable crlf nv -> no_continuation next ->
  Ok (i0 + 2 <? String.length (pre +:+ render_field crlf nv +:+ next))
  &&& is_byte (pre +:+ render_field crlf nv +:+ next) i0 (ascii_of_nat 239)
  &&& is_byte (pre +:+ render_field crlf nv +:+ next) (i0 + 1) (ascii_of_nat 187)
  &&& is_byte (pre +:+ render_field crlf nv +:+ next) (i0 + 2) (ascii_of_nat 191)
  = Ok b ->
  (if b then i0 + 3 else i0) = String.length pre ->
  ReadHeader_iter simplify NewHeaderField
    (pre +:+ render_field crlf nv +:+ next) m (i0, false, h)
  = Ok (String.length pre + String.length (render_field crlf nv), false,
        if kept simplify nv
        then Add h (NewHeaderField (length (Fields h)) nv.1 nv.2)
        else h).
Proof.
  destruct nv as [name value].
  intros [[Hne Htok] [[Hhead Hfold] Hcr]] Hnext Hbom Hi0. cbn [fst snd] in *.
  assert (Hlenr : String.length (render_field crlf (name, value))
                  = String.length name + 2 + String.length value
                    + String.length (eol crlf)).
  { unfold render_field. cbn [fst snd]. rewrite !length_append. cbn. lia. }
  rewrite Hlenr.
  remember (pre +:+ render_field crlf (name, value) +:+ next) as s eqn:Hs.
  unfold render_field in Hs. cbn [fst snd] in Hs. rewrite !append_assoc in Hs.
  destruct (line_bytes _ _ _ _ _ _ Hs)
    as (Hlen & Hname & Hcolon & Hsp & Hvalue & Hbrk & Hsubn & Hsubv).
  destruct (eol_bytes _ _ _ _ Hbrk) as (Heol & HLF & HCR & Hafter).
  clear Hs Hbrk.
  set (p0 := String.length pre) in *.
  set (n := String.length name) in *.
  set (v := String.length value) in *.
  set (e := if crlf then 1 else 0) in *.
  assert (Hn : 0 < n).
  { subst n. destruct name; [congruence | cbn; lia]. }
  unfold ReadHeader_iter. cbv beta iota zeta.
  rewrite Hbom. cbn [bind]. rewrite Hi0.
  (* the name *)
  assert (Hj : scan (S (String.length s)) (token_cond s (String.length s)) p0
               = Ok (p0 + n)).
  { apply scan_to; [lia | | | lia].
    - intros k Hk. replace k with (p0 + (k - p0)) by lia.
      destruct (get_lt_Some name (k - p0) ltac:(lia)) as (c & Hc).
      rewrite (token_cond_eval s _ c) by (rewrite Hname by lia; exact Hc).
      now rewrite (Htok _ _ Hc).
    - now rewrite (token_cond_eval _ _ _ Hcolon). }
  rewrite Hj. cbn [bind].
  (* not a mailbox separator *)
  assert (Hmbox : Ok (p0 + n =? p0 + 4)
                  &&& Ok (HeaderMode_eqb m Rfc5322Header)
                  &&& (let* t := slice s p0 (p0 + n + 1) in
                       Ok (String.eqb (ToLower t) "from ")) = Ok false).
  { destruct (p0 + n =? p0 + 4) eqn:Hn4; [|reflexivity].
    destruct (HeaderMode_eqb m Rfc5322Header); [|reflexivity].
    cbn [andr bind]. apply Nat.eqb_eq in Hn4.
    destruct (slice s p0 (p0 + n + 1)) as [t| |] eqn:Ht.
    - cbn [bind]. f_equal. apply String.eqb_neq. intros Hfrom.
      pose proof (get_ToLower t 4) as Hget.
      rewrite (get_slice _ _ _ _ 4 Ht), Hfrom in Hget.
      replace (4 <? p0 + n + 1 - p0) with true in Hget
        by (symmetry; apply Nat.ltb_lt; lia).
      replace (p0 + 4) with (p0 + n) in Hget by lia.
      rewrite Hcolon in Hget. discriminate.
    - unfold slice in Ht.
      replace (p0 <=? p0 + n + 1) with true in Ht by (symmetry; apply Nat.leb_le; lia).
      replace (p0 + n + 1 <=? String.length s) with true in Ht
        by (symmetry; apply Nat.leb_le; lia).
      discriminate.
    - unfold slice in Ht. destruct (_ && _) in Ht; discriminate. }
  rewrite Hmbox. cbn [bind].
  (* a field line *)
  assert (Hfld : Ok (p0 <? p0 + n) &&& is_byte s (p0 + n) COLON = Ok true).
  { replace (p0 <? p0 + n) with true by (symmetry; apply Nat.ltb_lt; lia).
    now rewrite (is_byte_eval _ _ _ _ Hcolon). }
  rewrite Hfld. cbn [bind].
  assert (Hslice : slice s p0 (p0 + n) = Ok name).
  { unfold slice.
    replace (p0 <=? p0 + n) with true by (symmetry; apply Nat.leb_le; lia).
    replace (p0 + n <=? String.length s) with true by (symmetry; apply Nat.leb_le; lia).
    cbn [andb]. replace (p0 + n - p0) with n by lia. now rewrite Hsubn. }
  rewrite Hslice. cbn [bind].
  (* the space after the colon, and the byte after it *)
  assert (Hfirst : exists c, String.get (p0 + n + 2) s = Some c /\ is_blank c = false).
  { destruct (decide (0 < v)) as [Hv|Hv].
    - destruct (get_lt_Some value 0 Hv) as (c & Hc). exists c. split; [|eauto].
      rewrite <- (Nat.add_0_r (p0 + n + 2)). now rewrite Hvalue.
    - assert (v = 0) as Hv0 by lia. destruct crlf.
      + exists CR. split; [|reflexivity]. rewrite <- (HCR eq_refl). f_equal. lia.
      + exists LF. split; [|reflexivity]. rewrite <- HLF. f_equal. subst e. lia. }
  destruct Hfirst as (c1 & Hc1 & Hb1).
  assert (Hiv : scan (S (String.length s)) (blank_cond s) (p0 + n + 1)
                = Ok (p0 + n + 2)).
  { apply scan_to; [lia | | | lia].
    - intros k Hk. replace k with (p0 + n + 1) by lia.
      now rewrite (blank_cond_eval _ _ _ Hsp).
    - now rewrite (blank_cond_eval _ _ _ Hc1), Hb1. }
  rewrite Hiv. cbn [bind].
  (* the value *)
  assert (Hjv : scan (S (String.length s)) (value_cond s (String.length s))
                  (p0 + n + 2)
                = Ok (p0 + n + 2 + v + e)).
  { apply scan_to; [lia | | | lia].
    - intros k Hk. destruct (decide (k < p0 + n + 2 + v)) as [Hin|Hout].
      + replace k with (p0 + n + 2 + (k - (p0 + n + 2))) by lia.
        set (k' := k - (p0 + n + 2)).
        assert (Hk' : k' < v) by (subst k'; lia).
        destruct (get_lt_Some value k' Hk') as (c & Hc).
        rewrite (value_cond_eval s _ c) by (rewrite Hvalue by lia; exact Hc).
        f_equal. destruct (Ascii.eqb_spec c LF) as [->|]; [|reflexivity].
        destruct (Hfold _ Hc) as (c' & Hc' & Hb').
        replace (S (p0 + n + 2 + k')) with (p0 + n + 2 + S k') by lia.
        rewrite Hvalue by (apply get_Some_lt in Hc'; exact Hc').
        now rewrite Hc', Hb'.
      + assert (crlf = true /\ k = p0 + n + 2 + v) as [-> ->].
        { subst e. destruct crlf; [split; [reflexivity | lia] | lia]. }
        now rewrite (value_cond_eval _ _ _ (HCR eq_refl)).
    - rewrite (value_cond_eval _ _ _ HLF), Hafter. f_equal.
      destruct (String.get 0 next) as [c|] eqn:Hc; [|reflexivity].
      now rewrite (Hnext _ Hc). }
  rewrite Hjv. cbn [bind].
  (* the carriage return before the line feed *)
  assert (Hcrb : Ok (0 <? p0 + n + 2 + v + e)
                 &&& is_byte s (p0 + n + 2 + v + e - 1) CR = Ok crlf).
  { replace (0 <? p0 + n + 2 + v + e) with true by (symmetry; apply Nat.ltb_lt; lia).
    cbn [andr bind]. destruct crlf.
    - replace (p0 + n + 2 + v + e - 1) with (p0 + n + 2 + v) by (subst e; lia).
      now rewrite (is_byte_eval _ _ _ _ (HCR eq_refl)).
    - destruct (decide (0 < v)) as [Hv|Hv].
      + destruct (get_lt_Some value (v - 1) ltac:(lia)) as (c & Hc).
        replace (p0 + n + 2 + v + e - 1) with (p0 + n + 2 + (v - 1)) by (subst e; lia).
        rewrite (is_byte_eval s _ c) by (rewrite Hvalue by lia; exact Hc).
        f_equal. apply Ascii.eqb_neq. intros ->. now apply (Hcr eq_refl).
      + replace (p0 + n + 2 + v + e - 1) with (p0 + n + 1) by (subst e; lia).
        now rewrite (is_byte_eval _ _ _ _ Hsp). }
  rewrite Hcrb. cbn [bind].
  replace (if crlf then p0 + n + 2 + v + e - 1 else p0 + n + 2 + v + e)
    with (p0 + n + 2 + v) by (subst e; destruct crlf; lia).
  assert (Hslicev : slice s (p0 + n + 2) (p0 + n + 2 + v) = Ok value).
  { unfold slice.
    replace (p0 + n + 2 <=? p0 + n + 2 + v) with true by (symmetry; apply Nat.leb_le; lia).
    replace (p0 + n + 2 + v <=? String.length s) with true
      by (symmetry; apply Nat.leb_le; lia).
    cbn [andb]. replace (p0 + n + 2 + v - (p0 + n + 2)) with v by lia.
    now rewrite Hsubv. }
  rewrite Hslicev. cbn [bind].
  (* the line break *)
  assert (Hbrk : Ok (p0 + n + 2 + v + 1 <? String.length s)
                 &&& is_byte s (p0 + n + 2 + v) CR
                 &&& is_byte s (p0 + n + 2 + v + 1) LF = Ok crlf).
  { destruct crlf.
    - replace (p0 + n + 2 + v + 1 <? String.length s) with true
        by (symmetry; apply Nat.ltb_lt; lia).
      rewrite (is_byte_eval _ _ _ _ (HCR eq_refl)), (is_byte_eval _ _ _ _ HLF).
      reflexivity.
    - replace (p0 + n + 2 + v) with (p0 + n + 2 + v + e) at 2 by (subst e; lia).
      rewrite (is_byte_eval _ _ _ _ HLF).
      now destruct (p0 + n + 2 + v + 1 <? String.length s). }
  rewrite Hbrk. cbn [bind].
  f_equal. f_equal. f_equal.
  - rewrite Heol. subst e. destruct crlf; lia.
  - replace (String.length s <=? i0) with false; [reflexivity|].
    symmetry. apply Nat.leb_gt. destruct b; lia.
Qed.

Lemma ReadHeader_iter_field_line (crlf : bool) (pre next : string)
    (nv : string * string) (m : HeaderMode) (h : Header) :
  renderable crlf nv -> no_continuation next ->
  ReadHeader_iter simplify NewHeaderField
    (pre +:+ render_field crlf nv +:+ next) m (String.length pre, false, h)
  = Ok (String.length pre + String.length (render_field crlf nv), false,
        if kept simplify nv
        then Add h (NewHeaderField (length (Fields h)) nv.1 nv.2)
        else h).
Proof.
  intros Hnv Hnext.
  apply (ReadHeader_iter_field_line_at crlf pre next nv m h _ false Hnv Hnext);
    [|reflexivity].
  destruct nv as [name value]. destruct Hnv as [[Hne Htok] _]. cbn [fst snd] in *.
  destruct name as [|x name]; [congruence|].
  set (s := pre +:+ _).
  assert (Hx : String.get (String.length pre) s = Some x).
  { subst s. rewrite <- (Nat.add_0_r (String.length pre)), get_append_r.
    unfold render_field. cbn [fst snd]. rewrite !append_assoc. reflexivity. }
  rewrite (is_byte_eval _ _ _ _ Hx), (token_byte_not_bom x (Htok 0 x eq_refl)).
  now destruct (String.length pre + 2 <? String.length s).
Qed.

(** At the end of the input, or at a line that begins with CR or LF, the
    loop stops and leaves the header as it is. *)
Lemma ReadHeader_iter_stop_at (pre tail : string) (m : HeaderMode) (done : bool)
    (h : Header) (i0 : nat) (b : bool) :
  ends_header tail ->
  Ok (i0 + 2 <? String.length (pre +:+ tail))
  &&& is_byte (pre +:+ tail) i0 (ascii_of_nat 239)
  &&& is_byte (pre +:+ tail) (i0 + 1) (ascii_of_nat 187)
  &&& is_byte (pre +:+ tail) (i0 + 2) (ascii_of_nat 191)
  = Ok b ->
  (if b then i0 + 3 else i0) = String.length pre ->
  ReadHeader_iter simplify NewHeaderField (pre +:+ tail) m (i0, done, h)
  = Ok (String.length pre, true, h).
Proof.
  intros Htail Hbom Hi0. set (s := pre +:+ tail) in *.
  set (p0 := String.length pre) in *.
  assert (Hget : String.get p0 s = String.get 0 tail).
  { subst s p0. rewrite <- (Nat.add_0_r (String.length pre)). apply get_append_r. }
  unfold ReadHeader_iter. cbv beta iota zeta.
  rewrite Hbom. cbn [bind]. rewrite Hi0.
  assert (Hj : scan (S (String.length s)) (token_cond s (String.length s)) p0 = Ok p0).
  { apply scan_to; [lia | intros k Hk; lia | | lia].
    destruct (String.get p0 s) as [c|] eqn:Hc.
    - rewrite (token_cond_eval _ _ _ Hc). symmetry in Hget.
      now destruct (Htail _ Hget) as [->| ->].
    - apply token_cond_end. now apply get_None_ge. }
  rewrite Hj. cbn [bind].
  replace (p0 =? p0 + 4) with false by (symmetry; apply Nat.eqb_neq; lia).
  rewrite Nat.ltb_irrefl. reflexivity.
Qed.

Lemma ReadHeader_iter_stop (pre tail : string) (m : HeaderMode) (done : bool)
    (h : Header) :
  ends_header tail ->
  ReadHeader_iter simplify NewHeaderField (pre +:+ tail) m (String.length pre, done, h)
  = Ok (String.length pre, true, h).
Proof.
  intros Htail.
  apply (ReadHeader_iter_stop_at pre tail m done h _ false Htail); [|reflexivity].
  set (s := pre +:+ tail).
  destruct (String.length pre + 2 <? String.length s) eqn:Hlt; [|reflexivity].
  apply Nat.ltb_lt in Hlt.
  destruct (get_lt_Some s (String.length pre) ltac:(lia)) as (c & Hc).
  rewrite (is_byte_eval _ _ _ _ Hc).
  subst s. rewrite <- (Nat.add_0_r (String.length pre)), get_append_r in Hc.
  now destruct (Htail _ Hc) as [->| ->].
Qed.

Lemma token_byte_not_blank (c : ascii) : token_byte c = true -> is_blank c = false.
Proof.
  intros Hc. unfold is_blank.
  destruct (Ascii.eqb_spec c SP) as [->|]; [discriminate|].
  destruct (Ascii.eqb_spec c TAB) as [->|]; [discriminate | reflexivity].
Qed.

(** Neither the next field line nor the end of the header continues a
    value. *)
Lemma no_continuation_rest (crlf : bool) (rest : list (string * string))
    (tail : string) :
  Forall (renderable crlf) rest -> ends_header tail ->
  no_continuation (render crlf rest +:+ tail).
Proof.
  intros Hrest Htail c. destruct Hrest as [|[name value] rest [[Hne Htok] _] _].
  - intros Hc. now destruct (Htail _ Hc) as [->| ->].
  - cbn [fst snd] in Hne, Htok.
    cbn [render]. unfold render_field. cbn [fst snd]. rewrite !append_assoc.
    destruct name as [|x name]; [congruence|]. rewrite append_cons.
    intros [= <-]. apply token_byte_not_blank, (Htok 0). reflexivity.
Qed.

Lemma length_render (crlf : bool) (pairs : list (string * string)) :
  length pairs <= String.length (render crlf pairs).
Proof.
  induction pairs as [|nv pairs IH]; cbn [render length]; [lia|].
  unfold render_field. rewrite !length_append. cbn. lia.
Qed.

Lemma ReadHeader_loop_rendered (crlf : bool) (tail : string) (m : HeaderMode)
    (pairs : list (string * string)) (pre : string) (h : Header) (fuel : nat) :
  Forall (renderable crlf) pairs -> ends_header tail ->
  length pairs < fuel ->
  ReadHeader_loop simplify NewHeaderField fuel
    (pre +:+ render crlf pairs +:+ tail) m (String.length pre, false, h)
  = Ok (mkHeader (mode h)
          (Fields h
           ++ imap (fun k nv => NewHeaderField (length (Fields h) + k) nv.1 nv.2)
                (List.filter (kept simplify) pairs))
          (err h) (verified h)).
Proof.
  intros Hpairs Htail. revert pre h fuel.
  induction Hpairs as [|nv pairs Hnv Hpairs IH]; intros pre h fuel Hfuel;
    (destruct fuel as [|fuel]; [cbn in Hfuel; lia|]); cbn [ReadHeader_loop].
  - cbn [render]. change ("" +:+ tail) with tail.
    rewrite ReadHeader_iter_stop by assumption. cbn [bind].
    destruct fuel; cbn [ReadHeader_loop List.filter imap]; rewrite app_nil_r;
      now destruct h.
  - cbn [render]. rewrite append_assoc.
    rewrite ReadHeader_iter_field_line
      by (try assumption; now apply no_continuation_rest).
    cbn [bind]. rewrite <- length_append, <- append_assoc.
    rewrite IH by (cbn [length] in Hfuel; lia).
    cbn [List.filter]. destruct (kept simplify nv); [|reflexivity].
    cbn [Add mode err verified Fields imap]. f_equal. f_equal.
    rewrite <- app_assoc. cbn [app]. rewrite Nat.add_0_r. do 2 f_equal.
    apply imap_ext. intros k x _. cbn. f_equal. rewrite length_app. cbn. lia.
Qed.

(** X14: what is written is read back.  On the fields [pairs] written one
    after the other as name, colon, space, value and line break (CR LF or a
    bare LF), and followed by the end of the input or by a line that begins
    with CR or LF, [ReadHeader] returns without a panic, in either mode, the
    header of that mode whose fields are the objects the factory builds, in
    order, from the pairs that pass line 74, with their names and values
    byte for byte; the error is nil.  The names are non-empty tokens; a
    value does not begin with a space or a tab, each of its line feeds is
    followed by one and, before a bare LF, it does not end in a carriage
    return. *)
Theorem ReadHeader_reads_rendered (crlf : bool) (pairs : list (string * string))
    (tail : string) (m : HeaderMode) :
  Forall (renderable crlf) pairs -> ends_header tail ->
  ReadHeader simplify NewHeaderField (render crlf pairs +:+ tail) m
  = Ok (mkHeader m (allocate NewHeaderField (List.filter (kept simplify) pairs))
          None false,
        None).
Proof.
  intros Hpairs Htail. unfold ReadHeader.
  pose proof (ReadHeader_loop_rendered crlf tail m pairs "" (mkHeader m [] None false)
                (S (String.length (render crlf pairs +:+ tail))) Hpairs Htail) as H.
  change ("" +:+ render crlf pairs +:+ tail) with (render crlf pairs +:+ tail) in H.
  change (String.length "") with 0 in H.
  rewrite H; [reflexivity|].
  rewrite length_append. pose proof (length_render crlf pairs). lia.
Qed.

(** X15: a UTF-8 byte order mark before the header is stepped over (line
    36): with the three bytes EF BB BF in front of the written fields,
    [ReadHeader] returns what it returns without them. *)
Theorem ReadHeader_skips_byte_order_mark (crlf : bool)
    (pairs : list (string * string)) (tail : string) (m : HeaderMode) :
  Forall (renderable crlf) pairs -> ends_header tail ->
  ReadHeader simplify NewHeaderField
    (byte_order_mark +:+ render crlf pairs +:+ tail) m
  = Ok (mkHeader m (allocate NewHeaderField (List.filter (kept simplify) pairs))
          None false,
        None).
Proof.
  intros Hpairs Htail. unfold ReadHeader. cbn [ReadHeader_loop].
  set (h0 := mkHeader m [] None false).
  assert (Hmark : forall rest,
            Ok (0 + 2 <? String.length (byte_order_mark +:+ rest))
            &&& is_byte (byte_order_mark +:+ rest) 0 (ascii_of_nat 239)
            &&& is_byte (byte_order_mark +:+ rest) (0 + 1) (ascii_of_nat 187)
            &&& is_byte (byte_order_mark +:+ rest) (0 + 2) (ascii_of_nat 191)
            = Ok true).
  { intros rest. rewrite length_append.
    replace (0 + 2 <? String.length byte_order_mark + String.length rest) with true;
      [reflexivity|].
    symmetry. apply Nat.ltb_lt. cbn. lia. }
  destruct Hpairs as [|nv rest Hnv Hrest].
  - cbn [render]. change ("" +:+ tail) with tail.
    rewrite (ReadHeader_iter_stop_at byte_order_mark tail m false h0 0 true Htail
               (Hmark tail) eq_refl).
    cbn [bind]. now destruct (String.length _).
  - cbn [render]. rewrite append_assoc.
    rewrite (ReadHeader_iter_field_line_at crlf byte_order_mark
               (render crlf rest +:+ tail) nv m h0 0 true Hnv
               (no_continuation_rest crlf rest tail Hrest Htail) (Hmark _) eq_refl).
    cbn [bind]. rewrite <- length_append, <- append_assoc.
    rewrite ReadHeader_loop_rendered; try assumption.
    + cbn [List.filter]. destruct (kept simplify nv); [|reflexivity].
      reflexivity.
    + rewrite !length_append. pose proof (length_render crlf rest). cbn. lia.
Qed.

End Rendered.

(** ** Mailbox separator lines *)

Lemma lower_letter_token (c : ascii) :
  97 <= nat_of_ascii (lower_byte c) <= 122 -> token_byte c = true.
Proof.
  destruct c as [b0 b1 b2 b3 b4 b5 b6 b7].
  destruct b0, b1, b2, b3, b4, b5, b6, b7; vm_compute; intros [H1 H2];
    first [reflexivity | exfalso; lia].
Qed.

(** The words that lower-case to [from] are made of four token bytes. *)
Lemma from_word (word : string) :
  ToLower word = "from" ->
  String.length word = 4
  /\ (forall k c, String.get k word = Some c -> token_byte c = true)
  /\ ToLower (word +:+ " ") = "from ".
Proof.
  destruct word as [|c1 [|c2 [|c3 [|c4 [|c5 w]]]]]; try discriminate.
  cbn [ToLower]. intros [= H1 H2 H3 H4]. split; [reflexivity|]. split.
  - intros k c Hc.
    destruct k as [|[|[|[|k]]]]; cbn in Hc; try discriminate; injection Hc as <-;
      apply lower_letter_token;
      rewrite ?H1, ?H2, ?H3, ?H4; vm_compute; lia.
  - rewrite !append_cons. cbn [ToLower]. now rewrite H1, H2, H3, H4.
Qed.

(** The bytes of a separator line that follows [pre] and is followed by
    [next]. *)
Lemma separator_bytes (pre word rest brk next s : string) :
  String.length word = 4 ->
  s = pre +:+ word +:+ " " +:+ rest +:+ brk +:+ next ->
  String.length s
  = String.length pre + 5 + String.length rest + String.length brk
    + String.length next
  /\ (forall k, k < 4 -> String.get (String.length pre + k) s = String.get k word)
  /\ String.get (String.length pre + 4) s = Some SP
  /\ (forall k, k < String.length rest ->
        String.get (String.length pre + 5 + k) s = String.get k rest)
  /\ (forall k,
        String.get (String.length pre + 5 + String.length rest + k) s
        = String.get k (brk +:+ next))
  /\ String.substring (String.length pre) 5 s = word +:+ " ".
Proof.
  intros Hword ->. repeat split.
  - rewrite !length_append, Hword. cbn. lia.
  - intros k Hk. rewrite get_append_r. apply get_append_l. lia.
  - replace (String.length pre + 4) with (String.length pre + (String.length word + 0))
      by lia.
    rewrite !get_append_r. reflexivity.
  - intros k Hk. replace 5 with (String.length word + 1) by lia.
    rewrite <- !Nat.add_assoc, !get_append_r.
    change (String.get k (rest +:+ brk +:+ next) = String.get k rest).
    now apply get_append_l.
  - intros k. replace 5 with (String.length word + 1) by lia.
    rewrite <- !Nat.add_assoc, !get_append_r.
    change (String.get (String.length rest + k) (rest +:+ brk +:+ next)
            = String.get k (brk +:+ next)).
    apply get_append_r.
  - rewrite <- (Nat.add_0_r (String.length pre)), substring_append_r.
    rewrite <- (append_assoc word " ").
    replace 5 with (String.length (word +:+ " ")) by (rewrite length_append; cbn; lia).
    apply substring_append_l.
Qed.

Lemma line_cond_eval (s : string) (k : nat) (c : ascii) :
  String.get k s = Some c ->
  line_cond s (String.length s) k
  = Ok (negb (Ascii.eqb c CR) && negb (Ascii.eqb c LF)).
Proof.
  intros Hc. unfold line_cond, not_byte, test_byte.
  rewrite (byte_at_get _ _ _ Hc). apply get_Some_lt, Nat.ltb_lt in Hc. rewrite Hc.
  cbn [andr bind]. now destruct (Ascii.eqb c CR).
Qed.

Section Separator.

Variable simplify : string -> string.
Variable NewHeaderField : nat -> string -> string -> Field.t.

(** In [Rfc5322Header] mode a turn of the loop steps over a separator
    line. *)
Lemma ReadHeader_iter_separator (crlf : bool) (pre word rest next : string)
    (h : Header) :
  ToLower word = "from" -> one_line rest ->
  ReadHeader_iter simplify NewHeaderField
    (pre +:+ separator_line crlf word rest +:+ next) Rfc5322Header
    (String.length pre, false, h)
  = Ok (String.length pre + String.length (separator_line crlf word rest), false, h).
Proof.
  intros Hfrom Hrest.
  destruct (from_word _ Hfrom) as (Hword & Htok & Hlower).
  assert (Hlenl : String.length (separator_line crlf word rest)
                  = 5 + String.length rest + String.length (eol crlf)).
  { unfold separator_line. rewrite !length_append, Hword. cbn. lia. }
  rewrite Hlenl.
  remember (pre +:+ separator_line crlf word rest +:+ next) as s eqn:Hs.
  unfold separator_line in Hs. rewrite !append_assoc in Hs.
  destruct (separator_bytes _ _ _ _ _ _ Hword Hs)
    as (Hlen & Hw & Hsp & Hr & Hbrk & Hsub).
  destruct (eol_bytes _ _ _ _ Hbrk) as (Heol & HLF & HCR & _).
  clear Hs Hbrk.
  set (p0 := String.length pre) in *.
  set (r := String.length rest) in *.
  set (e := if crlf then 1 else 0) in *.
  destruct (get_lt_Some word 0 ltac:(lia)) as (c0 & Hc0).
  pose proof (Htok _ _ Hc0) as Ht0.
  pose proof (Hw 0 ltac:(lia)) as Hs0. rewrite Nat.add_0_r, Hc0 in Hs0.
  unfold ReadHeader_iter. cbv beta iota zeta.
  assert (Hbom : Ok (p0 + 2 <? String.length s)
                 &&& is_byte s p0 (ascii_of_nat 239)
                 &&& is_byte s (p0 + 1) (ascii_of_nat 187)
                 &&& is_byte s (p0 + 2) (ascii_of_nat 191) = Ok false).
  { rewrite (is_byte_eval _ _ _ _ Hs0), (token_byte_not_bom _ Ht0).
    now destruct (p0 + 2 <? String.length s). }
  rewrite Hbom. cbn [bind].
  (* the word *)
  assert (Hj : scan (S (String.length s)) (token_cond s (String.length s)) p0
               = Ok (p0 + 4)).
  { apply scan_to; [lia | | | lia].
    - intros k Hk. replace k with (p0 + (k - p0)) by lia.
      destruct (get_lt_Some word (k - p0) ltac:(lia)) as (c & Hc).
      rewrite (token_cond_eval s _ c) by (rewrite Hw by lia; exact Hc).
      now rewrite (Htok _ _ Hc).
    - now rewrite (token_cond_eval _ _ _ Hsp). }
  rewrite Hj. cbn [bind].
  (* the test of line 44 *)
  assert (Hslice : slice s p0 (p0 + 4 + 1) = Ok (word +:+ " ")).
  { unfold slice.
    replace (p0 <=? p0 + 4 + 1) with true by (symmetry; apply Nat.leb_le; lia).
    replace (p0 + 4 + 1 <=? String.length s) with true
      by (symmetry; apply Nat.leb_le; lia).
    cbn [andb]. replace (p0 + 4 + 1 - p0) with 5 by lia. now rewrite Hsub. }
  rewrite Nat.eqb_refl, Hslice. cbn [HeaderMode_eqb andr bind]. rewrite Hlower.
  cbn [String.eqb]. rewrite !Ascii.eqb_refl.
  (* to the end of the line *)
  assert (Hi1 : scan (S (String.length s)) (line_cond s (String.length s)) p0
                = Ok (p0 + 5 + r)).
  { apply scan_to; [lia | | | lia].
    - intros k Hk. destruct (decide (k < p0 + 4)) as [Hin|Hout].
      + replace k with (p0 + (k - p0)) by lia.
        destruct (get_lt_Some word (k - p0) ltac:(lia)) as (c & Hc).
        rewrite (line_cond_eval s _ c) by (rewrite Hw by lia; exact Hc).
        pose proof (Htok _ _ Hc) as Ht.
        destruct (Ascii.eqb_spec c CR) as [->|]; [discriminate|].
        destruct (Ascii.eqb_spec c LF) as [->|]; [discriminate | reflexivity].
      + destruct (decide (k = p0 + 4)) as [->|Hne].
        * now rewrite (line_cond_eval _ _ _ Hsp).
        * replace k with (p0 + 5 + (k - (p0 + 5))) by lia.
          destruct (get_lt_Some rest (k - (p0 + 5)) ltac:(lia)) as (c & Hc).
          rewrite (line_cond_eval s _ c) by (rewrite Hr by lia; exact Hc).
          destruct (Hrest (k - (p0 + 5))) as [Hcr Hlf].
          destruct (Ascii.eqb_spec c CR) as [->|]; [congruence|].
          destruct (Ascii.eqb_spec c LF) as [->|]; [congruence | reflexivity].
    - destruct crlf.
      + now rewrite (line_cond_eval _ _ _ (HCR eq_refl)).
      + replace (p0 + 5 + r) with (p0 + 5 + r + e) by (subst e; lia).
        now rewrite (line_cond_eval _ _ _ HLF). }
  rewrite Hi1. cbn [bind].
  (* the carriage returns, then the line feed *)
  assert (Hi2 : scan (S (String.length s)) (fun i => is_byte s i CR) (p0 + 5 + r)
                = Ok (p0 + 5 + r + e)).
  { apply scan_to; [lia | | | subst e; destruct crlf; lia].
    - intros k Hk. assert (crlf = true /\ k = p0 + 5 + r) as [-> ->].
      { subst e. destruct crlf; [split; [reflexivity | lia] | lia]. }
      now rewrite (is_byte_eval _ _ _ _ (HCR eq_refl)).
    - now rewrite (is_byte_eval _ _ _ _ HLF). }
  rewrite Hi2. cbn [bind].
  rewrite (is_byte_eval _ _ _ _ HLF). cbn [bind]. rewrite Ascii.eqb_refl.
  f_equal. f_equal. f_equal.
  - rewrite Heol. lia.
  - replace (String.length s <=? p0) with false; [reflexivity|].
    symmetry. apply Nat.leb_gt. lia.
Qed.

(** X16: in [Rfc5322Header] mode the mbox separator line before the header
    is stepped over (lines 45-54): a line that begins with a word that
    lower-cases to [from] and a space, holds no CR or LF before its line
    break, and is followed by written fields, changes nothing of what
    [ReadHeader] returns for those fields. *)
Theorem ReadHeader_skips_separator (crlf0 crlf : bool) (word rest : string)
    (pairs : list (string * string)) (tail : string) :
  ToLower word = "from" -> one_line rest ->
  Forall (renderable crlf) pairs -> ends_header tail ->
  ReadHeader simplify NewHeaderField
    (separator_line crlf0 word rest +:+ render crlf pairs +:+ tail) Rfc5322Header
  = Ok (mkHeader Rfc5322Header
          (allocate NewHeaderField (List.filter (kept simplify) pairs)) None false,
        None).
Proof.
  intros Hfrom Hrest Hpairs Htail. unfold ReadHeader. cbn [ReadHeader_loop].
  set (h0 := mkHeader Rfc5322Header [] None false).
  pose proof (ReadHeader_iter_separator crlf0 "" word rest
                (render crlf pairs +:+ tail) h0 Hfrom Hrest) as Hiter.
  change (String.length "") with 0 in Hiter. cbn [Nat.add] in Hiter.
  change ("" +:+ separator_line crlf0 word rest +:+ render crlf pairs +:+ tail)
    with (separator_line crlf0 word rest +:+ render crlf pairs +:+ tail) in Hiter.
  rewrite Hiter. cbn [bind].
  rewrite (ReadHeader_loop_rendered simplify NewHeaderField crlf tail Rfc5322Header
             pairs (separator_line crlf0 word rest) h0); try assumption; [reflexivity|].
  unfold separator_line. rewrite !length_append.
  pose proof (length_render crlf pairs). cbn. lia.
Qed.

(** X17: in [MimeHeader] mode the same separator line ends the header
    (line 83): whatever follows it, [ReadHeader] returns a header without
    fields. *)
Theorem ReadHeader_stops_at_separator (crlf : bool) (word rest next : string) :
  ToLower word = "from" ->
  ReadHeader simplify NewHeaderField
    (separator_line crlf word rest +:+ next) MimeHeader
  = Ok (mkHeader MimeHeader [] None false, None).
Proof.
  intros Hfrom. destruct (from_word _ Hfrom) as (Hword & Htok & _).
  remember (separator_line crlf word rest +:+ next) as s eqn:Hs.
  unfold separator_line in Hs. rewrite !append_assoc in Hs.
  destruct (separator_bytes "" _ _ _ _ _ Hword Hs) as (Hlen & Hw & Hsp & _).
  change (String.length "") with 0 in *. cbn [Nat.add] in *. clear Hs.
  destruct (get_lt_Some word 0 ltac:(lia)) as (c0 & Hc0).
  pose proof (Htok _ _ Hc0) as Ht0.
  pose proof (Hw 0 ltac:(lia)) as Hs0. rewrite Hc0 in Hs0.
  unfold ReadHeader. cbn [ReadHeader_loop].
  unfold ReadHeader_iter. cbv beta iota zeta.
  assert (Hbom : Ok (0 + 2 <? String.length s)
                 &&& is_byte s 0 (ascii_of_nat 239)
                 &&& is_byte s (0 + 1) (ascii_of_nat 187)
                 &&& is_byte s (0 + 2) (ascii_of_nat 191) = Ok false).
  { rewrite (is_byte_eval _ _ _ _ Hs0), (token_byte_not_bom _ Ht0).
    now destruct (0 + 2 <? String.length s). }
  rewrite Hbom. cbn [bind].
  assert (Hj : scan (S (String.length s)) (token_cond s (String.length s)) 0 = Ok 4).
  { apply scan_to; [lia | | | lia].
    - intros k Hk. destruct (get_lt_Some word k ltac:(lia)) as (c & Hc).
      rewrite (token_cond_eval s _ c) by (rewrite Hw by lia; exact Hc).
      now rewrite (Htok _ _ Hc).
    - now rewrite (token_cond_eval _ _ _ Hsp). }
  rewrite Hj. cbn [bind]. rewrite (is_byte_eval _ _ _ _ Hsp).
  change (4 =? 0 + 4) with true. cbn [HeaderMode_eqb andr bind].
  change (0 <? 4) with true. change (Ascii.eqb SP COLON) with false.
  cbn [andr bind]. now destruct (String.length s).
Qed.

End Separator.
(** ** The parser on the example inputs *)

(** Tactics for the hypotheses of the theorems above on a string literal:
    the bytes are inspected one index after the other. *)
Ltac each_index k H tac :=
  first [ solve [cbv in H; discriminate H]
        | destruct k as [|k]; [tac | each_index k H tac] ].

Ltac token_bytes :=
  split;
  [ discriminate
  | let k := fresh "k" in let c := fresh "c" in let H := fresh "H" in
    intros k c H;
    each_index k H ltac:(cbv in H; injection H as <-; reflexivity) ].

Ltac folded_value :=
  split;
  [ let c := fresh "c" in let H := fresh "H" in
    intros c H; cbv in H; first [discriminate H | injection H as <-; reflexivity]
  | let k := fresh "k" in let H := fresh "H" in
    intros k H;
    each_index k H ltac:(first [ cbv in H; discriminate H
                               | eexists; split; reflexivity ]) ].

Ltac last_byte :=
  let H := fresh "H" in
  intros _ H; cbv in H; discriminate H.

Ltac renderable_pairs :=
  repeat (constructor;
          [ split; [token_bytes | split; [folded_value | first [discriminate | last_byte]]] |]);
  try constructor.

Ltac header_end :=
  let c := fresh "c" in let H := fresh "H" in
  intros c H; cbv in H;
  first [ discriminate H
        | injection H as <-; first [left; reflexivity | right; reflexivity] ].

Ltac no_line_break :=
  let k := fresh "k" in let H := fresh "H" in
  intros k; split; intros H;
  each_index k H ltac:(cbv in H; discriminate H).

(** X12, on [folded_example]. *)
Lemma ReadHeader_builds_from_tokens_witness :
  exists h,
    ReadHeader simplify_spec unstructured folded_example Rfc5322Header = Ok (h, None)
    /\ mode h = Rfc5322Header /\ err h = None /\ verified h = false
    /\ exists pairs,
         Forall (well_formed_pair simplify_spec) pairs
         /\ Fields h = allocate unstructured pairs.
Proof.
  eexists. split; [vm_compute; reflexivity|].
  exact (ReadHeader_builds_from_tokens simplify_spec unstructured folded_example
           Rfc5322Header _ None ltac:(vm_compute; reflexivity)).
Defined.

(** X13, on [folded_example]. *)
Lemma ReadHeader_fields_distinct_witness :
  exists h,
    ReadHeader simplify_spec unstructured folded_example Rfc5322Header = Ok (h, None)
    /\ map Field.ptr (Fields h) = seq 0 (length (Fields h))
    /\ NoDup (map Field.ptr (Fields h)).
Proof.
  eexists. split; [vm_compute; reflexivity|].
  exact (ReadHeader_fields_distinct simplify_spec unstructured folded_example
           Rfc5322Header _ None (fun _ _ _ => eq_refl)
           ltac:(vm_compute; reflexivity)).
Defined.

(** X14, on [written_pairs] with CR LF line breaks: the Comments field
    without a value is dropped, the extension field without a value stays. *)
Lemma ReadHeader_reads_rendered_witness :
  ReadHeader simplify_spec unstructured
    (render true written_pairs +:+ blank_line_and_body) Rfc5322Header
  = Ok (mkHeader Rfc5322Header
          [ unstructured 0 "From" "a@example.org";
            unstructured 1 "Subject" ("hello" +:+ String CR (String LF " world"));
            unstructured 2 "X-Empty" "" ]
          None false,
        None).
Proof.
  refine (ReadHeader_reads_rendered simplify_spec unstructured true written_pairs
            blank_line_and_body Rfc5322Header _ _).
  - renderable_pairs.
  - header_end.
Defined.

(** X15, on [written_pairs] with bare LF line breaks, up to the end of the
    input. *)
Lemma ReadHeader_skips_byte_order_mark_witness :
  ReadHeader simplify_spec unstructured
    (byte_order_mark +:+ render false written_pairs +:+ "") MimeHeader
  = Ok (mkHeader MimeHeader
          [ unstructured 0 "From" "a@example.org";
            unstructured 1 "Subject" ("hello" +:+ String CR (String LF " world"));
            unstructured 2 "X-Empty" "" ]
          None false,
        None).
Proof.
  refine (ReadHeader_skips_byte_order_mark simplify_spec unstructured false
            written_pairs "" MimeHeader _ _).
  - renderable_pairs.
  - header_end.
Defined.

(** X16, on a separator line that ends in a bare LF before [written_pairs]
    with CR LF line breaks. *)
Lemma ReadHeader_skips_separator_witness :
  ReadHeader simplify_spec unstructured
    (separator_line false "From" envelope
     +:+ render true written_pairs +:+ blank_line_and_body) Rfc5322Header
  = Ok (mkHeader Rfc5322Header
          [ unstructured 0 "From" "a@example.org";
            unstructured 1 "Subject" ("hello" +:+ String CR (String LF " world"));
            unstructured 2 "X-Empty" "" ]
          None false,
        None).
Proof.
  refine (ReadHeader_skips_separator simplify_spec unstructured false true "From"
            envelope written_pairs blank_line_and_body eq_refl _ _ _).
  - no_line_break.
  - renderable_pairs.
  - header_end.
Defined.

(** X17, on the same separator line in upper case, before a Subject field. *)
Lemma ReadHeader_stops_at_separator_witness :
  ReadHeader simplify_spec unstructured
    (separator_line true "FROM" envelope +:+ subject_example) MimeHeader
  = Ok (mkHeader MimeHeader [] None false, None).
Proof.
  exact (ReadHeader_stops_at_separator simplify_spec unstructured true "FROM"
           envelope subject_example eq_refl).
Defined.

(** ** Inputs that end inside a field *)

(** A loop that finds its condition true from [i] up to [j] and panics on
    it at [j] panics. *)
Lemma scan_panic (fuel : nat) (cond : nat -> result bool) (i j : nat) :
  i <= j ->
  (forall k, i <= k < j -> cond k = Ok true) ->
  cond j = Panic ->
  j - i < fuel ->
  scan fuel cond i = Panic.
Proof.
  revert i. induction fuel as [|fuel IH]; intros i Hij Htrue Hpanic Hfuel; [lia|].
  cbn [scan]. destruct (decide (i = j)) as [->|Hne].
  - now rewrite Hpanic.
  - rewrite Htrue by lia. cbn [bind]. apply IH; [lia | | assumption | lia].
    intros k Hk. apply Htrue. lia.
Qed.

Lemma is_byte_end (s : string) (k : nat) (x : ascii) :
  String.length s <= k -> is_byte s k x = Panic.
Proof. intros Hk. unfold is_byte, test_byte. now rewrite byte_at_ge. Qed.

Lemma is_token_first (name rest : string) :
  is_token name ->
  exists c, String.get 0 (name +:+ rest) = Some c /\ token_byte c = true.
Proof.
  intros [Hne Htok]. destruct name as [|c name]; [congruence|].
  exists c. split; [reflexivity | now apply (Htok 0)].
Qed.

Section Truncated.

Variable simplify : string -> string.
Variable NewHeaderField : nat -> string -> string -> Field.t.

(** The loop on the written fields, up to what follows them. *)
Lemma ReadHeader_loop_fields (crlf : bool) (tail : string) (m : HeaderMode)
    (pairs : list (string * string)) (pre : string) (h : Header) (fuel : nat) :
  Forall (renderable crlf) pairs -> no_continuation tail ->
  exists h',
    ReadHeader_loop simplify NewHeaderField (length pairs + fuel)
      (pre +:+ render crlf pairs +:+ tail) m (String.length pre, false, h)
    = ReadHeader_loop simplify NewHeaderField fuel
        (pre +:+ render crlf pairs +:+ tail) m
        (String.length pre + String.length (render crlf pairs), false, h').
Proof.
  intros Hpairs Htail. revert pre h.
  induction Hpairs as [|nv pairs Hnv Hpairs IH]; intros pre h.
  - exists h. cbn [render length Nat.add String.length]. now rewrite Nat.add_0_r.
  - cbn [render length Nat.add ReadHeader_loop]. rewrite append_assoc.
    rewrite ReadHeader_iter_field_line.
    + cbn [bind].
      destruct (IH (pre +:+ render_field crlf nv)
                  (if kept simplify nv
                   then Add h (NewHeaderField (length (Fields h)) nv.1 nv.2)
                   else h)) as (h' & Hrun).
      exists h'. rewrite append_assoc, length_append in Hrun.
      rewrite Hrun, length_append, Nat.add_assoc. reflexivity.
    + exact Hnv.
    + clear IH. intros c. destruct Hpairs as [|[name value] rest [Hname _] _].
      * exact (Htail c).
      * cbn [render]. unfold render_field. cbn [fst snd] in *.
        rewrite !append_assoc. intros Hc.
        destruct (is_token_first name
                    (": " +:+ value +:+ eol crlf +:+ render crlf rest +:+ tail) Hname)
          as (c' & Hc' & Ht).
        rewrite Hc' in Hc. injection Hc as <-. now apply token_byte_not_blank.
Qed.

(** A turn of the loop at a field that the input ends in. *)
Lemma ReadHeader_iter_truncated (pre tail : string) (m : HeaderMode) (h : Header) :
  truncated_field tail ->
  ReadHeader_iter simplify NewHeaderField (pre +:+ tail) m (String.length pre, false, h)
  = Panic.
Proof.
  intros Htail.
  assert (exists name rest,
            tail = name +:+ rest /\ is_token name
            /\ (rest = "" \/ exists blanks, rest = ":" +:+ blanks /\ all_blank blanks))
    as (name & rest & -> & Hname & Hrest).
  { destruct Htail as [Htok|(name & blanks & -> & Htok & Hblank)].
    - exists tail, "". split; [|auto].
      clear. induction tail as [|c t IH]; [reflexivity|].
      rewrite append_cons. now f_equal.
    - exists name, (":" +:+ blanks). eauto 6. }
  set (s := pre +:+ name +:+ rest). set (p0 := String.length pre).
  set (n := String.length name).
  assert (Hlen : String.length s = p0 + n + String.length rest)
    by (subst s p0 n; rewrite !length_append; lia).
  assert (Hget : forall k, k < n -> String.get (p0 + k) s = String.get k name).
  { intros k Hk. subst s p0. rewrite get_append_r. now apply get_append_l. }
  assert (Hafter : forall k, String.get (p0 + n + k) s = String.get k rest).
  { intros k. subst s p0 n. now rewrite <- Nat.add_assoc, !get_append_r. }
  destruct Hname as [Hne Htok].
  assert (Hn : 0 < n) by (subst n; destruct name; [congruence | cbn; lia]).
  destruct (get_lt_Some name 0 Hn) as (c0 & Hc0).
  pose proof (Htok _ _ Hc0) as Ht0.
  pose proof (Hget 0 Hn) as Hs0. rewrite Nat.add_0_r, Hc0 in Hs0.
  unfold ReadHeader_iter. cbv beta iota zeta.
  assert (Hbom : Ok (p0 + 2 <? String.length s)
                 &&& is_byte s p0 (ascii_of_nat 239)
                 &&& is_byte s (p0 + 1) (ascii_of_nat 187)
                 &&& is_byte s (p0 + 2) (ascii_of_nat 191) = Ok false).
  { rewrite (is_byte_eval _ _ _ _ Hs0), (token_byte_not_bom _ Ht0).
    now destruct (p0 + 2 <? String.length s). }
  rewrite Hbom. cbn [bind].
  assert (Hstop : token_cond s (String.length s) (p0 + n) = Ok false).
  { destruct Hrest as [->|(blanks & -> & _)].
    - apply token_cond_end. cbn in Hlen. lia.
    - rewrite (token_cond_eval s _ COLON); [reflexivity|].
      rewrite <- (Nat.add_0_r (p0 + n)). now rewrite Hafter. }
  assert (Hj : scan (S (String.length s)) (token_cond s (String.length s)) p0
               = Ok (p0 + n)).
  { apply scan_to; [lia | | exact Hstop | lia].
    intros k Hk. replace k with (p0 + (k - p0)) by lia.
    destruct (get_lt_Some name (k - p0) ltac:(lia)) as (c & Hc).
    rewrite (token_cond_eval s _ c) by (rewrite Hget by lia; exact Hc).
    now rewrite (Htok _ _ Hc). }
  rewrite Hj. cbn [bind].
  destruct Hrest as [->|(blanks & -> & Hblank)].
  - (* the input ends inside the name *)
    cbn in Hlen. rewrite Nat.add_0_r in Hlen.
    assert (Hslice : slice s p0 (p0 + n + 1) = Panic).
    { unfold slice.
      replace (p0 + n + 1 <=? String.length s) with false
        by (symmetry; apply Nat.leb_gt; lia).
      now rewrite andb_false_r. }
    rewrite Hslice, (is_byte_end s (p0 + n)) by lia.
    replace (p0 <? p0 + n) with true by (symmetry; apply Nat.ltb_lt; lia).
    destruct (p0 + n =? p0 + 4), (HeaderMode_eqb m Rfc5322Header); reflexivity.
  - (* the input ends after the colon and the blanks *)
    assert (Hcolon : String.get (p0 + n) s = Some COLON).
    { rewrite <- (Nat.add_0_r (p0 + n)). now rewrite Hafter. }
    assert (Hlenb : String.length s = p0 + n + 1 + String.length blanks).
    { rewrite Hlen, length_append. cbn. lia. }
    assert (Hmbox : Ok (p0 + n =? p0 + 4)
                    &&& Ok (HeaderMode_eqb m Rfc5322Header)
                    &&& (let* t := slice s p0 (p0 + n + 1) in
                         Ok (String.eqb (ToLower t) "from ")) = Ok false).
    { destruct (p0 + n =? p0 + 4) eqn:Hn4; [|reflexivity].
      destruct (HeaderMode_eqb m Rfc5322Header); [|reflexivity].
      cbn [andr bind]. apply Nat.eqb_eq in Hn4.
      destruct (slice s p0 (p0 + n + 1)) as [t| |] eqn:Ht.
      - cbn [bind]. f_equal. apply String.eqb_neq. intros Hfrom.
        pose proof (get_ToLower t 4) as Hg.
        rewrite (get_slice _ _ _ _ 4 Ht), Hfrom in Hg.
        replace (4 <? p0 + n + 1 - p0) with true in Hg
          by (symmetry; apply Nat.ltb_lt; lia).
        replace (p0 + 4) with (p0 + n) in Hg by lia.
        rewrite Hcolon in Hg. discriminate.
      - unfold slice in Ht.
        replace (p0 <=? p0 + n + 1) with true in Ht by (symmetry; apply Nat.leb_le; lia).
        replace (p0 + n + 1 <=? String.length s) with true in Ht
          by (symmetry; apply Nat.leb_le; lia).
        discriminate.
      - unfold slice in Ht. destruct (_ && _) in Ht; discriminate. }
    rewrite Hmbox. cbn [bind].
    replace (p0 <? p0 + n) with true by (symmetry; apply Nat.ltb_lt; lia).
    rewrite (is_byte_eval _ _ _ _ Hcolon). cbn [andr bind].
    change (Ascii.eqb COLON COLON) with true. cbv beta iota.
    assert (Hslice : slice s p0 (p0 + n) = Ok (String.substring p0 n s)).
    { unfold slice.
      replace (p0 <=? p0 + n) with true by (symmetry; apply Nat.leb_le; lia).
      replace (p0 + n <=? String.length s) with true by (symmetry; apply Nat.leb_le; lia).
      cbn [andb]. now replace (p0 + n - p0) with n by lia. }
    rewrite Hslice. cbn [bind].
    assert (Hscan : scan (S (String.length s)) (blank_cond s) (p0 + n + 1) = Panic).
    { apply (scan_panic _ _ _ (String.length s)); [lia | | | lia].
      - intros k Hk. replace k with (p0 + n + S (k - (p0 + n + 1))) by lia.
        destruct (get_lt_Some blanks (k - (p0 + n + 1)) ltac:(lia)) as (c & Hc).
        rewrite (blank_cond_eval s _ c); [now rewrite (Hblank _ _ Hc)|].
        rewrite Hafter. exact Hc.
      - unfold blank_cond. now rewrite is_byte_end by lia. }
    now rewrite Hscan.
Qed.

(** X21: an input that ends inside a field makes [ReadHeader] panic.  After
    any number of written fields, when the input ends inside a field name
    (so that line 45 slices, or line 55 reads, past the end) or after the
    colon of a field name and the spaces and tabs that follow it (so that
    line 59 reads past the end), the outcome is a panic in either mode. *)
Theorem ReadHeader_panics_on_truncated_field (crlf : bool)
    (pairs : list (string * string)) (tail : string) (m : HeaderMode) :
  Forall (renderable crlf) pairs -> truncated_field tail ->
  ReadHeader simplify NewHeaderField (render crlf pairs +:+ tail) m = Panic.
Proof.
  intros Hpairs Htail. unfold ReadHeader.
  assert (Hnext : no_continuation tail).
  { intros c Hc. apply token_byte_not_blank.
    destruct Htail as [Htok|(name & blanks & -> & Htok & _)].
    - destruct Htok as [_ Htok]. now apply (Htok 0).
    - destruct (is_token_first name (":" +:+ blanks) Htok) as (c' & Hc' & Ht).
      congruence. }
  destruct (ReadHeader_loop_fields crlf tail m pairs "" (mkHeader m [] None false)
              (S (String.length (render crlf pairs +:+ tail) - length pairs))
              Hpairs Hnext) as (h' & Hrun).
  change ("" +:+ render crlf pairs +:+ tail) with (render crlf pairs +:+ tail) in Hrun.
  change (String.length "" + String.length (render crlf pairs))
    with (String.length (render crlf pairs)) in Hrun.
  change (String.length "") with 0 in Hrun.
  replace (length pairs + S (String.length (render crlf pairs +:+ tail) - length pairs))
    with (S (String.length (render crlf pairs +:+ tail))) in Hrun.
  - rewrite Hrun. cbn [ReadHeader_loop].
    now rewrite ReadHeader_iter_truncated.
  - rewrite length_append. pose proof (length_render crlf pairs). lia.
Qed.

End Truncated.
Lemma append_nil_r (s : string) : s +:+ "" = s.
Proof.
  induction s as [|c s IH]; [reflexivity|]. rewrite append_cons. now f_equal.
Qed.

Lemma line_cond_end (s : string) (k : nat) :
  String.length s <= k -> line_cond s (String.length s) k = Ok false.
Proof.
  intros Hk. unfold line_cond. apply Nat.ltb_ge in Hk. now rewrite Hk.
Qed.

Section TruncatedSeparator.

Variable simplify : string -> string.
Variable NewHeaderField : nat -> string -> string -> Field.t.

(** In [Rfc5322Header] mode, a turn of the loop at a separator line that
    the input ends in. *)
Lemma ReadHeader_iter_open_separator (pre word rest : string) (h : Header) :
  ToLower word = "from" -> one_line rest ->
  ReadHeader_iter simplify NewHeaderField (pre +:+ word +:+ " " +:+ rest)
    Rfc5322Header (String.length pre, false, h)
  = Panic.
Proof.
  intros Hfrom Hrest.
  destruct (from_word _ Hfrom) as (Hword & Htok & Hlower).
  remember (pre +:+ word +:+ " " +:+ rest) as s eqn:Hs.
  rewrite <- (append_nil_r rest) in Hs.
  change (rest +:+ "") with (rest +:+ "" +:+ "") in Hs.
  destruct (separator_bytes _ _ _ _ _ _ Hword Hs)
    as (Hlen & Hw & Hsp & Hr & _ & Hsub).
  clear Hs. cbn [String.length] in Hlen. rewrite !Nat.add_0_r in Hlen.
  set (p0 := String.length pre) in *.
  set (r := String.length rest) in *.
  destruct (get_lt_Some word 0 ltac:(lia)) as (c0 & Hc0).
  pose proof (Htok _ _ Hc0) as Ht0.
  pose proof (Hw 0 ltac:(lia)) as Hs0. rewrite Nat.add_0_r, Hc0 in Hs0.
  unfold ReadHeader_iter. cbv beta iota zeta.
  assert (Hbom : Ok (p0 + 2 <? String.length s)
                 &&& is_byte s p0 (ascii_of_nat 239)
                 &&& is_byte s (p0 + 1) (ascii_of_nat 187)
                 &&& is_byte s (p0 + 2) (ascii_of_nat 191) = Ok false).
  { rewrite (is_byte_eval _ _ _ _ Hs0), (token_byte_not_bom _ Ht0).
    now destruct (p0 + 2 <? String.length s). }
  rewrite Hbom. cbn [bind].
  assert (Hj : scan (S (String.length s)) (token_cond s (String.length s)) p0
               = Ok (p0 + 4)).
  { apply scan_to; [lia | | | lia].
    - intros k Hk. replace k with (p0 + (k - p0)) by lia.
      destruct (get_lt_Some word (k - p0) ltac:(lia)) as (c & Hc).
      rewrite (token_cond_eval s _ c) by (rewrite Hw by lia; exact Hc).
      now rewrite (Htok _ _ Hc).
    - now rewrite (token_cond_eval _ _ _ Hsp). }
  rewrite Hj. cbn [bind].
  assert (Hslice : slice s p0 (p0 + 4 + 1) = Ok (word +:+ " ")).
  { unfold slice.
    replace (p0 <=? p0 + 4 + 1) with true by (symmetry; apply Nat.leb_le; lia).
    replace (p0 + 4 + 1 <=? String.length s) with true
      by (symmetry; apply Nat.leb_le; lia).
    cbn [andb]. replace (p0 + 4 + 1 - p0) with 5 by lia. now rewrite Hsub. }
  rewrite Nat.eqb_refl, Hslice. cbn [HeaderMode_eqb andr bind]. rewrite Hlower.
  cbn [String.eqb]. rewrite !Ascii.eqb_refl.
  (* to the end of the input *)
  assert (Hi1 : scan (S (String.length s)) (line_cond s (String.length s)) p0
                = Ok (String.length s)).
  { apply scan_to; [lia | | apply line_cond_end; lia | lia].
    intros k Hk. destruct (decide (k < p0 + 4)) as [Hin|Hout].
    - replace k with (p0 + (k - p0)) by lia.
      destruct (get_lt_Some word (k - p0) ltac:(lia)) as (c & Hc).
      rewrite (line_cond_eval s _ c) by (rewrite Hw by lia; exact Hc).
      pose proof (Htok _ _ Hc) as Ht.
      destruct (Ascii.eqb_spec c CR) as [->|]; [discriminate|].
      destruct (Ascii.eqb_spec c LF) as [->|]; [discriminate | reflexivity].
    - destruct (decide (k = p0 + 4)) as [->|Hne].
      + now rewrite (line_cond_eval _ _ _ Hsp).
      + replace k with (p0 + 5 + (k - (p0 + 5))) by lia.
        destruct (get_lt_Some rest (k - (p0 + 5)) ltac:(lia)) as (c & Hc).
        rewrite (line_cond_eval s _ c) by (rewrite Hr by lia; exact Hc).
        destruct (Hrest (k - (p0 + 5))) as [Hcr Hlf].
        destruct (Ascii.eqb_spec c CR) as [->|]; [congruence|].
        destruct (Ascii.eqb_spec c LF) as [->|]; [congruence | reflexivity]. }
  rewrite Hi1. cbn [bind scan]. now rewrite is_byte_end.
Qed.

(** X22: in [Rfc5322Header] mode an mbox separator line that the input ends
    in, without a line break, makes [ReadHeader] panic: the loop of line 49
    reads past the end. *)
Theorem ReadHeader_panics_on_open_separator (crlf : bool)
    (pairs : list (string * string)) (word rest : string) :
  Forall (renderable crlf) pairs ->
  ToLower word = "from" -> one_line rest ->
  ReadHeader simplify NewHeaderField
    (render crlf pairs +:+ word +:+ " " +:+ rest) Rfc5322Header
  = Panic.
Proof.
  intros Hpairs Hfrom Hrest. unfold ReadHeader.
  destruct (from_word _ Hfrom) as (Hword & Htok & _).
  set (tail := word +:+ " " +:+ rest).
  assert (Hnext : no_continuation tail).
  { intros c Hc. apply token_byte_not_blank.
    destruct word as [|x word]; [discriminate|]. injection Hc as <-.
    now apply (Htok 0). }
  destruct (ReadHeader_loop_fields simplify NewHeaderField crlf tail Rfc5322Header
              pairs "" (mkHeader Rfc5322Header [] None false)
              (S (String.length (render crlf pairs +:+ tail) - length pairs))
              Hpairs Hnext) as (h' & Hrun).
  change ("" +:+ render crlf pairs +:+ tail) with (render crlf pairs +:+ tail) in Hrun.
  change (String.length "" + String.length (render crlf pairs))
    with (String.length (render crlf pairs)) in Hrun.
  change (String.length "") with 0 in Hrun.
  replace (length pairs + S (String.length (render crlf pairs +:+ tail) - length pairs))
    with (S (String.length (render crlf pairs +:+ tail))) in Hrun.
  - rewrite Hrun. cbn [ReadHeader_loop]. subst tail.
    now rewrite ReadHeader_iter_open_separator.
  - rewrite length_append. pose proof (length_render crlf pairs). lia.
Qed.

End TruncatedSeparator.
(** X21, on [written_pairs] followed by a Subject field that the input ends
    in after the colon and one space. *)
Lemma ReadHeader_panics_on_truncated_field_witness :
  ReadHeader simplify_spec unstructured
    (render true written_pairs +:+ "Subject: ") Rfc5322Header
  = Panic.
Proof.
  refine (ReadHeader_panics_on_truncated_field simplify_spec unstructured true
            written_pairs "Subject: " Rfc5322Header _ _).
  - renderable_pairs.
  - right. exists "Subject", " ". split; [reflexivity|]. split; [token_bytes|].
    intros k c H. each_index k H ltac:(cbv in H; injection H as <-; reflexivity).
Defined.

(** X22, on a separator line without a line break. *)
Lemma ReadHeader_panics_on_open_separator_witness :
  ReadHeader simplify_spec unstructured
    (render true [] +:+ "From" +:+ " " +:+ envelope) Rfc5322Header
  = Panic.
Proof.
  refine (ReadHeader_panics_on_open_separator simplify_spec unstructured true []
            "From" envelope _ eq_refl _).
  - constructor.
  - no_line_break.
Defined.
